(** * LSM303D accelerometer / magnetometer driver

    A shallow embedding of [src/drivers/lsm303d/lsm303d.cpp] and the
    properties of its configuration setters, reset path, measurement
    routines, read paths and self tests.

    The driver object is a record whose fields carry the names of the C++
    members.  Methods are functions in a small state monad over the driver
    object, the hardware behind the SPI bus and a log of the calls made to
    the scheduler and the publish/poll layer.  Single precision arithmetic
    is IEEE 754 binary32, taken from the standard library's executable
    specification of floating point numbers. *)

From Stdlib Require Import ZArith List Bool Lia RelationClasses.
From Stdlib Require Import Floats.SpecFloat.
Import ListNotations.
Open Scope Z_scope.

(** ** Single precision floats

    The target (Cortex-M4F) evaluates [float] expressions in binary32 with
    round-to-nearest-even.  [spec_float] instantiated at precision 24 and
    maximal exponent 128 is exactly that format. *)
Module Float32.

Definition prec : Z := 24.
Definition emax : Z := 128.

Definition float : Type := spec_float.

Definition add : float -> float -> float := SFadd prec emax.
Definition sub : float -> float -> float := SFsub prec emax.
Definition mul : float -> float -> float := SFmul prec emax.
Definition div : float -> float -> float := SFdiv prec emax.
Definition fabsf : float -> float := SFabs.

(** C comparisons; every comparison with a NaN is false. *)
Definition ltb (x y : float) : bool := SFltb x y.
Definition gtb (x y : float) : bool := SFltb y x.
Definition leb (x y : float) : bool := SFleb x y.

(** Conversion of an integer value to [float] (exact below 2^24, rounded
    to nearest even above). *)
Definition of_int (z : Z) : float := binary_normalize prec emax z 0 false.

(** A decimal literal [n/d] with [n] and [d] exactly representable: the
    correctly rounded quotient is the binary32 value nearest to the
    decimal, which is what the compiler stores for the literal. *)
Definition lit (n d : Z) : float := div (of_int n) (of_int d).

(** Conversion of a [float] to an integer type: the fractional part is
    discarded (C11 6.3.1.4).  Zero is returned for infinities and NaN,
    where C leaves the conversion undefined. *)
Definition to_int (x : float) : Z :=
  match x with
  | S754_finite s m e =>
      let mag := if 0 <=? e then Z.shiftl (Zpos m) e
                 else Z.shiftr (Zpos m) (- e) in
      if s then - mag else mag
  | _ => 0
  end.

End Float32.

Definition float : Type := Float32.float.

Declare Scope float32_scope.
Delimit Scope float32_scope with f32.
Infix "+." := Float32.add (at level 50, left associativity) : float32_scope.
Infix "-." := Float32.sub (at level 50, left associativity) : float32_scope.
Infix "*." := Float32.mul (at level 40, left associativity) : float32_scope.
Infix "/." := Float32.div (at level 40, left associativity) : float32_scope.
Infix "<." := Float32.ltb (at level 70, no associativity) : float32_scope.
Infix ">." := Float32.gtb (at level 70, no associativity) : float32_scope.
Open Scope float32_scope.

(** ** Integer types of the target *)

Definition to_uint8 (z : Z) : Z := z mod 256.
Definition to_unsigned (z : Z) : Z := z mod 2 ^ 32.

(** [int16_t] read from two bytes, low byte first (the packed burst
    structure on a little-endian core). *)
Definition to_int16 (lo hi : Z) : Z :=
  let u := to_uint8 lo + 256 * to_uint8 hi in
  if u <? 32768 then u else u - 65536.

(** ** Error codes ([errno.h] of the RTOS) and [OK] *)

Definition OK : Z := 0.
Definition EAGAIN : Z := 11.
Definition EINVAL : Z := 22.
Definition ENOSPC : Z := 28.

(** ** Register map and bit fields *)

Definition DIR_READ : Z := Z.shiftl 1 7.
Definition DIR_WRITE : Z := Z.shiftl 0 7.
Definition ADDR_INCREMENT : Z := Z.shiftl 1 6.

Definition ADDR_STATUS_M : Z := 0x07.
Definition ADDR_STATUS_A : Z := 0x27.
Definition ADDR_CTRL_REG1 : Z := 0x20.
Definition ADDR_CTRL_REG2 : Z := 0x21.
Definition ADDR_CTRL_REG3 : Z := 0x22.
Definition ADDR_CTRL_REG4 : Z := 0x23.
Definition ADDR_CTRL_REG5 : Z := 0x24.
Definition ADDR_CTRL_REG6 : Z := 0x25.
Definition ADDR_CTRL_REG7 : Z := 0x26.

(** [((a<<7) | (b<<6) | ...)] as the header writes its masks. *)
Definition bits (l : list (Z * Z)) : Z :=
  fold_left (fun acc p => Z.lor acc (Z.shiftl (fst p) (snd p))) l 0.

Definition REG1_RATE_BITS_A : Z := bits [(1,7); (1,6); (1,5); (1,4)].
Definition REG1_RATE_100HZ_A : Z := bits [(0,7); (1,6); (1,5); (0,4)].
Definition REG1_RATE_200HZ_A : Z := bits [(0,7); (1,6); (1,5); (1,4)].
Definition REG1_RATE_400HZ_A : Z := bits [(1,7); (0,6); (0,5); (0,4)].
Definition REG1_RATE_800HZ_A : Z := bits [(1,7); (0,6); (0,5); (1,4)].
Definition REG1_RATE_1600HZ_A : Z := bits [(1,7); (0,6); (1,5); (0,4)].

Definition REG1_BDU_UPDATE : Z := Z.shiftl 1 3.
Definition REG1_Z_ENABLE_A : Z := Z.shiftl 1 2.
Definition REG1_Y_ENABLE_A : Z := Z.shiftl 1 1.
Definition REG1_X_ENABLE_A : Z := Z.shiftl 1 0.

Definition REG2_ANTIALIAS_FILTER_BW_BITS_A : Z := bits [(1,7); (1,6)].
Definition REG2_AA_FILTER_BW_773HZ_A : Z := bits [(0,7); (0,6)].
Definition REG2_AA_FILTER_BW_194HZ_A : Z := bits [(0,7); (1,6)].
Definition REG2_AA_FILTER_BW_362HZ_A : Z := bits [(1,7); (0,6)].
Definition REG2_AA_FILTER_BW_50HZ_A : Z := bits [(1,7); (1,6)].

Definition REG2_FULL_SCALE_BITS_A : Z := bits [(1,5); (1,4); (1,3)].
Definition REG2_FULL_SCALE_2G_A : Z := bits [(0,5); (0,4); (0,3)].
Definition REG2_FULL_SCALE_4G_A : Z := bits [(0,5); (0,4); (1,3)].
Definition REG2_FULL_SCALE_6G_A : Z := bits [(0,5); (1,4); (0,3)].
Definition REG2_FULL_SCALE_8G_A : Z := bits [(0,5); (1,4); (1,3)].
Definition REG2_FULL_SCALE_16G_A : Z := bits [(1,5); (0,4); (0,3)].

Definition REG5_RES_HIGH_M : Z := bits [(1,6); (1,5)].

Definition REG5_RATE_BITS_M : Z := bits [(1,4); (1,3); (1,2)].
Definition REG5_RATE_25HZ_M : Z := bits [(0,4); (1,3); (1,2)].
Definition REG5_RATE_50HZ_M : Z := bits [(1,4); (0,3); (0,2)].
Definition REG5_RATE_100HZ_M : Z := bits [(1,4); (0,3); (1,2)].

Definition REG6_FULL_SCALE_BITS_M : Z := bits [(1,6); (1,5)].
Definition REG6_FULL_SCALE_2GA_M : Z := bits [(0,6); (0,5)].
Definition REG6_FULL_SCALE_4GA_M : Z := bits [(0,6); (1,5)].
Definition REG6_FULL_SCALE_8GA_M : Z := bits [(1,6); (0,5)].
Definition REG6_FULL_SCALE_12GA_M : Z := bits [(1,6); (1,5)].

Definition REG7_CONT_MODE_M : Z := bits [(0,1); (0,0)].

(** Default values for this device. *)
Definition LSM303D_ACCEL_DEFAULT_RANGE_G : Z := 8.
Definition LSM303D_ACCEL_DEFAULT_RATE : Z := 800.
Definition LSM303D_ACCEL_DEFAULT_ONCHIP_FILTER_FREQ : Z := 50.
Definition LSM303D_ACCEL_DEFAULT_DRIVER_FILTER_FREQ : Z := 30.
Definition LSM303D_MAG_DEFAULT_RANGE_GA : Z := 2.
Definition LSM303D_MAG_DEFAULT_RATE : Z := 100.

(** [9.80665f] *)
Definition LSM303D_ONE_G : float := Float32.lit 980665 100000.

(** ** Calibration and sample records ([drv_accel.h], [drv_mag.h])

    The fields the driver reads or writes.  The members of the two
    channels have the same names in C ([x_offset], [x_raw], ...); they
    carry a channel prefix here. *)

Record accel_scale := {
  ax_offset : float; ax_scale : float;
  ay_offset : float; ay_scale : float;
  az_offset : float; az_scale : float
}.

Record mag_scale := {
  mx_offset : float; mx_scale : float;
  my_offset : float; my_scale : float;
  mz_offset : float; mz_scale : float
}.

Record accel_report := {
  a_timestamp : Z;
  a_error_count : Z;
  a_x : float; a_y : float; a_z : float;
  a_range_m_s2 : float;
  a_scaling : float;
  a_x_raw : Z; a_y_raw : Z; a_z_raw : Z
}.

Record mag_report := {
  m_timestamp : Z;
  m_x : float; m_y : float; m_z : float;
  m_range_ga : float;
  m_scaling : float;
  m_x_raw : Z; m_y_raw : Z; m_z_raw : Z
}.

(** ** Sample buffer

    Modelled from the spec: the [RingBuffer] class of
    [drivers/device/ringbuffer.h] is not part of the sources.  The spec
    gives it a fixed capacity, insertion that overwrites the oldest entry
    when full, FIFO consumption and a flush that drops every buffered
    sample. *)
Record RingBuffer (T : Type) := {
  rb_capacity : nat;
  rb_items : list T
}.
Arguments rb_capacity {T} _.
Arguments rb_items {T} _.

Definition rb_new {T} (capacity : nat) : RingBuffer T :=
  {| rb_capacity := capacity; rb_items := [] |}.

(** [force]: append, dropping the oldest entries that no longer fit. *)
Definition rb_force {T} (x : T) (b : RingBuffer T) : RingBuffer T :=
  let l := rb_items b ++ [x] in
  {| rb_capacity := rb_capacity b;
     rb_items := skipn (length l - rb_capacity b) l |}.

(** [get]: the oldest entry, if any, and the buffer without it. *)
Definition rb_get {T} (b : RingBuffer T) : option T * RingBuffer T :=
  match rb_items b with
  | [] => (None, b)
  | x :: l => (Some x, {| rb_capacity := rb_capacity b; rb_items := l |})
  end.

Definition rb_flush {T} (b : RingBuffer T) : RingBuffer T :=
  {| rb_capacity := rb_capacity b; rb_items := [] |}.

(** ** Hardware and library interfaces

    The SPI transport, the data-ready GPIO line and the high resolution
    timer are external to the driver.  [transfer send w] exchanges the
    bytes [send] with the device and returns the bytes clocked in; nothing
    is assumed about what the device answers. *)
Inductive gpio_pin := GPIO_EXTI_ACCEL_DRDY.

Class Platform (W : Type) := {
  transfer : list Z -> W -> list Z * W;
  stm32_gpioread : gpio_pin -> W -> bool * W;
  hrt_absolute_time : W -> Z * W
}.

(** The arithmetic of the second order low-pass filter
    ([mathlib/math/filter/LowPassFilter2p.hpp]) is external as well:
    [lpf_new] and [lpf_configure] compute the coefficients for a sample
    rate and a cutoff, [lpf_apply] filters one sample. *)
Class FilterCore (F : Type) := {
  lpf_new : float -> float -> F;
  lpf_configure : float -> float -> F -> F;
  lpf_apply : float -> F -> float * F
}.

(** Modelled from the spec: the [LowPassFilter2p] object is not part of
    the sources.  The spec's command surface reads back the cutoff that was
    set, so the object records the cutoff it was last configured with next
    to the filter core. *)
Record LowPassFilter2p (F : Type) := {
  lp_cutoff_freq : float;
  lp_core : F
}.
Arguments lp_cutoff_freq {F} _.
Arguments lp_core {F} _.

Definition LowPassFilter2p_new {F} `{FilterCore F} (sample_freq cutoff_freq : float)
  : LowPassFilter2p F :=
  {| lp_cutoff_freq := cutoff_freq; lp_core := lpf_new sample_freq cutoff_freq |}.

Definition set_cutoff_frequency {F} `{FilterCore F} (sample_freq cutoff_freq : float)
  (f : LowPassFilter2p F) : LowPassFilter2p F :=
  {| lp_cutoff_freq := cutoff_freq;
     lp_core := lpf_configure sample_freq cutoff_freq (lp_core f) |}.

Definition get_cutoff_freq {F} (f : LowPassFilter2p F) : float := lp_cutoff_freq f.

Definition apply {F} `{FilterCore F} (sample : float) (f : LowPassFilter2p F)
  : float * LowPassFilter2p F :=
  (fst (lpf_apply sample (lp_core f)),
   {| lp_cutoff_freq := lp_cutoff_freq f; lp_core := snd (lpf_apply sample (lp_core f)) |}).

(** Calls into the scheduler, the poll layer and the publish/subscribe
    layer are recorded in the order in which they are made. *)
Inductive hrt_call := accel_call | mag_call.

Inductive Event :=
| hrt_call_delay (c : hrt_call) (delay : Z)
| poll_notify
| orb_publish_accel (r : accel_report)
| orb_publish_mag (r : mag_report).

(** Performance counters of the driver; [perf_count] and [perf_end] add
    one event to a counter. *)
Inductive perf_counter_t :=
| accel_sample_perf | mag_sample_perf | reg1_resets | reg7_resets
| extreme_values | accel_reschedules.

Definition perf_counter_eqb (a b : perf_counter_t) : bool :=
  match a, b with
  | accel_sample_perf, accel_sample_perf | mag_sample_perf, mag_sample_perf
  | reg1_resets, reg1_resets | reg7_resets, reg7_resets
  | extreme_values, extreme_values | accel_reschedules, accel_reschedules => true
  | _, _ => false
  end.

(** ** The driver object

    The members of [class LSM303D] that the modelled methods read or
    write, under their own names.  [_mag_topic] is the member of the
    [LSM303D_mag] helper object, [_pub_blocked] the one inherited from
    [CDev]; [_perf] holds the event counts of the six performance
    counters. *)
Record LSM303D (F : Type) := {
  _call_accel_interval : Z;
  _call_mag_interval : Z;
  _accel_reports : RingBuffer accel_report;
  _mag_reports : RingBuffer mag_report;
  _accel_scale : accel_scale;
  _accel_range_m_s2 : Z;
  _accel_range_scale : float;
  _accel_samplerate : Z;
  _accel_onchip_filter_bandwith : Z;
  _mag_scale : mag_scale;
  _mag_range_ga : Z;
  _mag_range_scale : float;
  _mag_samplerate : Z;
  _accel_topic : Z;
  _mag_topic : Z;
  _pub_blocked : bool;
  _accel_read : Z;
  _mag_read : Z;
  _perf : perf_counter_t -> Z;
  _accel_filter_x : LowPassFilter2p F;
  _accel_filter_y : LowPassFilter2p F;
  _accel_filter_z : LowPassFilter2p F;
  _reg1_expected : Z;
  _reg7_expected : Z
}.
Arguments _call_accel_interval {F} _.
Arguments _call_mag_interval {F} _.
Arguments _accel_reports {F} _.
Arguments _mag_reports {F} _.
Arguments _accel_scale {F} _.
Arguments _accel_range_m_s2 {F} _.
Arguments _accel_range_scale {F} _.
Arguments _accel_samplerate {F} _.
Arguments _accel_onchip_filter_bandwith {F} _.
Arguments _mag_scale {F} _.
Arguments _mag_range_ga {F} _.
Arguments _mag_range_scale {F} _.
Arguments _mag_samplerate {F} _.
Arguments _accel_topic {F} _.
Arguments _mag_topic {F} _.
Arguments _pub_blocked {F} _.
Arguments _accel_read {F} _.
Arguments _mag_read {F} _.
Arguments _perf {F} _.
Arguments _accel_filter_x {F} _.
Arguments _accel_filter_y {F} _.
Arguments _accel_filter_z {F} _.
Arguments _reg1_expected {F} _.
Arguments _reg7_expected {F} _.

(** Assignment to one member. *)
Definition set_call_accel_interval {F} (v : Z) (d : LSM303D F) : LSM303D F :=
  {| _call_accel_interval := v; _call_mag_interval := _call_mag_interval d;
     _accel_reports := _accel_reports d; _mag_reports := _mag_reports d;
     _accel_scale := _accel_scale d; _accel_range_m_s2 := _accel_range_m_s2 d;
     _accel_range_scale := _accel_range_scale d; _accel_samplerate := _accel_samplerate d;
     _accel_onchip_filter_bandwith := _accel_onchip_filter_bandwith d;
     _mag_scale := _mag_scale d; _mag_range_ga := _mag_range_ga d;
     _mag_range_scale := _mag_range_scale d; _mag_samplerate := _mag_samplerate d;
     _accel_topic := _accel_topic d; _mag_topic := _mag_topic d;
     _pub_blocked := _pub_blocked d; _accel_read := _accel_read d;
     _mag_read := _mag_read d; _perf := _perf d; _accel_filter_x := _accel_filter_x d;
     _accel_filter_y := _accel_filter_y d; _accel_filter_z := _accel_filter_z d;
     _reg1_expected := _reg1_expected d; _reg7_expected := _reg7_expected d |}.
Definition set_call_mag_interval {F} (v : Z) (d : LSM303D F) : LSM303D F :=
  {| _call_accel_interval := _call_accel_interval d; _call_mag_interval := v;
     _accel_reports := _accel_reports d; _mag_reports := _mag_reports d;
     _accel_scale := _accel_scale d; _accel_range_m_s2 := _accel_range_m_s2 d;
     _accel_range_scale := _accel_range_scale d; _accel_samplerate := _accel_samplerate d;
     _accel_onchip_filter_bandwith := _accel_onchip_filter_bandwith d;
     _mag_scale := _mag_scale d; _mag_range_ga := _mag_range_ga d;
     _mag_range_scale := _mag_range_scale d; _mag_samplerate := _mag_samplerate d;
     _accel_topic := _accel_topic d; _mag_topic := _mag_topic d;
     _pub_blocked := _pub_blocked d; _accel_read := _accel_read d;
     _mag_read := _mag_read d; _perf := _perf d; _accel_filter_x := _accel_filter_x d;
     _accel_filter_y := _accel_filter_y d; _accel_filter_z := _accel_filter_z d;
     _reg1_expected := _reg1_expected d; _reg7_expected := _reg7_expected d |}.
Definition set_accel_reports {F} (v : RingBuffer accel_report) (d : LSM303D F) : LSM303D F :=
  {| _call_accel_interval := _call_accel_interval d;
     _call_mag_interval := _call_mag_interval d; _accel_reports := v;
     _mag_reports := _mag_reports d; _accel_scale := _accel_scale d;
     _accel_range_m_s2 := _accel_range_m_s2 d; _accel_range_scale := _accel_range_scale d;
     _accel_samplerate := _accel_samplerate d;
     _accel_onchip_filter_bandwith := _accel_onchip_filter_bandwith d;
     _mag_scale := _mag_scale d; _mag_range_ga := _mag_range_ga d;
     _mag_range_scale := _mag_range_scale d; _mag_samplerate := _mag_samplerate d;
     _accel_topic := _accel_topic d; _mag_topic := _mag_topic d;
     _pub_blocked := _pub_blocked d; _accel_read := _accel_read d;
     _mag_read := _mag_read d; _perf := _perf d; _accel_filter_x := _accel_filter_x d;
     _accel_filter_y := _accel_filter_y d; _accel_filter_z := _accel_filter_z d;
     _reg1_expected := _reg1_expected d; _reg7_expected := _reg7_expected d |}.
Definition set_mag_reports {F} (v : RingBuffer mag_report) (d : LSM303D F) : LSM303D F :=
  {| _call_accel_interval := _call_accel_interval d;
     _call_mag_interval := _call_mag_interval d; _accel_reports := _accel_reports d;
     _mag_reports := v; _accel_scale := _accel_scale d;
     _accel_range_m_s2 := _accel_range_m_s2 d; _accel_range_scale := _accel_range_scale d;
     _accel_samplerate := _accel_samplerate d;
     _accel_onchip_filter_bandwith := _accel_onchip_filter_bandwith d;
     _mag_scale := _mag_scale d; _mag_range_ga := _mag_range_ga d;
     _mag_range_scale := _mag_range_scale d; _mag_samplerate := _mag_samplerate d;
     _accel_topic := _accel_topic d; _mag_topic := _mag_topic d;
     _pub_blocked := _pub_blocked d; _accel_read := _accel_read d;
     _mag_read := _mag_read d; _perf := _perf d; _accel_filter_x := _accel_filter_x d;
     _accel_filter_y := _accel_filter_y d; _accel_filter_z := _accel_filter_z d;
     _reg1_expected := _reg1_expected d; _reg7_expected := _reg7_expected d |}.
Definition set_accel_scale {F} (v : accel_scale) (d : LSM303D F) : LSM303D F :=
  {| _call_accel_interval := _call_accel_interval d;
     _call_mag_interval := _call_mag_interval d; _accel_reports := _accel_reports d;
     _mag_reports := _mag_reports d; _accel_scale := v;
     _accel_range_m_s2 := _accel_range_m_s2 d; _accel_range_scale := _accel_range_scale d;
     _accel_samplerate := _accel_samplerate d;
     _accel_onchip_filter_bandwith := _accel_onchip_filter_bandwith d;
     _mag_scale := _mag_scale d; _mag_range_ga := _mag_range_ga d;
     _mag_range_scale := _mag_range_scale d; _mag_samplerate := _mag_samplerate d;
     _accel_topic := _accel_topic d; _mag_topic := _mag_topic d;
     _pub_blocked := _pub_blocked d; _accel_read := _accel_read d;
     _mag_read := _mag_read d; _perf := _perf d; _accel_filter_x := _accel_filter_x d;
     _accel_filter_y := _accel_filter_y d; _accel_filter_z := _accel_filter_z d;
     _reg1_expected := _reg1_expected d; _reg7_expected := _reg7_expected d |}.
Definition set_accel_range_m_s2 {F} (v : Z) (d : LSM303D F) : LSM303D F :=
  {| _call_accel_interval := _call_accel_interval d;
     _call_mag_interval := _call_mag_interval d; _accel_reports := _accel_reports d;
     _mag_reports := _mag_reports d; _accel_scale := _accel_scale d;
     _accel_range_m_s2 := v; _accel_range_scale := _accel_range_scale d;
     _accel_samplerate := _accel_samplerate d;
     _accel_onchip_filter_bandwith := _accel_onchip_filter_bandwith d;
     _mag_scale := _mag_scale d; _mag_range_ga := _mag_range_ga d;
     _mag_range_scale := _mag_range_scale d; _mag_samplerate := _mag_samplerate d;
     _accel_topic := _accel_topic d; _mag_topic := _mag_topic d;
     _pub_blocked := _pub_blocked d; _accel_read := _accel_read d;
     _mag_read := _mag_read d; _perf := _perf d; _accel_filter_x := _accel_filter_x d;
     _accel_filter_y := _accel_filter_y d; _accel_filter_z := _accel_filter_z d;
     _reg1_expected := _reg1_expected d; _reg7_expected := _reg7_expected d |}.
Definition set_accel_range_scale {F} (v : float) (d : LSM303D F) : LSM303D F :=
  {| _call_accel_interval := _call_accel_interval d;
     _call_mag_interval := _call_mag_interval d; _accel_reports := _accel_reports d;
     _mag_reports := _mag_reports d; _accel_scale := _accel_scale d;
     _accel_range_m_s2 := _accel_range_m_s2 d; _accel_range_scale := v;
     _accel_samplerate := _accel_samplerate d;
     _accel_onchip_filter_bandwith := _accel_onchip_filter_bandwith d;
     _mag_scale := _mag_scale d; _mag_range_ga := _mag_range_ga d;
     _mag_range_scale := _mag_range_scale d; _mag_samplerate := _mag_samplerate d;
     _accel_topic := _accel_topic d; _mag_topic := _mag_topic d;
     _pub_blocked := _pub_blocked d; _accel_read := _accel_read d;
     _mag_read := _mag_read d; _perf := _perf d; _accel_filter_x := _accel_filter_x d;
     _accel_filter_y := _accel_filter_y d; _accel_filter_z := _accel_filter_z d;
     _reg1_expected := _reg1_expected d; _reg7_expected := _reg7_expected d |}.
Definition set_accel_samplerate {F} (v : Z) (d : LSM303D F) : LSM303D F :=
  {| _call_accel_interval := _call_accel_interval d;
     _call_mag_interval := _call_mag_interval d; _accel_reports := _accel_reports d;
     _mag_reports := _mag_reports d; _accel_scale := _accel_scale d;
     _accel_range_m_s2 := _accel_range_m_s2 d; _accel_range_scale := _accel_range_scale d;
     _accel_samplerate := v;
     _accel_onchip_filter_bandwith := _accel_onchip_filter_bandwith d;
     _mag_scale := _mag_scale d; _mag_range_ga := _mag_range_ga d;
     _mag_range_scale := _mag_range_scale d; _mag_samplerate := _mag_samplerate d;
     _accel_topic := _accel_topic d; _mag_topic := _mag_topic d;
     _pub_blocked := _pub_blocked d; _accel_read := _accel_read d;
     _mag_read := _mag_read d; _perf := _perf d; _accel_filter_x := _accel_filter_x d;
     _accel_filter_y := _accel_filter_y d; _accel_filter_z := _accel_filter_z d;
     _reg1_expected := _reg1_expected d; _reg7_expected := _reg7_expected d |}.
Definition set_accel_onchip_filter_bandwith {F} (v : Z) (d : LSM303D F) : LSM303D F :=
  {| _call_accel_interval := _call_accel_interval d;
     _call_mag_interval := _call_mag_interval d; _accel_reports := _accel_reports d;
     _mag_reports := _mag_reports d; _accel_scale := _accel_scale d;
     _accel_range_m_s2 := _accel_range_m_s2 d; _accel_range_scale := _accel_range_scale d;
     _accel_samplerate := _accel_samplerate d; _accel_onchip_filter_bandwith := v;
     _mag_scale := _mag_scale d; _mag_range_ga := _mag_range_ga d;
     _mag_range_scale := _mag_range_scale d; _mag_samplerate := _mag_samplerate d;
     _accel_topic := _accel_topic d; _mag_topic := _mag_topic d;
     _pub_blocked := _pub_blocked d; _accel_read := _accel_read d;
     _mag_read := _mag_read d; _perf := _perf d; _accel_filter_x := _accel_filter_x d;
     _accel_filter_y := _accel_filter_y d; _accel_filter_z := _accel_filter_z d;
     _reg1_expected := _reg1_expected d; _reg7_expected := _reg7_expected d |}.
Definition set_mag_scale {F} (v : mag_scale) (d : LSM303D F) : LSM303D F :=
  {| _call_accel_interval := _call_accel_interval d;
     _call_mag_interval := _call_mag_interval d; _accel_reports := _accel_reports d;
     _mag_reports := _mag_reports d; _accel_scale := _accel_scale d;
     _accel_range_m_s2 := _accel_range_m_s2 d; _accel_range_scale := _accel_range_scale d;
     _accel_samplerate := _accel_samplerate d;
     _accel_onchip_filter_bandwith := _accel_onchip_filter_bandwith d; _mag_scale := v;
     _mag_range_ga := _mag_range_ga d; _mag_range_scale := _mag_range_scale d;
     _mag_samplerate := _mag_samplerate d; _accel_topic := _accel_topic d;
     _mag_topic := _mag_topic d; _pub_blocked := _pub_blocked d;
     _accel_read := _accel_read d; _mag_read := _mag_read d; _perf := _perf d;
     _accel_filter_x := _accel_filter_x d; _accel_filter_y := _accel_filter_y d;
     _accel_filter_z := _accel_filter_z d; _reg1_expected := _reg1_expected d;
     _reg7_expected := _reg7_expected d |}.
Definition set_mag_range_ga {F} (v : Z) (d : LSM303D F) : LSM303D F :=
  {| _call_accel_interval := _call_accel_interval d;
     _call_mag_interval := _call_mag_interval d; _accel_reports := _accel_reports d;
     _mag_reports := _mag_reports d; _accel_scale := _accel_scale d;
     _accel_range_m_s2 := _accel_range_m_s2 d; _accel_range_scale := _accel_range_scale d;
     _accel_samplerate := _accel_samplerate d;
     _accel_onchip_filter_bandwith := _accel_onchip_filter_bandwith d;
     _mag_scale := _mag_scale d; _mag_range_ga := v;
     _mag_range_scale := _mag_range_scale d; _mag_samplerate := _mag_samplerate d;
     _accel_topic := _accel_topic d; _mag_topic := _mag_topic d;
     _pub_blocked := _pub_blocked d; _accel_read := _accel_read d;
     _mag_read := _mag_read d; _perf := _perf d; _accel_filter_x := _accel_filter_x d;
     _accel_filter_y := _accel_filter_y d; _accel_filter_z := _accel_filter_z d;
     _reg1_expected := _reg1_expected d; _reg7_expected := _reg7_expected d |}.
Definition set_mag_range_scale {F} (v : float) (d : LSM303D F) : LSM303D F :=
  {| _call_accel_interval := _call_accel_interval d;
     _call_mag_interval := _call_mag_interval d; _accel_reports := _accel_reports d;
     _mag_reports := _mag_reports d; _accel_scale := _accel_scale d;
     _accel_range_m_s2 := _accel_range_m_s2 d; _accel_range_scale := _accel_range_scale d;
     _accel_samplerate := _accel_samplerate d;
     _accel_onchip_filter_bandwith := _accel_onchip_filter_bandwith d;
     _mag_scale := _mag_scale d; _mag_range_ga := _mag_range_ga d; _mag_range_scale := v;
     _mag_samplerate := _mag_samplerate d; _accel_topic := _accel_topic d;
     _mag_topic := _mag_topic d; _pub_blocked := _pub_blocked d;
     _accel_read := _accel_read d; _mag_read := _mag_read d; _perf := _perf d;
     _accel_filter_x := _accel_filter_x d; _accel_filter_y := _accel_filter_y d;
     _accel_filter_z := _accel_filter_z d; _reg1_expected := _reg1_expected d;
     _reg7_expected := _reg7_expected d |}.
Definition set_mag_samplerate {F} (v : Z) (d : LSM303D F) : LSM303D F :=
  {| _call_accel_interval := _call_accel_interval d;
     _call_mag_interval := _call_mag_interval d; _accel_reports := _accel_reports d;
     _mag_reports := _mag_reports d; _accel_scale := _accel_scale d;
     _accel_range_m_s2 := _accel_range_m_s2 d; _accel_range_scale := _accel_range_scale d;
     _accel_samplerate := _accel_samplerate d;
     _accel_onchip_filter_bandwith := _accel_onchip_filter_bandwith d;
     _mag_scale := _mag_scale d; _mag_range_ga := _mag_range_ga d;
     _mag_range_scale := _mag_range_scale d; _mag_samplerate := v;
     _accel_topic := _accel_topic d; _mag_topic := _mag_topic d;
     _pub_blocked := _pub_blocked d; _accel_read := _accel_read d;
     _mag_read := _mag_read d; _perf := _perf d; _accel_filter_x := _accel_filter_x d;
     _accel_filter_y := _accel_filter_y d; _accel_filter_z := _accel_filter_z d;
     _reg1_expected := _reg1_expected d; _reg7_expected := _reg7_expected d |}.
Definition set_accel_read {F} (v : Z) (d : LSM303D F) : LSM303D F :=
  {| _call_accel_interval := _call_accel_interval d;
     _call_mag_interval := _call_mag_interval d; _accel_reports := _accel_reports d;
     _mag_reports := _mag_reports d; _accel_scale := _accel_scale d;
     _accel_range_m_s2 := _accel_range_m_s2 d; _accel_range_scale := _accel_range_scale d;
     _accel_samplerate := _accel_samplerate d;
     _accel_onchip_filter_bandwith := _accel_onchip_filter_bandwith d;
     _mag_scale := _mag_scale d; _mag_range_ga := _mag_range_ga d;
     _mag_range_scale := _mag_range_scale d; _mag_samplerate := _mag_samplerate d;
     _accel_topic := _accel_topic d; _mag_topic := _mag_topic d;
     _pub_blocked := _pub_blocked d; _accel_read := v; _mag_read := _mag_read d;
     _perf := _perf d; _accel_filter_x := _accel_filter_x d;
     _accel_filter_y := _accel_filter_y d; _accel_filter_z := _accel_filter_z d;
     _reg1_expected := _reg1_expected d; _reg7_expected := _reg7_expected d |}.
Definition set_mag_read {F} (v : Z) (d : LSM303D F) : LSM303D F :=
  {| _call_accel_interval := _call_accel_interval d;
     _call_mag_interval := _call_mag_interval d; _accel_reports := _accel_reports d;
     _mag_reports := _mag_reports d; _accel_scale := _accel_scale d;
     _accel_range_m_s2 := _accel_range_m_s2 d; _accel_range_scale := _accel_range_scale d;
     _accel_samplerate := _accel_samplerate d;
     _accel_onchip_filter_bandwith := _accel_onchip_filter_bandwith d;
     _mag_scale := _mag_scale d; _mag_range_ga := _mag_range_ga d;
     _mag_range_scale := _mag_range_scale d; _mag_samplerate := _mag_samplerate d;
     _accel_topic := _accel_topic d; _mag_topic := _mag_topic d;
     _pub_blocked := _pub_blocked d; _accel_read := _accel_read d; _mag_read := v;
     _perf := _perf d; _accel_filter_x := _accel_filter_x d;
     _accel_filter_y := _accel_filter_y d; _accel_filter_z := _accel_filter_z d;
     _reg1_expected := _reg1_expected d; _reg7_expected := _reg7_expected d |}.
Definition set_perf {F} (v : perf_counter_t -> Z) (d : LSM303D F) : LSM303D F :=
  {| _call_accel_interval := _call_accel_interval d;
     _call_mag_interval := _call_mag_interval d; _accel_reports := _accel_reports d;
     _mag_reports := _mag_reports d; _accel_scale := _accel_scale d;
     _accel_range_m_s2 := _accel_range_m_s2 d; _accel_range_scale := _accel_range_scale d;
     _accel_samplerate := _accel_samplerate d;
     _accel_onchip_filter_bandwith := _accel_onchip_filter_bandwith d;
     _mag_scale := _mag_scale d; _mag_range_ga := _mag_range_ga d;
     _mag_range_scale := _mag_range_scale d; _mag_samplerate := _mag_samplerate d;
     _accel_topic := _accel_topic d; _mag_topic := _mag_topic d;
     _pub_blocked := _pub_blocked d; _accel_read := _accel_read d;
     _mag_read := _mag_read d; _perf := v; _accel_filter_x := _accel_filter_x d;
     _accel_filter_y := _accel_filter_y d; _accel_filter_z := _accel_filter_z d;
     _reg1_expected := _reg1_expected d; _reg7_expected := _reg7_expected d |}.
Definition set_accel_filter_x {F} (v : LowPassFilter2p F) (d : LSM303D F) : LSM303D F :=
  {| _call_accel_interval := _call_accel_interval d;
     _call_mag_interval := _call_mag_interval d; _accel_reports := _accel_reports d;
     _mag_reports := _mag_reports d; _accel_scale := _accel_scale d;
     _accel_range_m_s2 := _accel_range_m_s2 d; _accel_range_scale := _accel_range_scale d;
     _accel_samplerate := _accel_samplerate d;
     _accel_onchip_filter_bandwith := _accel_onchip_filter_bandwith d;
     _mag_scale := _mag_scale d; _mag_range_ga := _mag_range_ga d;
     _mag_range_scale := _mag_range_scale d; _mag_samplerate := _mag_samplerate d;
     _accel_topic := _accel_topic d; _mag_topic := _mag_topic d;
     _pub_blocked := _pub_blocked d; _accel_read := _accel_read d;
     _mag_read := _mag_read d; _perf := _perf d; _accel_filter_x := v;
     _accel_filter_y := _accel_filter_y d; _accel_filter_z := _accel_filter_z d;
     _reg1_expected := _reg1_expected d; _reg7_expected := _reg7_expected d |}.
Definition set_accel_filter_y {F} (v : LowPassFilter2p F) (d : LSM303D F) : LSM303D F :=
  {| _call_accel_interval := _call_accel_interval d;
     _call_mag_interval := _call_mag_interval d; _accel_reports := _accel_reports d;
     _mag_reports := _mag_reports d; _accel_scale := _accel_scale d;
     _accel_range_m_s2 := _accel_range_m_s2 d; _accel_range_scale := _accel_range_scale d;
     _accel_samplerate := _accel_samplerate d;
     _accel_onchip_filter_bandwith := _accel_onchip_filter_bandwith d;
     _mag_scale := _mag_scale d; _mag_range_ga := _mag_range_ga d;
     _mag_range_scale := _mag_range_scale d; _mag_samplerate := _mag_samplerate d;
     _accel_topic := _accel_topic d; _mag_topic := _mag_topic d;
     _pub_blocked := _pub_blocked d; _accel_read := _accel_read d;
     _mag_read := _mag_read d; _perf := _perf d; _accel_filter_x := _accel_filter_x d;
     _accel_filter_y := v; _accel_filter_z := _accel_filter_z d;
     _reg1_expected := _reg1_expected d; _reg7_expected := _reg7_expected d |}.
Definition set_accel_filter_z {F} (v : LowPassFilter2p F) (d : LSM303D F) : LSM303D F :=
  {| _call_accel_interval := _call_accel_interval d;
     _call_mag_interval := _call_mag_interval d; _accel_reports := _accel_reports d;
     _mag_reports := _mag_reports d; _accel_scale := _accel_scale d;
     _accel_range_m_s2 := _accel_range_m_s2 d; _accel_range_scale := _accel_range_scale d;
     _accel_samplerate := _accel_samplerate d;
     _accel_onchip_filter_bandwith := _accel_onchip_filter_bandwith d;
     _mag_scale := _mag_scale d; _mag_range_ga := _mag_range_ga d;
     _mag_range_scale := _mag_range_scale d; _mag_samplerate := _mag_samplerate d;
     _accel_topic := _accel_topic d; _mag_topic := _mag_topic d;
     _pub_blocked := _pub_blocked d; _accel_read := _accel_read d;
     _mag_read := _mag_read d; _perf := _perf d; _accel_filter_x := _accel_filter_x d;
     _accel_filter_y := _accel_filter_y d; _accel_filter_z := v;
     _reg1_expected := _reg1_expected d; _reg7_expected := _reg7_expected d |}.
Definition set_reg1_expected {F} (v : Z) (d : LSM303D F) : LSM303D F :=
  {| _call_accel_interval := _call_accel_interval d;
     _call_mag_interval := _call_mag_interval d; _accel_reports := _accel_reports d;
     _mag_reports := _mag_reports d; _accel_scale := _accel_scale d;
     _accel_range_m_s2 := _accel_range_m_s2 d; _accel_range_scale := _accel_range_scale d;
     _accel_samplerate := _accel_samplerate d;
     _accel_onchip_filter_bandwith := _accel_onchip_filter_bandwith d;
     _mag_scale := _mag_scale d; _mag_range_ga := _mag_range_ga d;
     _mag_range_scale := _mag_range_scale d; _mag_samplerate := _mag_samplerate d;
     _accel_topic := _accel_topic d; _mag_topic := _mag_topic d;
     _pub_blocked := _pub_blocked d; _accel_read := _accel_read d;
     _mag_read := _mag_read d; _perf := _perf d; _accel_filter_x := _accel_filter_x d;
     _accel_filter_y := _accel_filter_y d; _accel_filter_z := _accel_filter_z d;
     _reg1_expected := v; _reg7_expected := _reg7_expected d |}.
Definition set_reg7_expected {F} (v : Z) (d : LSM303D F) : LSM303D F :=
  {| _call_accel_interval := _call_accel_interval d;
     _call_mag_interval := _call_mag_interval d; _accel_reports := _accel_reports d;
     _mag_reports := _mag_reports d; _accel_scale := _accel_scale d;
     _accel_range_m_s2 := _accel_range_m_s2 d; _accel_range_scale := _accel_range_scale d;
     _accel_samplerate := _accel_samplerate d;
     _accel_onchip_filter_bandwith := _accel_onchip_filter_bandwith d;
     _mag_scale := _mag_scale d; _mag_range_ga := _mag_range_ga d;
     _mag_range_scale := _mag_range_scale d; _mag_samplerate := _mag_samplerate d;
     _accel_topic := _accel_topic d; _mag_topic := _mag_topic d;
     _pub_blocked := _pub_blocked d; _accel_read := _accel_read d;
     _mag_read := _mag_read d; _perf := _perf d; _accel_filter_x := _accel_filter_x d;
     _accel_filter_y := _accel_filter_y d; _accel_filter_z := _accel_filter_z d;
     _reg1_expected := _reg1_expected d; _reg7_expected := v |}.

(** ** State and the method monad

    A method runs on the driver object, the hardware and the log of
    outgoing calls.  [bind] is written with projections, so that the
    members of the final state reduce without a case analysis on what the
    hardware returned. *)
Record Sys (W F : Type) := {
  drv : LSM303D F;
  hw : W;
  events : list Event
}.
Arguments drv {W F} _.
Arguments hw {W F} _.
Arguments events {W F} _.

Definition M (W F A : Type) : Type := Sys W F -> A * Sys W F.

Definition ret {W F A} (a : A) : M W F A := fun s => (a, s).

Definition bind {W F A B} (m : M W F A) (k : A -> M W F B) : M W F B :=
  fun s => k (fst (m s)) (snd (m s)).

Declare Scope method_scope.
Delimit Scope method_scope with method.
Notation "x <- c1 ;; c2" := (bind c1 (fun x => c2))
  (at level 61, c1 at next level, right associativity) : method_scope.
Notation "c1 ;; c2" := (bind c1 (fun _ => c2))
  (at level 61, right associativity) : method_scope.
Open Scope method_scope.

(** Run a method for its final state / its result. *)
Definition exec {W F A} (m : M W F A) (s : Sys W F) : Sys W F := snd (m s).
Definition eval {W F A} (m : M W F A) (s : Sys W F) : A := fst (m s).

(** Read a member, assign to the object, call the hardware, log a call. *)
Definition member {W F A} (f : LSM303D F -> A) : M W F A :=
  fun s => (f (drv s), s).

Definition assign {W F} (upd : LSM303D F -> LSM303D F) : M W F unit :=
  fun s => (tt, {| drv := upd (drv s); hw := hw s; events := events s |}).

Definition call {W F A} (f : W -> A * W) : M W F A :=
  fun s => (fst (f (hw s)),
            {| drv := drv s; hw := snd (f (hw s)); events := events s |}).

Definition emit {W F} (e : Event) : M W F unit :=
  fun s => (tt, {| drv := drv s; hw := hw s; events := events s ++ [e] |}).

Definition perf_count {W F} (c : perf_counter_t) : M W F unit :=
  assign (fun d =>
    set_perf (fun c' => if perf_counter_eqb c' c then _perf d c' + 1 else _perf d c') d).

(** [perf_begin] only takes a time stamp; [perf_end] records one event. *)
Definition perf_begin {W F} (c : perf_counter_t) : M W F unit := ret tt.
Definition perf_end {W F} (c : perf_counter_t) : M W F unit := perf_count c.

(** ** Float constants of the source *)

Definition f_1_0 : float := Float32.of_int 1.
Definition f_2_0 : float := Float32.of_int 2.
Definition f_4_0 : float := Float32.of_int 4.
Definition f_0_4 : float := Float32.lit 4 10.
Definition f_0_5 : float := Float32.lit 1 2.
Definition f_0_000001 : float := Float32.lit 1 1000000.

(** ** Self tests (pure functions of the object) *)

Definition accel_self_test {F} (d : LSM303D F) : Z :=
  let sc := _accel_scale d in
  if _accel_read d =? 0 then 1
  (* inspect accel offsets *)
  else if Float32.fabsf (ax_offset sc) <. f_0_000001 then 1
  else if (Float32.fabsf (ax_scale sc -. f_1_0) >. f_0_4)
          || (Float32.fabsf (ax_scale sc -. f_1_0) <. f_0_000001) then 1
  else if Float32.fabsf (ay_offset sc) <. f_0_000001 then 1
  else if (Float32.fabsf (ay_scale sc -. f_1_0) >. f_0_4)
          || (Float32.fabsf (ay_scale sc -. f_1_0) <. f_0_000001) then 1
  else if Float32.fabsf (az_offset sc) <. f_0_000001 then 1
  else if (Float32.fabsf (az_scale sc -. f_1_0) >. f_0_4)
          || (Float32.fabsf (az_scale sc -. f_1_0) <. f_0_000001) then 1
  else 0.

Definition mag_self_test {F} (d : LSM303D F) : Z :=
  let sc := _mag_scale d in
  if _mag_read d =? 0 then 1
  (* inspect mag offsets; the mag scale is not checked *)
  else if Float32.fabsf (mx_offset sc) <. f_0_000001 then 1
  else if Float32.fabsf (my_offset sc) <. f_0_000001 then 1
  else if Float32.fabsf (mz_offset sc) <. f_0_000001 then 1
  else 0.

(** ** Methods of the driver *)

Inductive ioctl_cmd :=
| SENSORIOCRESET
| ACCELIOCSSAMPLERATE (arg : Z)
| ACCELIOCGSAMPLERATE
| ACCELIOCSLOWPASS (arg : Z)
| ACCELIOCGLOWPASS
| ACCELIOCSSCALE (s : accel_scale)
| ACCELIOCSRANGE (arg : Z)
| ACCELIOCGRANGE
| ACCELIOCSELFTEST
| MAGIOCSSAMPLERATE (arg : Z)
| MAGIOCGSAMPLERATE
| MAGIOCSLOWPASS (arg : Z)
| MAGIOCGLOWPASS
| MAGIOCSSCALE (s : mag_scale)
| MAGIOCSRANGE (arg : Z)
| MAGIOCGRANGE
| MAGIOCSELFTEST
| MAGIOCGEXTERNAL.

(** What the build fixes for the driver: the sizes of the two report
    structures and the [ioctl] of the base class, which receives every
    command a device node does not handle itself. *)
Class Build (W : Type) := {
  sizeof_accel_report : Z;
  sizeof_mag_report : Z;
  SPI_ioctl : ioctl_cmd -> W -> Z * W
}.

Section Driver.

Context {W F : Type} {PW : Platform W} {FC : FilterCore F} {BW : Build W}.

(** *** Register access *)

Definition read_reg (reg : Z) : M W F Z :=
  let cmd0 := to_uint8 (Z.lor reg DIR_READ) in
  rx <- call (transfer [cmd0; 0]) ;;
  ret (to_uint8 (nth 1 rx 0)).

Definition write_reg (reg value : Z) : M W F unit :=
  let cmd0 := to_uint8 (Z.lor reg DIR_WRITE) in
  call (transfer [cmd0; to_uint8 value]) ;;
  ret tt.

Definition modify_reg (reg clearbits setbits : Z) : M W F unit :=
  val <- read_reg reg ;;
  let val := to_uint8 (Z.land val (Z.lnot clearbits)) in
  let val := to_uint8 (Z.lor val setbits) in
  write_reg reg val.

Definition disable_i2c : M W F unit :=
  a <- read_reg 0x02 ;;
  write_reg 0x02 (Z.lor 0x10 a) ;;
  a <- read_reg 0x02 ;;
  write_reg 0x02 (Z.land 0xF7 a) ;;
  a <- read_reg 0x15 ;;
  write_reg 0x15 (Z.lor 0x80 a) ;;
  a <- read_reg 0x02 ;;
  write_reg 0x02 (Z.land 0xE7 a).

(** *** Range, filter and rate setters

    Each branch of the source assigns the member and picks the bit
    pattern (and digit scale); the branch result [None] is the final
    [else] that returns the error before anything is written. *)

Definition accel_set_range (max_g : Z) : M W F Z :=
  let setbits := 0 in
  let clearbits := REG2_FULL_SCALE_BITS_A in
  let max_g := if max_g =? 0 then 16 else max_g in
  sel <- (if max_g <=? 2 then
            assign (set_accel_range_m_s2 (to_unsigned (Float32.to_int (Float32.of_int 2 *. LSM303D_ONE_G)))) ;;
            ret (Some (Z.lor setbits REG2_FULL_SCALE_2G_A, Float32.lit 61 1000000))
          else if max_g <=? 4 then
            assign (set_accel_range_m_s2 (to_unsigned (Float32.to_int (Float32.of_int 4 *. LSM303D_ONE_G)))) ;;
            ret (Some (Z.lor setbits REG2_FULL_SCALE_4G_A, Float32.lit 122 1000000))
          else if max_g <=? 6 then
            assign (set_accel_range_m_s2 (to_unsigned (Float32.to_int (Float32.of_int 6 *. LSM303D_ONE_G)))) ;;
            ret (Some (Z.lor setbits REG2_FULL_SCALE_6G_A, Float32.lit 183 1000000))
          else if max_g <=? 8 then
            assign (set_accel_range_m_s2 (to_unsigned (Float32.to_int (Float32.of_int 8 *. LSM303D_ONE_G)))) ;;
            ret (Some (Z.lor setbits REG2_FULL_SCALE_8G_A, Float32.lit 244 1000000))
          else if max_g <=? 16 then
            assign (set_accel_range_m_s2 (to_unsigned (Float32.to_int (Float32.of_int 16 *. LSM303D_ONE_G)))) ;;
            ret (Some (Z.lor setbits REG2_FULL_SCALE_16G_A, Float32.lit 732 1000000))
          else ret None) ;;
  match sel with
  | None => ret (- EINVAL)
  | Some (setbits, new_scale_g_digit) =>
      assign (set_accel_range_scale (new_scale_g_digit *. LSM303D_ONE_G)) ;;
      modify_reg ADDR_CTRL_REG2 clearbits setbits ;;
      ret OK
  end.

Definition mag_set_range (max_ga : Z) : M W F Z :=
  let setbits := 0 in
  let clearbits := REG6_FULL_SCALE_BITS_M in
  let max_ga := if max_ga =? 0 then 12 else max_ga in
  sel <- (if max_ga <=? 2 then
            assign (set_mag_range_ga 2) ;;
            ret (Some (Z.lor setbits REG6_FULL_SCALE_2GA_M, Float32.lit 80 1000000))
          else if max_ga <=? 4 then
            assign (set_mag_range_ga 4) ;;
            ret (Some (Z.lor setbits REG6_FULL_SCALE_4GA_M, Float32.lit 160 1000000))
          else if max_ga <=? 8 then
            assign (set_mag_range_ga 8) ;;
            ret (Some (Z.lor setbits REG6_FULL_SCALE_8GA_M, Float32.lit 320 1000000))
          else if max_ga <=? 12 then
            assign (set_mag_range_ga 12) ;;
            ret (Some (Z.lor setbits REG6_FULL_SCALE_12GA_M, Float32.lit 479 1000000))
          else ret None) ;;
  match sel with
  | None => ret (- EINVAL)
  | Some (setbits, new_scale_ga_digit) =>
      assign (set_mag_range_scale new_scale_ga_digit) ;;
      modify_reg ADDR_CTRL_REG6 clearbits setbits ;;
      ret OK
  end.

Definition accel_set_onchip_lowpass_filter_bandwidth (bandwidth : Z) : M W F Z :=
  let setbits := 0 in
  let clearbits := REG2_ANTIALIAS_FILTER_BW_BITS_A in
  let bandwidth := if bandwidth =? 0 then 773 else bandwidth in
  sel <- (if bandwidth <=? 50 then
            assign (set_accel_onchip_filter_bandwith 50) ;;
            ret (Some (Z.lor setbits REG2_AA_FILTER_BW_50HZ_A))
          else if bandwidth <=? 194 then
            assign (set_accel_onchip_filter_bandwith 194) ;;
            ret (Some (Z.lor setbits REG2_AA_FILTER_BW_194HZ_A))
          else if bandwidth <=? 362 then
            assign (set_accel_onchip_filter_bandwith 362) ;;
            ret (Some (Z.lor setbits REG2_AA_FILTER_BW_362HZ_A))
          else if bandwidth <=? 773 then
            assign (set_accel_onchip_filter_bandwith 773) ;;
            ret (Some (Z.lor setbits REG2_AA_FILTER_BW_773HZ_A))
          else ret None) ;;
  match sel with
  | None => ret (- EINVAL)
  | Some setbits =>
      modify_reg ADDR_CTRL_REG2 clearbits setbits ;;
      ret OK
  end.

Definition accel_set_driver_lowpass_filter (samplerate bandwidth : float) : M W F Z :=
  assign (fun d => set_accel_filter_x (set_cutoff_frequency samplerate bandwidth (_accel_filter_x d)) d) ;;
  assign (fun d => set_accel_filter_y (set_cutoff_frequency samplerate bandwidth (_accel_filter_y d)) d) ;;
  assign (fun d => set_accel_filter_z (set_cutoff_frequency samplerate bandwidth (_accel_filter_z d)) d) ;;
  ret OK.

Definition accel_set_samplerate (frequency : Z) : M W F Z :=
  let setbits := 0 in
  let clearbits := REG1_RATE_BITS_A in
  let frequency := if frequency =? 0 then 1600 else frequency in
  sel <- (if frequency <=? 100 then
            assign (set_accel_samplerate 100) ;;
            ret (Some (Z.lor setbits REG1_RATE_100HZ_A))
          else if frequency <=? 200 then
            assign (set_accel_samplerate 200) ;;
            ret (Some (Z.lor setbits REG1_RATE_200HZ_A))
          else if frequency <=? 400 then
            assign (set_accel_samplerate 400) ;;
            ret (Some (Z.lor setbits REG1_RATE_400HZ_A))
          else if frequency <=? 800 then
            assign (set_accel_samplerate 800) ;;
            ret (Some (Z.lor setbits REG1_RATE_800HZ_A))
          else if frequency <=? 1600 then
            assign (set_accel_samplerate 1600) ;;
            ret (Some (Z.lor setbits REG1_RATE_1600HZ_A))
          else ret None) ;;
  match sel with
  | None => ret (- EINVAL)
  | Some setbits =>
      modify_reg ADDR_CTRL_REG1 clearbits setbits ;;
      assign (fun d =>
        set_reg1_expected
          (to_uint8 (Z.lor (Z.land (_reg1_expected d) (Z.lnot clearbits)) setbits)) d) ;;
      ret OK
  end.

Definition mag_set_samplerate (frequency : Z) : M W F Z :=
  let setbits := 0 in
  let clearbits := REG5_RATE_BITS_M in
  let frequency := if frequency =? 0 then 100 else frequency in
  sel <- (if frequency <=? 25 then
            assign (set_mag_samplerate 25) ;;
            ret (Some (Z.lor setbits REG5_RATE_25HZ_M))
          else if frequency <=? 50 then
            assign (set_mag_samplerate 50) ;;
            ret (Some (Z.lor setbits REG5_RATE_50HZ_M))
          else if frequency <=? 100 then
            assign (set_mag_samplerate 100) ;;
            ret (Some (Z.lor setbits REG5_RATE_100HZ_M))
          else ret None) ;;
  match sel with
  | None => ret (- EINVAL)
  | Some setbits =>
      modify_reg ADDR_CTRL_REG5 clearbits setbits ;;
      ret OK
  end.

(** *** Reset *)

Definition reset : M W F unit :=
  (* ensure the chip doesn't interpret any other bus traffic as I2C *)
  disable_i2c ;;
  (* enable accel *)
  assign (set_reg1_expected
            (to_uint8 (Z.lor (Z.lor (Z.lor (Z.lor REG1_X_ENABLE_A REG1_Y_ENABLE_A)
                               REG1_Z_ENABLE_A) REG1_BDU_UPDATE) REG1_RATE_800HZ_A))) ;;
  r1 <- member _reg1_expected ;;
  write_reg ADDR_CTRL_REG1 r1 ;;
  (* enable mag *)
  assign (set_reg7_expected (to_uint8 REG7_CONT_MODE_M)) ;;
  r7 <- member _reg7_expected ;;
  write_reg ADDR_CTRL_REG7 r7 ;;
  write_reg ADDR_CTRL_REG5 REG5_RES_HIGH_M ;;
  write_reg ADDR_CTRL_REG3 0x04 ;;
  write_reg ADDR_CTRL_REG4 0x04 ;;
  accel_set_range LSM303D_ACCEL_DEFAULT_RANGE_G ;;
  accel_set_samplerate LSM303D_ACCEL_DEFAULT_RATE ;;
  accel_set_driver_lowpass_filter
    (Float32.of_int LSM303D_ACCEL_DEFAULT_RATE)
    (Float32.of_int LSM303D_ACCEL_DEFAULT_DRIVER_FILTER_FREQ) ;;
  accel_set_onchip_lowpass_filter_bandwidth LSM303D_ACCEL_DEFAULT_ONCHIP_FILTER_FREQ ;;
  mag_set_range LSM303D_MAG_DEFAULT_RANGE_GA ;;
  mag_set_samplerate LSM303D_MAG_DEFAULT_RATE ;;
  assign (set_accel_read 0) ;;
  assign (set_mag_read 0).

(** *** Measurement routines *)

Definition measure : M W F unit :=
  (* if the accel doesn't have any data ready then re-schedule
     for 100 microseconds later *)
  drdy <- call (stm32_gpioread GPIO_EXTI_ACCEL_DRDY) ;;
  if negb drdy then
    perf_count accel_reschedules ;;
    emit (hrt_call_delay accel_call 100)
  else
  r1 <- read_reg ADDR_CTRL_REG1 ;;
  expected <- member _reg1_expected ;;
  if negb (r1 =? expected) then
    perf_count reg1_resets ;;
    reset
  else
  perf_begin accel_sample_perf ;;
  (* fetch data from the sensor: cmd, status, x, y, z *)
  let cmd := to_uint8 (Z.lor (Z.lor ADDR_STATUS_A DIR_READ) ADDR_INCREMENT) in
  raw <- call (transfer [cmd; 0; 0; 0; 0; 0; 0; 0]) ;;
  let raw_x := to_int16 (nth 2 raw 0) (nth 3 raw 0) in
  let raw_y := to_int16 (nth 4 raw 0) (nth 5 raw 0) in
  let raw_z := to_int16 (nth 6 raw 0) (nth 7 raw 0) in
  timestamp <- call hrt_absolute_time ;;
  range_scale <- member _accel_range_scale ;;
  sc <- member _accel_scale ;;
  let x_in_new := ((Float32.of_int raw_x *. range_scale) -. ax_offset sc) *. ax_scale sc in
  let y_in_new := ((Float32.of_int raw_y *. range_scale) -. ay_offset sc) *. ay_scale sc in
  let z_in_new := ((Float32.of_int raw_z *. range_scale) -. az_offset sc) *. az_scale sc in
  fx <- member _accel_filter_x ;;
  assign (set_accel_filter_x (snd (apply x_in_new fx))) ;;
  fy <- member _accel_filter_y ;;
  assign (set_accel_filter_y (snd (apply y_in_new fy))) ;;
  fz <- member _accel_filter_z ;;
  assign (set_accel_filter_z (snd (apply z_in_new fz))) ;;
  range_m_s2 <- member _accel_range_m_s2 ;;
  let report :=
    {| a_timestamp := timestamp;
       a_error_count := 0;
       a_x := fst (apply x_in_new fx);
       a_y := fst (apply y_in_new fy);
       a_z := fst (apply z_in_new fz);
       a_range_m_s2 := Float32.of_int range_m_s2;
       a_scaling := range_scale;
       a_x_raw := raw_x; a_y_raw := raw_y; a_z_raw := raw_z |} in
  assign (fun d => set_accel_reports (rb_force report (_accel_reports d)) d) ;;
  (* notify anyone waiting for data *)
  emit poll_notify ;;
  topic <- member _accel_topic ;;
  blocked <- member _pub_blocked ;;
  (if (0 <? topic) && negb blocked then emit (orb_publish_accel report) else ret tt) ;;
  assign (fun d => set_accel_read (to_unsigned (_accel_read d + 1)) d) ;;
  perf_end accel_sample_perf.

Definition mag_measure : M W F unit :=
  r7 <- read_reg ADDR_CTRL_REG7 ;;
  expected <- member _reg7_expected ;;
  if negb (r7 =? expected) then
    perf_count reg7_resets ;;
    reset
  else
  perf_begin mag_sample_perf ;;
  (* fetch data from the sensor: cmd, status, x, y, z *)
  let cmd := to_uint8 (Z.lor (Z.lor ADDR_STATUS_M DIR_READ) ADDR_INCREMENT) in
  raw <- call (transfer [cmd; 0; 0; 0; 0; 0; 0; 0]) ;;
  let raw_x := to_int16 (nth 2 raw 0) (nth 3 raw 0) in
  let raw_y := to_int16 (nth 4 raw 0) (nth 5 raw 0) in
  let raw_z := to_int16 (nth 6 raw 0) (nth 7 raw 0) in
  timestamp <- call hrt_absolute_time ;;
  range_scale <- member _mag_range_scale ;;
  sc <- member _mag_scale ;;
  range_ga <- member _mag_range_ga ;;
  let report :=
    {| m_timestamp := timestamp;
       m_x := ((Float32.of_int raw_x *. range_scale) -. mx_offset sc) *. mx_scale sc;
       m_y := ((Float32.of_int raw_y *. range_scale) -. my_offset sc) *. my_scale sc;
       m_z := ((Float32.of_int raw_z *. range_scale) -. mz_offset sc) *. mz_scale sc;
       m_range_ga := Float32.of_int range_ga;
       m_scaling := range_scale;
       m_x_raw := raw_x; m_y_raw := raw_y; m_z_raw := raw_z |} in
  assign (fun d => set_mag_reports (rb_force report (_mag_reports d)) d) ;;
  (* notify anyone waiting for data *)
  emit poll_notify ;;
  topic <- member _mag_topic ;;
  blocked <- member _pub_blocked ;;
  (if (0 <? topic) && negb blocked then emit (orb_publish_mag report) else ret tt) ;;
  assign (fun d => set_mag_read (to_unsigned (_mag_read d + 1)) d) ;;
  perf_end mag_sample_perf.

(** *** Read paths

    A read returns the byte count (or the negated error code) and the
    reports copied into the caller's buffer, in order.  The loops run
    [count] times and copy a report whenever the buffer yields one. *)

Definition accel_reports_get : M W F (option accel_report) :=
  r <- member (fun d => fst (rb_get (_accel_reports d))) ;;
  assign (fun d => set_accel_reports (snd (rb_get (_accel_reports d))) d) ;;
  ret r.

Definition mag_reports_get : M W F (option mag_report) :=
  r <- member (fun d => fst (rb_get (_mag_reports d))) ;;
  assign (fun d => set_mag_reports (snd (rb_get (_mag_reports d))) d) ;;
  ret r.

Fixpoint read_loop (count : nat) (ret_ : Z) (out : list accel_report)
  : M W F (Z * list accel_report) :=
  match count with
  | O => ret (ret_, out)
  | S count' =>
      r <- accel_reports_get ;;
      match r with
      | Some arb => read_loop count' (ret_ + sizeof_accel_report) (out ++ [arb])
      | None => read_loop count' ret_ out
      end
  end.

Definition read (buflen : Z) : M W F (Z * list accel_report) :=
  let count := to_unsigned (buflen / sizeof_accel_report) in
  (* buffer must be large enough *)
  if count <? 1 then ret (- ENOSPC, [])
  else
  interval <- member _call_accel_interval ;;
  (* if automatic measurement is enabled *)
  if 0 <? interval then
    res <- read_loop (Z.to_nat count) 0 [] ;;
    (* if there was no data, warn the caller *)
    ret (if fst res =? 0 then - EAGAIN else fst res, snd res)
  else
  (* manual measurement *)
  measure ;;
  (* measurement will have generated a report, copy it out *)
  r <- accel_reports_get ;;
  match r with
  | Some arb => ret (sizeof_accel_report, [arb])
  | None => ret (0, [])
  end.

Fixpoint mag_read_loop (count : nat) (ret_ : Z) (out : list mag_report)
  : M W F (Z * list mag_report) :=
  match count with
  | O => ret (ret_, out)
  | S count' =>
      r <- mag_reports_get ;;
      match r with
      | Some mrb => mag_read_loop count' (ret_ + sizeof_mag_report) (out ++ [mrb])
      | None => mag_read_loop count' ret_ out
      end
  end.

Definition mag_read (buflen : Z) : M W F (Z * list mag_report) :=
  let count := to_unsigned (buflen / sizeof_mag_report) in
  (* buffer must be large enough *)
  if count <? 1 then ret (- ENOSPC, [])
  else
  interval <- member _call_mag_interval ;;
  (* if automatic measurement is enabled *)
  if 0 <? interval then
    res <- mag_read_loop (Z.to_nat count) 0 [] ;;
    (* if there was no data, warn the caller *)
    ret (if fst res =? 0 then - EAGAIN else fst res, snd res)
  else
  (* manual measurement *)
  assign (fun d => set_mag_reports (rb_flush (_mag_reports d)) d) ;;
  measure ;;
  (* measurement will have generated a report, copy it out *)
  r <- mag_reports_get ;;
  match r with
  | Some mrb => ret (sizeof_mag_report, [mrb])
  | None => ret (0, [])
  end.

(** *** Control interface

    The commands that reset and configure the sensor, set its
    calibration and run the self tests; the poll-rate and queue-depth
    commands and the getters that copy a structure out are not modelled.
    A node passes the commands it does not handle to the base class. *)

Definition ioctl (cmd : ioctl_cmd) : M W F Z :=
  match cmd with
  | SENSORIOCRESET => reset ;; ret OK
  | ACCELIOCSSAMPLERATE arg => accel_set_samplerate arg
  | ACCELIOCGSAMPLERATE => member _accel_samplerate
  | ACCELIOCSLOWPASS arg =>
      rate <- member _accel_samplerate ;;
      accel_set_driver_lowpass_filter (Float32.of_int rate) (Float32.of_int arg)
  | ACCELIOCGLOWPASS =>
      member (fun d => Float32.to_int (get_cutoff_freq (_accel_filter_x d)))
  | ACCELIOCSSCALE s =>
      (* copy scale, but only if off by a few percent *)
      let sum := ax_scale s +. ay_scale s +. az_scale s in
      if (sum >. f_2_0) && (sum <. f_4_0) then
        assign (set_accel_scale s) ;;
        ret OK
      else ret (- EINVAL)
  | ACCELIOCSRANGE arg =>
      (* arg needs to be in G *)
      accel_set_range arg
  | ACCELIOCGRANGE =>
      (* convert to m/s^2 and return rounded in G *)
      member (fun d =>
        Float32.to_int (Float32.of_int (_accel_range_m_s2 d) /. LSM303D_ONE_G +. f_0_5))
  | ACCELIOCSELFTEST => member accel_self_test
  | _ => call (SPI_ioctl cmd)
  end.

Definition mag_ioctl (cmd : ioctl_cmd) : M W F Z :=
  match cmd with
  | SENSORIOCRESET => reset ;; ret OK
  | MAGIOCSSAMPLERATE arg => mag_set_samplerate arg
  | MAGIOCGSAMPLERATE => member _mag_samplerate
  | MAGIOCSLOWPASS _ | MAGIOCGLOWPASS =>
      (* not supported, no internal filtering *)
      ret (- EINVAL)
  | MAGIOCSSCALE s =>
      (* copy scale in *)
      assign (set_mag_scale s) ;;
      ret OK
  | MAGIOCSRANGE arg => mag_set_range arg
  | MAGIOCGRANGE => member _mag_range_ga
  | MAGIOCSELFTEST => member mag_self_test
  | MAGIOCGEXTERNAL =>
      (* no external mag board yet *)
      ret 0
  | _ => call (SPI_ioctl cmd)
  end.

End Driver.

(** ** The object as constructed

    The member initialisers of the constructor, with the two report
    buffers as [init] allocates them (two entries each). *)
Definition LSM303D_new {F} `{FilterCore F} : LSM303D F :=
  let default_scale_a :=
    {| ax_offset := Float32.of_int 0; ax_scale := f_1_0;
       ay_offset := Float32.of_int 0; ay_scale := f_1_0;
       az_offset := Float32.of_int 0; az_scale := f_1_0 |} in
  let default_scale_m :=
    {| mx_offset := Float32.of_int 0; mx_scale := f_1_0;
       my_offset := Float32.of_int 0; my_scale := f_1_0;
       mz_offset := Float32.of_int 0; mz_scale := f_1_0 |} in
  let filter :=
    LowPassFilter2p_new (Float32.of_int LSM303D_ACCEL_DEFAULT_RATE)
                        (Float32.of_int LSM303D_ACCEL_DEFAULT_DRIVER_FILTER_FREQ) in
  {| _call_accel_interval := 0;
     _call_mag_interval := 0;
     _accel_reports := rb_new 2;
     _mag_reports := rb_new 2;
     _accel_scale := default_scale_a;
     _accel_range_m_s2 := 0;
     _accel_range_scale := Float32.of_int 0;
     _accel_samplerate := 0;
     _accel_onchip_filter_bandwith := 0;
     _mag_scale := default_scale_m;
     _mag_range_ga := 0;
     _mag_range_scale := Float32.of_int 0;
     _mag_samplerate := 0;
     _accel_topic := -1;
     _mag_topic := -1;
     _pub_blocked := false;
     _accel_read := 0;
     _mag_read := 0;
     _perf := fun _ => 0;
     _accel_filter_x := filter;
     _accel_filter_y := filter;
     _accel_filter_z := filter;
     _reg1_expected := 0;
     _reg7_expected := 0 |}.

(** ** A bench set-up

    A simulated sensor for running the driver on concrete inputs: a
    register file behind the SPI protocol of the chip (bit 7 of the
    command byte selects a read, bit 6 the address increment), a
    data-ready line and a clock.  The filter core of the bench passes
    samples through. *)
Record SimBoard := {
  sim_regs : Z -> Z;
  sim_drdy : bool;
  sim_clock : Z
}.

Definition sim_transfer (send : list Z) (w : SimBoard) : list Z * SimBoard :=
  match send with
  | [] => ([], w)
  | cmd :: data =>
      let addr := Z.land cmd 0x3F in
      if Z.testbit cmd 7 then
        (0 :: map (fun i => sim_regs w (if Z.testbit cmd 6 then addr + Z.of_nat i else addr))
                  (seq 0 (length data)), w)
      else
        match data with
        | [] => ([], w)
        | v :: _ =>
            ([], {| sim_regs := fun a => if a =? addr then v else sim_regs w a;
                    sim_drdy := sim_drdy w;
                    sim_clock := sim_clock w |})
        end
  end.

#[export] Instance SimPlatform : Platform SimBoard := {
  transfer := sim_transfer;
  stm32_gpioread := fun _ w => (sim_drdy w, w);
  hrt_absolute_time := fun w =>
    (sim_clock w, {| sim_regs := sim_regs w; sim_drdy := sim_drdy w;
                     sim_clock := sim_clock w + 1 |})
}.

#[export] Instance PassThrough : FilterCore unit := {
  lpf_new := fun _ _ => tt;
  lpf_configure := fun _ _ _ => tt;
  lpf_apply := fun sample _ => (sample, tt)
}.

#[export] Instance SimBuild : Build SimBoard := {
  sizeof_accel_report := 48;
  sizeof_mag_report := 48;
  SPI_ioctl := fun _ w => (-25, w)
}.

Definition Bench : Type := Sys SimBoard unit.

Definition bench_power_on : Bench :=
  {| drv := LSM303D_new;
     hw := {| sim_regs := fun _ => 0; sim_drdy := true; sim_clock := 1000 |};
     events := [] |}.

(** The bench after the reset that [init] performs. *)
Definition bench_ready : Bench := exec reset bench_power_on.

(** The bench with every setting moved away from its default:
    16 g, 1600 Hz, 773 Hz on-chip bandwidth, 50 Hz driver cutoff,
    12 Ga, 25 Hz. *)
Definition bench_configured : Bench :=
  exec (accel_set_range 16 ;;
        accel_set_samplerate 1600 ;;
        accel_set_onchip_lowpass_filter_bandwidth 773 ;;
        ioctl (ACCELIOCSLOWPASS 50) ;;
        mag_set_range 12 ;;
        mag_set_samplerate 25) bench_ready.

(** A plausible calibration: offsets of 0.05, scales of 1.01. *)
Definition bench_accel_scale : accel_scale :=
  {| ax_offset := Float32.lit 5 100; ax_scale := Float32.lit 101 100;
     ay_offset := Float32.lit 5 100; ay_scale := Float32.lit 101 100;
     az_offset := Float32.lit 5 100; az_scale := Float32.lit 101 100 |}.

Definition bench_mag_scale : mag_scale :=
  {| mx_offset := Float32.lit 5 100; mx_scale := f_1_0;
     my_offset := Float32.lit 5 100; my_scale := f_1_0;
     mz_offset := Float32.lit 5 100; mz_scale := f_1_0 |}.

(** ** Vocabulary of the properties *)

(** The rates and ranges the setters can select. *)
Definition accel_rates : list Z := [100; 200; 400; 800; 1600].
Definition mag_rates : list Z := [25; 50; 100].
Definition accel_ranges_g : list Z := [2; 4; 6; 8; 16].
Definition mag_ranges_ga : list Z := [2; 4; 8; 12].

(** [v] is the smallest supported value that covers [request]. *)
Definition smallest_covering (supported : list Z) (request v : Z) : Prop :=
  In v supported /\ request <= v /\
  forall v', In v' supported -> request <= v' -> v <= v'.

Definition maximum_of (supported : list Z) (v : Z) : Prop :=
  In v supported /\ forall v', In v' supported -> v' <= v.

(** The accelerometer range is held in m/s^2, truncated to an integer. *)
Definition g_to_m_s2 (g : Z) : Z :=
  to_unsigned (Float32.to_int (Float32.of_int g *. LSM303D_ONE_G)).

(** The configuration a channel is running with. *)
Record active_config := {
  cfg_accel_range_m_s2 : Z;
  cfg_accel_samplerate : Z;
  cfg_accel_onchip_filter_bandwith : Z;
  cfg_accel_cutoff_x : float;
  cfg_accel_cutoff_y : float;
  cfg_accel_cutoff_z : float;
  cfg_mag_range_ga : Z;
  cfg_mag_samplerate : Z
}.

Definition config_of {F} (d : LSM303D F) : active_config :=
  {| cfg_accel_range_m_s2 := _accel_range_m_s2 d;
     cfg_accel_samplerate := _accel_samplerate d;
     cfg_accel_onchip_filter_bandwith := _accel_onchip_filter_bandwith d;
     cfg_accel_cutoff_x := get_cutoff_freq (_accel_filter_x d);
     cfg_accel_cutoff_y := get_cutoff_freq (_accel_filter_y d);
     cfg_accel_cutoff_z := get_cutoff_freq (_accel_filter_z d);
     cfg_mag_range_ga := _mag_range_ga d;
     cfg_mag_samplerate := _mag_samplerate d |}.

Definition default_config : active_config :=
  {| cfg_accel_range_m_s2 := g_to_m_s2 LSM303D_ACCEL_DEFAULT_RANGE_G;
     cfg_accel_samplerate := LSM303D_ACCEL_DEFAULT_RATE;
     cfg_accel_onchip_filter_bandwith := LSM303D_ACCEL_DEFAULT_ONCHIP_FILTER_FREQ;
     cfg_accel_cutoff_x := Float32.of_int LSM303D_ACCEL_DEFAULT_DRIVER_FILTER_FREQ;
     cfg_accel_cutoff_y := Float32.of_int LSM303D_ACCEL_DEFAULT_DRIVER_FILTER_FREQ;
     cfg_accel_cutoff_z := Float32.of_int LSM303D_ACCEL_DEFAULT_DRIVER_FILTER_FREQ;
     cfg_mag_range_ga := LSM303D_MAG_DEFAULT_RANGE_GA;
     cfg_mag_samplerate := LSM303D_MAG_DEFAULT_RATE |}.

(** What an entry point of the driver may do to the object is stated as
    a relation between the object before and after; a method respects a
    relation when every run of it is related that way. *)
Definition respects {W F A} (R : LSM303D F -> LSM303D F -> Prop) (m : M W F A) : Prop :=
  forall s, R (drv s) (drv (exec m s)).

(** The member [proj] has the value it had before. *)
Definition keeps {F A} (proj : LSM303D F -> A) : LSM303D F -> LSM303D F -> Prop :=
  fun d d' => proj d' = proj d.

(** Completed measurements are counted by the sample performance
    counter, which nothing resets.  [no_sample_since read c d d']: the
    count [c] has not gone down, and if it has not gone up either, a
    measurement counter [read] that was zero is still zero. *)
Definition no_sample_since {F} (read : LSM303D F -> Z) (c : perf_counter_t)
  : LSM303D F -> LSM303D F -> Prop :=
  fun d d' => _perf d c <= _perf d' c /\ (_perf d' c = _perf d c -> read d = 0 -> read d' = 0).

(** The calls that reach the driver from outside: the two device nodes
    and the two timer callbacks. *)
Inductive entry_point :=
| call_ioctl (cmd : ioctl_cmd)
| call_mag_ioctl (cmd : ioctl_cmd)
| call_read (buflen : Z)
| call_mag_read (buflen : Z)
| timer_measure
| timer_mag_measure.

Definition run {W F} `{Platform W} `{FilterCore F} `{Build W} (e : entry_point)
  : M W F unit :=
  match e with
  | call_ioctl cmd => ioctl cmd ;; ret tt
  | call_mag_ioctl cmd => mag_ioctl cmd ;; ret tt
  | call_read buflen => read buflen ;; ret tt
  | call_mag_read buflen => mag_read buflen ;; ret tt
  | timer_measure => measure
  | timer_mag_measure => mag_measure
  end.

Fixpoint run_all {W F} `{Platform W} `{FilterCore F} `{Build W} (l : list entry_point)
  : M W F unit :=
  match l with
  | [] => ret tt
  | e :: l' => run e ;; run_all l'
  end.

(** The conditions of the self tests, in the words of the specification. *)
Definition offset_is_zero (offset : float) : Prop :=
  (Float32.fabsf offset <. f_0_000001) = true.

Definition scale_is_implausible (scale : float) : Prop :=
  (Float32.fabsf (scale -. f_1_0) >. f_0_4) = true \/
  (Float32.fabsf (scale -. f_1_0) <. f_0_000001) = true.

Definition accel_calibration_fails (sc : accel_scale) : Prop :=
  offset_is_zero (ax_offset sc) \/ offset_is_zero (ay_offset sc) \/
  offset_is_zero (az_offset sc) \/
  scale_is_implausible (ax_scale sc) \/ scale_is_implausible (ay_scale sc) \/
  scale_is_implausible (az_scale sc).

Definition mag_calibration_fails (sc : mag_scale) : Prop :=
  offset_is_zero (mx_offset sc) \/ offset_is_zero (my_offset sc) \/
  offset_is_zero (mz_offset sc).

(** The plausibility band of the accelerometer scale setter. *)
Definition scale_sum (s : accel_scale) : float := ax_scale s +. ay_scale s +. az_scale s.

Definition scale_sum_in_band (s : accel_scale) : Prop :=
  (scale_sum s >. f_2_0) = true /\ (scale_sum s <. f_4_0) = true.

(** Further bench states: the data-ready line low; a bench that was
    calibrated and took one sample on each channel; the same after a
    brownout of the sensor; and the same after a reset. *)
Definition bench_not_ready : Bench :=
  {| drv := drv bench_ready;
     hw := {| sim_regs := sim_regs (hw bench_ready); sim_drdy := false;
              sim_clock := sim_clock (hw bench_ready) |};
     events := events bench_ready |}.

Definition bench_calibrated : Bench :=
  exec (ioctl (ACCELIOCSSCALE bench_accel_scale) ;;
        mag_ioctl (MAGIOCSSCALE bench_mag_scale)) bench_ready.

Definition bench_sampled : Bench :=
  exec (measure ;; mag_measure) bench_calibrated.

(** After a brownout the two control registers read their power-on
    values again. *)
Definition bench_brownout : Bench :=
  {| drv := drv bench_sampled;
     hw := {| sim_regs := fun a => if a =? ADDR_CTRL_REG1 then 0x07
                                   else if a =? ADDR_CTRL_REG7 then 0x03
                                   else sim_regs (hw bench_sampled) a;
              sim_drdy := true;
              sim_clock := sim_clock (hw bench_sampled) |};
     events := events bench_sampled |}.

Definition bench_sampled_then_reset : Bench := exec reset bench_sampled.

(** The configured bench after a brownout of the sensor. *)
Definition bench_configured_brownout : Bench :=
  {| drv := drv bench_configured;
     hw := {| sim_regs := fun a => if a =? ADDR_CTRL_REG1 then 0x07
                                   else if a =? ADDR_CTRL_REG7 then 0x03
                                   else sim_regs (hw bench_configured) a;
              sim_drdy := true;
              sim_clock := sim_clock (hw bench_configured) |};
     events := events bench_configured |}.

(** The two checks at the head of [measure], and the one at the head of
    [mag_measure], as the routine evaluates them on a state. *)
Definition accel_data_ready {W F} `{Platform W} (s : Sys W F) : bool :=
  eval (call (stm32_gpioread GPIO_EXTI_ACCEL_DRDY)) s.

Definition accel_registers_healthy {W F} `{Platform W} (s : Sys W F) : bool :=
  eval (read_reg ADDR_CTRL_REG1) (exec (call (stm32_gpioread GPIO_EXTI_ACCEL_DRDY)) s)
  =? _reg1_expected (drv s).

Definition mag_registers_healthy {W F} `{Platform W} (s : Sys W F) : bool :=
  eval (read_reg ADDR_CTRL_REG7) s =? _reg7_expected (drv s).

(** Reset reapplies the configuration it finds (the reading of the
    specification). *)
Definition reset_reapplies_configuration {W F} `{Platform W} `{FilterCore F}
  (s : Sys W F) : Prop :=
  config_of (drv (exec reset s)) = config_of (drv s).

(** The number of samples a channel has produced since the object was
    constructed. *)
Definition accel_samples_produced {F} (d : LSM303D F) : Z := _perf d accel_sample_perf.
Definition mag_samples_produced {F} (d : LSM303D F) : Z := _perf d mag_sample_perf.

(** ** Further vocabulary *)

(** The on-chip filter bandwidths the setter can select. *)
Definition accel_bandwidths : list Z := [50; 194; 362; 773].

(** The bit pattern of [CTRL_REG1] for a sample rate the setter selects. *)
Definition REG1_RATE_A (hz : Z) : Z :=
  if hz =? 100 then REG1_RATE_100HZ_A
  else if hz =? 200 then REG1_RATE_200HZ_A
  else if hz =? 400 then REG1_RATE_400HZ_A
  else if hz =? 800 then REG1_RATE_800HZ_A
  else REG1_RATE_1600HZ_A.

(** The bit patterns of [CTRL_REG2] for a range (in g) and an on-chip
    bandwidth (in Hz) the setters select. *)
Definition REG2_FULL_SCALE_A (g : Z) : Z :=
  if g =? 2 then REG2_FULL_SCALE_2G_A
  else if g =? 4 then REG2_FULL_SCALE_4G_A
  else if g =? 6 then REG2_FULL_SCALE_6G_A
  else if g =? 8 then REG2_FULL_SCALE_8G_A
  else REG2_FULL_SCALE_16G_A.

Definition REG2_AA_FILTER_BW_A (hz : Z) : Z :=
  if hz =? 50 then REG2_AA_FILTER_BW_50HZ_A
  else if hz =? 194 then REG2_AA_FILTER_BW_194HZ_A
  else if hz =? 362 then REG2_AA_FILTER_BW_362HZ_A
  else REG2_AA_FILTER_BW_773HZ_A.

(** A check of every value of a [uint8_t]. *)
Definition all_bytes (P : Z -> bool) : bool :=
  forallb P (map Z.of_nat (seq 0 256)).

(** A sensor register written on the bench. *)
Definition poke (reg v : Z) (s : Bench) : Bench :=
  {| drv := drv s;
     hw := {| sim_regs := fun a => if a =? reg then v else sim_regs (hw s) a;
              sim_drdy := sim_drdy (hw s);
              sim_clock := sim_clock (hw s) |};
     events := events s |}.

(** On the bench, the two registers the watchdog looks at hold what the
    driver expects. *)
Definition in_sync (s : Bench) : Prop :=
  to_uint8 (sim_regs (hw s) ADDR_CTRL_REG1) = _reg1_expected (drv s) /\
  to_uint8 (sim_regs (hw s) ADDR_CTRL_REG7) = _reg7_expected (drv s).

(** The watchdog resets so far: the two bad-register counters. *)
Definition watchdog_resets {F} (d : LSM303D F) : Z * Z :=
  (_perf d reg1_resets, _perf d reg7_resets).

(** The bench is in sync, and the watchdog counters and the data-ready
    line stand at [n]. *)
Definition synced (n : Z * Z * bool) (s : Bench) : Prop :=
  in_sync s /\ (watchdog_resets (drv s), sim_drdy (hw s)) = n.

(** A method that keeps the bench in sync without a watchdog reset, and
    leaves the data-ready line as it is. *)
Definition steady {A} (m : M SimBoard unit A) : Prop :=
  forall n s, synced n s -> synced n (exec m s).

(** Two more bench states: automatic polling switched on for both
    channels with one report buffered on each; and both measurement
    counters at the top of their range. *)
Definition bench_polling : Bench :=
  {| drv := set_call_accel_interval 1250 (set_call_mag_interval 10000 (drv bench_sampled));
     hw := hw bench_sampled;
     events := events bench_sampled |}.

(** The polling bench after a reader has taken everything. *)
Definition bench_drained : Bench := exec (read 96 ;; mag_read 96) bench_polling.

Definition bench_counters_at_max : Bench :=
  {| drv := set_accel_read (2 ^ 32 - 1) (set_mag_read (2 ^ 32 - 1) (drv bench_sampled));
     hw := hw bench_sampled;
     events := events bench_sampled |}.

(** The two measurement channels, the timer callback of each, and the
    number of callbacks of a channel in a sequence. *)
Inductive channel := accel_channel | mag_channel.

Definition tick (c : channel) : entry_point :=
  match c with
  | accel_channel => timer_measure
  | mag_channel => timer_mag_measure
  end.

Definition channel_eqb (c c' : channel) : bool :=
  match c, c' with
  | accel_channel, accel_channel | mag_channel, mag_channel => true
  | _, _ => false
  end.

Definition ticks_of (c : channel) (l : list channel) : Z :=
  Z.of_nat (length (filter (channel_eqb c) l)).

(** ** Proof support *)

Ltac frame_obligation :=
  unfold keeps, no_sample_since; cbn;
  solve [ reflexivity | intuition (first [ lia | congruence ]) ].

Ltac head_of t :=
  lazymatch t with
  | ?f _ => head_of f
  | _ => t
  end.

(** Case analysis on the comparisons that guard the branches of a setter. *)
Ltac branch_cases :=
  repeat match goal with
  | |- context [Z.eqb ?a ?b] => destruct (Z.eqb_spec a b); try lia; cbv beta iota
  | |- context [Z.leb ?a ?b] => destruct (Z.leb_spec a b); try lia; cbv beta iota
  end.

Ltac covering :=
  unfold smallest_covering, maximum_of,
    accel_rates, mag_rates, accel_ranges_g, mag_ranges_ga; cbn [In];
  repeat apply conj; intros; intuition lia.

(** * Properties *)

Section Respects.

Context {W F : Type} (R : LSM303D F -> LSM303D F -> Prop) {RP : PreOrder R}.

Lemma respects_ret A (a : A) : respects R (@ret W F A a).
Proof. intros s. apply RP. Qed.

Lemma respects_bind A B (m : M W F A) (k : A -> M W F B) :
  respects R m -> (forall a, respects R (k a)) -> respects R (bind m k).
Proof.
  intros Hm Hk s. unfold exec, bind. cbn.
  transitivity (drv (exec m s)); [apply Hm | apply Hk].
Qed.

Lemma respects_member A (f : LSM303D F -> A) : respects R (@member W F A f).
Proof. intros s. apply RP. Qed.

Lemma respects_call A (f : W -> A * W) : respects R (@call W F A f).
Proof. intros s. apply RP. Qed.

Lemma respects_emit e : respects R (@emit W F e).
Proof. intros s. apply RP. Qed.

Lemma respects_assign upd : (forall d, R d (upd d)) -> respects R (@assign W F upd).
Proof. intros H s. apply H. Qed.

Context {PW : Platform W}.

Lemma respects_read_reg reg : respects R (read_reg (F := F) reg).
Proof. apply respects_bind; [apply respects_call | intro; apply respects_ret]. Qed.

Lemma respects_write_reg reg v : respects R (write_reg (F := F) reg v).
Proof. apply respects_bind; [apply respects_call | intro; apply respects_ret]. Qed.

Lemma respects_modify_reg reg c b : respects R (modify_reg (F := F) reg c b).
Proof. apply respects_bind; [apply respects_read_reg | intro; apply respects_write_reg]. Qed.

Lemma respects_disable_i2c : respects R (disable_i2c (F := F)).
Proof.
  unfold disable_i2c.
  do 3 (apply respects_bind; [apply respects_read_reg | intro];
        apply respects_bind; [apply respects_write_reg | intro]).
  apply respects_bind; [apply respects_read_reg | intro; apply respects_write_reg].
Qed.

Context {FC : FilterCore F} {BW : Build W}.

Lemma respects_accel_reports_get :
  (forall v d, R d (set_accel_reports v d)) -> respects R (accel_reports_get (W := W) (F := F)).
Proof.
  intros H. unfold accel_reports_get.
  apply respects_bind; [apply respects_member | intro].
  apply respects_bind; [apply respects_assign; intro; apply H | intro; apply respects_ret].
Qed.

Lemma respects_mag_reports_get :
  (forall v d, R d (set_mag_reports v d)) -> respects R (mag_reports_get (W := W) (F := F)).
Proof.
  intros H. unfold mag_reports_get.
  apply respects_bind; [apply respects_member | intro].
  apply respects_bind; [apply respects_assign; intro; apply H | intro; apply respects_ret].
Qed.

Lemma respects_read_loop count ret_ out :
  (forall v d, R d (set_accel_reports v d)) -> respects R (read_loop count ret_ out).
Proof.
  intros H. revert ret_ out.
  induction count as [| count IH]; intros ret_ out; cbn [read_loop].
  - apply respects_ret.
  - apply respects_bind; [apply respects_accel_reports_get, H |].
    intros [arb |]; apply IH.
Qed.

Lemma respects_mag_read_loop count ret_ out :
  (forall v d, R d (set_mag_reports v d)) -> respects R (mag_read_loop count ret_ out).
Proof.
  intros H. revert ret_ out.
  induction count as [| count IH]; intros ret_ out; cbn [mag_read_loop].
  - apply respects_ret.
  - apply respects_bind; [apply respects_mag_reports_get, H |].
    intros [mrb |]; apply IH.
Qed.

End Respects.

#[export] Instance keeps_PreOrder {F A} (proj : LSM303D F -> A) : PreOrder (keeps proj).
Proof.
  split; [intros d; reflexivity | intros a b c Hab Hbc; unfold keeps in *; congruence].
Qed.

#[export] Instance no_sample_since_PreOrder {F} (read : LSM303D F -> Z) c :
  PreOrder (no_sample_since read c).
Proof.
  split.
  - intros d. split; [lia | auto].
  - intros a b c' [Hab1 Hab2] [Hbc1 Hbc2]. split; [lia |].
    intros Heq Hz. apply Hbc2; [lia |]. apply Hab2; [lia | exact Hz].
Qed.

(** One step through the body of a method: the rule for its outermost
    construct, or else its definition. *)
Ltac respects_step :=
  lazymatch goal with
  | |- respects _ (bind (assign _) (fun _ => perf_end _)) =>
      intros ?; unfold exec, bind, assign, perf_end, perf_count; frame_obligation
  | |- respects _ (bind _ _) => apply respects_bind; [ exact _ | | intros ? ]
  | |- respects _ (ret _) => apply respects_ret; exact _
  | |- respects _ (member _) => apply respects_member; exact _
  | |- respects _ (call _) => apply respects_call; exact _
  | |- respects _ (emit _) => apply respects_emit; exact _
  | |- respects _ (read_reg _) => apply respects_read_reg; exact _
  | |- respects _ (write_reg _ _) => apply respects_write_reg; exact _
  | |- respects _ (modify_reg _ _ _) => apply respects_modify_reg; exact _
  | |- respects _ disable_i2c => apply respects_disable_i2c; exact _
  | |- respects _ (read_loop _ _ _) =>
      apply respects_read_loop; [ exact _ | intros ? ?; frame_obligation ]
  | |- respects _ (mag_read_loop _ _ _) =>
      apply respects_mag_read_loop; [ exact _ | intros ? ?; frame_obligation ]
  | |- respects _ accel_reports_get =>
      apply respects_accel_reports_get; [ exact _ | intros ? ?; frame_obligation ]
  | |- respects _ mag_reports_get =>
      apply respects_mag_reports_get; [ exact _ | intros ? ?; frame_obligation ]
  | |- respects _ (assign _) => apply respects_assign; intros ?; frame_obligation
  | |- respects _ (if ?b then _ else _) => destruct b
  | |- respects _ (match ?x with _ => _ end) => destruct x
  | |- respects _ ?m => let h := head_of m in unfold h; cbv beta zeta
  end.

Ltac respects_method := cbv beta zeta; repeat respects_step.

Section Properties.

Context {W F : Type} {PW : Platform W} {FC : FilterCore F} {BW : Build W}.

Implicit Types (s : Sys W F) (d : LSM303D F).

Lemma bind_run A B (m : M W F A) (k : A -> M W F B) s :
  bind m k s = k (eval m s) (exec m s).
Proof. reflexivity. Qed.

(** *** What reset and the measurement routines leave alone *)

Lemma reset_keeps_accel_scale : respects (W := W) (keeps (@_accel_scale F)) reset.
Proof. respects_method. Qed.

Lemma reset_keeps_mag_scale : respects (W := W) (keeps (@_mag_scale F)) reset.
Proof. respects_method. Qed.

Lemma reset_keeps_mag_reports : respects (W := W) (keeps (@_mag_reports F)) reset.
Proof. respects_method. Qed.

Lemma measure_keeps_accel_scale : respects (W := W) (keeps (@_accel_scale F)) measure.
Proof. respects_method. Qed.

Lemma measure_keeps_mag_scale : respects (W := W) (keeps (@_mag_scale F)) measure.
Proof. respects_method. Qed.

Lemma mag_measure_keeps_accel_scale : respects (W := W) (keeps (@_accel_scale F)) mag_measure.
Proof. respects_method. Qed.

Lemma mag_measure_keeps_mag_scale : respects (W := W) (keeps (@_mag_scale F)) mag_measure.
Proof. respects_method. Qed.

Lemma measure_keeps_mag_reports : respects (W := W) (keeps (@_mag_reports F)) measure.
Proof. respects_method. Qed.

Lemma measure_takes_no_mag_sample :
  respects (W := W) (keeps (@mag_samples_produced F)) measure.
Proof. unfold mag_samples_produced. respects_method. Qed.

(** C8.  For every prior driver state, a device reset leaves the
    calibration of both channels ([_accel_scale] and [_mag_scale], offset
    and scale of every axis) exactly as it was.  This holds for [reset]
    itself, for the reset command of either device node and for the two
    measurement routines, whose watchdog may call [reset]. *)
Theorem reset_leaves_calibration_untouched s :
  (_accel_scale (drv (exec reset s)) = _accel_scale (drv s) /\
   _mag_scale (drv (exec reset s)) = _mag_scale (drv s)) /\
  (_accel_scale (drv (exec (ioctl SENSORIOCRESET) s)) = _accel_scale (drv s) /\
   _mag_scale (drv (exec (ioctl SENSORIOCRESET) s)) = _mag_scale (drv s)) /\
  (_accel_scale (drv (exec (mag_ioctl SENSORIOCRESET) s)) = _accel_scale (drv s) /\
   _mag_scale (drv (exec (mag_ioctl SENSORIOCRESET) s)) = _mag_scale (drv s)) /\
  (_accel_scale (drv (exec measure s)) = _accel_scale (drv s) /\
   _mag_scale (drv (exec measure s)) = _mag_scale (drv s)) /\
  (_accel_scale (drv (exec mag_measure s)) = _accel_scale (drv s) /\
   _mag_scale (drv (exec mag_measure s)) = _mag_scale (drv s)).
Proof.
  repeat apply conj.
  - apply reset_keeps_accel_scale.
  - apply reset_keeps_mag_scale.
  - apply (reset_keeps_accel_scale s).
  - apply (reset_keeps_mag_scale s).
  - apply (reset_keeps_accel_scale s).
  - apply (reset_keeps_mag_scale s).
  - apply measure_keeps_accel_scale.
  - apply measure_keeps_mag_scale.
  - apply mag_measure_keeps_accel_scale.
  - apply mag_measure_keeps_mag_scale.
Qed.

(** C10.  The magnetometer scale setter validates nothing: for every
    calibration whatsoever it returns success and the stored
    magnetometer calibration is the one passed in; nothing else in the
    object changes. *)
Theorem mag_scale_setter_never_rejects s (sc : mag_scale) :
  eval (mag_ioctl (MAGIOCSSCALE sc)) s = OK /\
  _mag_scale (drv (exec (mag_ioctl (MAGIOCSSCALE sc)) s)) = sc /\
  drv (exec (mag_ioctl (MAGIOCSSCALE sc)) s) = set_mag_scale sc (drv s).
Proof. repeat split. Qed.

(** C5.  The accelerometer scale setter returns success exactly when
    the sum of the three scale factors, as the code computes it in single
    precision, is strictly between 2.0 and 4.0.  It then stores the
    calibration passed in; otherwise it returns the error and the whole
    state is as before. *)
Theorem accel_scale_setter_accepts_iff_sum_in_band s (sc : accel_scale) :
  (eval (ioctl (ACCELIOCSSCALE sc)) s = OK <-> scale_sum_in_band sc) /\
  (scale_sum_in_band sc ->
     _accel_scale (drv (exec (ioctl (ACCELIOCSSCALE sc)) s)) = sc /\
     drv (exec (ioctl (ACCELIOCSSCALE sc)) s) = set_accel_scale sc (drv s)) /\
  (~ scale_sum_in_band sc ->
     eval (ioctl (ACCELIOCSSCALE sc)) s = - EINVAL /\
     exec (ioctl (ACCELIOCSSCALE sc)) s = s).
Proof.
  unfold scale_sum_in_band, eval, exec, ioctl. fold (scale_sum sc).
  destruct (scale_sum sc >. f_2_0) eqn:Hlo, (scale_sum sc <. f_4_0) eqn:Hhi; cbn;
    repeat split; intros; try reflexivity; try discriminate;
    try (exfalso; intuition discriminate); intuition congruence.
Qed.

(** *** The rate and range setters *)

Lemma accel_set_samplerate_covers s frequency :
  frequency <> 0 -> frequency <= 1600 ->
  eval (accel_set_samplerate frequency) s = OK /\
  smallest_covering accel_rates frequency
    (_accel_samplerate (drv (exec (accel_set_samplerate frequency) s))).
Proof.
  intros Hnz Hle. unfold eval, exec, accel_set_samplerate. cbv zeta.
  branch_cases; cbn; (split; [reflexivity | covering]).
Qed.

Lemma accel_set_samplerate_zero s :
  eval (accel_set_samplerate 0) s = OK /\
  _accel_samplerate (drv (exec (accel_set_samplerate 0) s)) = 1600.
Proof. split; reflexivity. Qed.

Lemma accel_set_samplerate_rejects s frequency :
  1600 < frequency -> accel_set_samplerate frequency s = (- EINVAL, s).
Proof.
  intros H. unfold accel_set_samplerate. cbv zeta. branch_cases. reflexivity.
Qed.

Lemma mag_set_samplerate_covers s frequency :
  frequency <> 0 -> frequency <= 100 ->
  eval (mag_set_samplerate frequency) s = OK /\
  smallest_covering mag_rates frequency
    (_mag_samplerate (drv (exec (mag_set_samplerate frequency) s))).
Proof.
  intros Hnz Hle. unfold eval, exec, mag_set_samplerate. cbv zeta.
  branch_cases; cbn; (split; [reflexivity | covering]).
Qed.

Lemma mag_set_samplerate_zero s :
  eval (mag_set_samplerate 0) s = OK /\
  _mag_samplerate (drv (exec (mag_set_samplerate 0) s)) = 100.
Proof. split; reflexivity. Qed.

Lemma mag_set_samplerate_rejects s frequency :
  100 < frequency -> mag_set_samplerate frequency s = (- EINVAL, s).
Proof.
  intros H. unfold mag_set_samplerate. cbv zeta. branch_cases. reflexivity.
Qed.

(** C3.  For every requested sample rate the setter stores, as the
    active rate, the smallest rate it supports that is not below the
    request (accelerometer: 100, 200, 400, 800, 1600 Hz; magnetometer:
    25, 50, 100 Hz); a request of 0 selects the maximum (1600 Hz, 100 Hz);
    300 Hz gives 400 Hz; a request above the maximum is rejected with the
    error code and changes nothing. *)
Theorem samplerate_setters_select_smallest_covering_rate s (frequency : Z) :
  0 <= frequency ->
  (frequency = 0 ->
     eval (accel_set_samplerate frequency) s = OK /\
     _accel_samplerate (drv (exec (accel_set_samplerate frequency) s)) = 1600 /\
     maximum_of accel_rates 1600 /\
     eval (mag_set_samplerate frequency) s = OK /\
     _mag_samplerate (drv (exec (mag_set_samplerate frequency) s)) = 100 /\
     maximum_of mag_rates 100) /\
  (0 < frequency <= 1600 ->
     eval (accel_set_samplerate frequency) s = OK /\
     smallest_covering accel_rates frequency
       (_accel_samplerate (drv (exec (accel_set_samplerate frequency) s)))) /\
  (1600 < frequency ->
     eval (accel_set_samplerate frequency) s = - EINVAL /\
     exec (accel_set_samplerate frequency) s = s) /\
  (0 < frequency <= 100 ->
     eval (mag_set_samplerate frequency) s = OK /\
     smallest_covering mag_rates frequency
       (_mag_samplerate (drv (exec (mag_set_samplerate frequency) s)))) /\
  (100 < frequency ->
     eval (mag_set_samplerate frequency) s = - EINVAL /\
     exec (mag_set_samplerate frequency) s = s) /\
  (frequency = 300 ->
     _accel_samplerate (drv (exec (accel_set_samplerate frequency) s)) = 400).
Proof.
  intros Hpos. repeat apply conj.
  - intros ->. repeat apply conj; try reflexivity; covering.
  - intros [Hlo Hhi]. apply accel_set_samplerate_covers; lia.
  - intros H. unfold eval, exec. rewrite accel_set_samplerate_rejects by exact H.
    split; reflexivity.
  - intros [Hlo Hhi]. apply mag_set_samplerate_covers; lia.
  - intros H. unfold eval, exec. rewrite mag_set_samplerate_rejects by exact H.
    split; reflexivity.
  - intros ->. reflexivity.
Qed.

Lemma accel_set_range_covers s max_g :
  max_g <> 0 -> max_g <= 16 ->
  eval (accel_set_range max_g) s = OK /\
  exists g, smallest_covering accel_ranges_g max_g g /\
    _accel_range_m_s2 (drv (exec (accel_set_range max_g) s)) = g_to_m_s2 g /\
    eval (ioctl ACCELIOCGRANGE) (exec (accel_set_range max_g) s) = g.
Proof.
  intros Hnz Hle. unfold eval, exec, accel_set_range. cbv zeta.
  branch_cases; (split; [reflexivity |]).
  - exists 2. split; [covering | split; [reflexivity | lazy; reflexivity]].
  - exists 4. split; [covering | split; [reflexivity | lazy; reflexivity]].
  - exists 6. split; [covering | split; [reflexivity | lazy; reflexivity]].
  - exists 8. split; [covering | split; [reflexivity | lazy; reflexivity]].
  - exists 16. split; [covering | split; [reflexivity | lazy; reflexivity]].
Qed.

Lemma accel_set_range_zero s :
  eval (accel_set_range 0) s = OK /\
  _accel_range_m_s2 (drv (exec (accel_set_range 0) s)) = g_to_m_s2 16 /\
  eval (ioctl ACCELIOCGRANGE) (exec (accel_set_range 0) s) = 16.
Proof. repeat apply conj; lazy; reflexivity. Qed.

Lemma accel_set_range_rejects s max_g :
  16 < max_g -> accel_set_range max_g s = (- EINVAL, s).
Proof.
  intros H. unfold accel_set_range. cbv zeta. branch_cases. reflexivity.
Qed.

Lemma mag_set_range_covers s max_ga :
  max_ga <> 0 -> max_ga <= 12 ->
  eval (mag_set_range max_ga) s = OK /\
  smallest_covering mag_ranges_ga max_ga
    (_mag_range_ga (drv (exec (mag_set_range max_ga) s))) /\
  eval (mag_ioctl MAGIOCGRANGE) (exec (mag_set_range max_ga) s)
  = _mag_range_ga (drv (exec (mag_set_range max_ga) s)).
Proof.
  intros Hnz Hle. unfold eval, exec, mag_set_range. cbv zeta.
  branch_cases; cbn; (split; [reflexivity | split; [covering | reflexivity]]).
Qed.

Lemma mag_set_range_zero s :
  eval (mag_set_range 0) s = OK /\
  _mag_range_ga (drv (exec (mag_set_range 0) s)) = 12.
Proof. split; reflexivity. Qed.

Lemma mag_set_range_rejects s max_ga :
  12 < max_ga -> mag_set_range max_ga s = (- EINVAL, s).
Proof.
  intros H. unfold mag_set_range. cbv zeta. branch_cases. reflexivity.
Qed.

(** C4.  For every requested full-scale range the setter makes the
    smallest range it supports that is not below the request the active
    range (accelerometer: 2, 4, 6, 8, 16 g, held in m/s^2 and read back in
    g; magnetometer: 2, 4, 8, 12 Ga); a request of 0 selects the maximum
    (16 g, 12 Ga); 5 g gives 6 g; a request above the maximum is rejected
    with the error code and changes nothing. *)
Theorem range_setters_select_smallest_covering_range s (max_g : Z) :
  0 <= max_g ->
  (max_g = 0 ->
     eval (accel_set_range max_g) s = OK /\
     _accel_range_m_s2 (drv (exec (accel_set_range max_g) s)) = g_to_m_s2 16 /\
     eval (ioctl ACCELIOCGRANGE) (exec (accel_set_range max_g) s) = 16 /\
     maximum_of accel_ranges_g 16 /\
     eval (mag_set_range max_g) s = OK /\
     _mag_range_ga (drv (exec (mag_set_range max_g) s)) = 12 /\
     maximum_of mag_ranges_ga 12) /\
  (0 < max_g <= 16 ->
     eval (accel_set_range max_g) s = OK /\
     exists g, smallest_covering accel_ranges_g max_g g /\
       _accel_range_m_s2 (drv (exec (accel_set_range max_g) s)) = g_to_m_s2 g /\
       eval (ioctl ACCELIOCGRANGE) (exec (accel_set_range max_g) s) = g) /\
  (16 < max_g ->
     eval (accel_set_range max_g) s = - EINVAL /\
     exec (accel_set_range max_g) s = s) /\
  (0 < max_g <= 12 ->
     eval (mag_set_range max_g) s = OK /\
     smallest_covering mag_ranges_ga max_g
       (_mag_range_ga (drv (exec (mag_set_range max_g) s))) /\
     eval (mag_ioctl MAGIOCGRANGE) (exec (mag_set_range max_g) s)
     = _mag_range_ga (drv (exec (mag_set_range max_g) s))) /\
  (12 < max_g ->
     eval (mag_set_range max_g) s = - EINVAL /\
     exec (mag_set_range max_g) s = s) /\
  (max_g = 5 ->
     _accel_range_m_s2 (drv (exec (accel_set_range max_g) s)) = g_to_m_s2 6 /\
     eval (ioctl ACCELIOCGRANGE) (exec (accel_set_range max_g) s) = 6).
Proof.
  intros Hpos. repeat apply conj.
  - intros ->. pose proof (accel_set_range_zero s) as (Ha & Hb & Hc).
    pose proof (mag_set_range_zero s) as (Hd & He).
    repeat apply conj; try assumption; covering.
  - intros [Hlo Hhi]. apply accel_set_range_covers; lia.
  - intros H. unfold eval, exec. rewrite accel_set_range_rejects by exact H.
    split; reflexivity.
  - intros [Hlo Hhi]. apply mag_set_range_covers; lia.
  - intros H. unfold eval, exec. rewrite mag_set_range_rejects by exact H.
    split; reflexivity.
  - intros ->. split; lazy; reflexivity.
Qed.

(** *** Self tests *)

Lemma accel_self_test_without_samples d : _accel_read d = 0 -> accel_self_test d = 1.
Proof. intros H. unfold accel_self_test. rewrite H. reflexivity. Qed.

Lemma mag_self_test_without_samples d : _mag_read d = 0 -> mag_self_test d = 1.
Proof. intros H. unfold mag_self_test. rewrite H. reflexivity. Qed.

Lemma accel_self_test_pass_calibration d :
  accel_self_test d = 0 -> ~ accel_calibration_fails (_accel_scale d).
Proof.
  unfold accel_self_test, accel_calibration_fails, offset_is_zero, scale_is_implausible.
  cbv zeta.
  destruct (_accel_read d =? 0);
    repeat match goal with
      | |- context [(?a || ?b)%bool] => destruct a, b; cbn [orb]
      | |- context [if ?b then _ else _] => destruct b
      end;
    intros; try discriminate; intuition discriminate.
Qed.

Lemma mag_self_test_pass_calibration d :
  mag_self_test d = 0 -> ~ mag_calibration_fails (_mag_scale d).
Proof.
  unfold mag_self_test, mag_calibration_fails, offset_is_zero. cbv zeta.
  destruct (_mag_read d =? 0);
    repeat match goal with
      | |- context [if ?b then _ else _] => destruct b
      end;
    intros; try discriminate; intuition discriminate.
Qed.

(** C6, as the code has it.  The accelerometer self test returns 1
    exactly when the measurement counter [_accel_read] is zero (no sample
    since construction or since the last reset), or some axis offset is
    zero within the tolerance, or some axis scale is off 1.0 by more than
    0.4 or by less than the tolerance; otherwise it returns 0.  The
    magnetometer self test does the same with [_mag_read] and the three
    offsets and does not look at the scales.  Both return 0 or 1 on every
    object. *)
Theorem self_tests_fail_iff_counter_zero_or_calibration_fails d :
  (accel_self_test d = 1 <->
     _accel_read d = 0 \/ accel_calibration_fails (_accel_scale d)) /\
  (accel_self_test d = 0 <->
     ~ (_accel_read d = 0 \/ accel_calibration_fails (_accel_scale d))) /\
  (mag_self_test d = 1 <->
     _mag_read d = 0 \/ mag_calibration_fails (_mag_scale d)) /\
  (mag_self_test d = 0 <->
     ~ (_mag_read d = 0 \/ mag_calibration_fails (_mag_scale d))).
Proof.
  unfold accel_self_test, mag_self_test, accel_calibration_fails,
    mag_calibration_fails, offset_is_zero, scale_is_implausible. cbv zeta.
  destruct (Z.eqb_spec (_accel_read d) 0) as [Ha | Ha];
    destruct (Z.eqb_spec (_mag_read d) 0) as [Hm | Hm];
    repeat match goal with
      | |- context [(?a || ?b)%bool] => destruct a, b; cbn [orb]
      | |- context [if ?b then _ else _] => destruct b
      end;
    cbn [orb]; repeat apply conj; intros;
    try reflexivity; try discriminate; try lia; intuition (try discriminate; try lia).
Qed.

(** *** The head of the measurement routine *)

Lemma measure_not_ready s :
  accel_data_ready s = false ->
  measure s
  = (perf_count accel_reschedules ;; emit (hrt_call_delay accel_call 100))
      (exec (call (stm32_gpioread GPIO_EXTI_ACCEL_DRDY)) s).
Proof.
  intros H. unfold measure. rewrite bind_run. cbv beta.
  unfold accel_data_ready in H. rewrite H. reflexivity.
Qed.

Lemma measure_mismatch s :
  accel_data_ready s = true -> accel_registers_healthy s = false ->
  measure s
  = (perf_count reg1_resets ;; reset)
      (exec (read_reg ADDR_CTRL_REG1) (exec (call (stm32_gpioread GPIO_EXTI_ACCEL_DRDY)) s)).
Proof.
  intros Hr Hh. unfold measure. rewrite bind_run. cbv beta.
  unfold accel_data_ready in Hr. rewrite Hr. cbn [negb].
  rewrite bind_run. cbv beta. rewrite bind_run. cbv beta.
  change (eval (read_reg ADDR_CTRL_REG1) (exec (call (stm32_gpioread GPIO_EXTI_ACCEL_DRDY)) s)
          =? eval (member _reg1_expected)
               (exec (read_reg ADDR_CTRL_REG1)
                  (exec (call (stm32_gpioread GPIO_EXTI_ACCEL_DRDY)) s)))
    with (accel_registers_healthy s).
  rewrite Hh. reflexivity.
Qed.

(** C7.  Whenever the data-ready input reads not ready, [measure]
    leaves the object as it was but for one more event on the reschedule
    counter: nothing is pushed into the sample buffer, the measurement
    counters, the configuration and the calibration are unchanged.  It
    makes exactly one call to the scheduler, a re-arm of the accelerometer
    trigger with a delay of 100 microseconds, and does not touch the bus. *)
Theorem measure_not_ready_reschedules_once s :
  accel_data_ready s = false ->
  drv (exec measure s) = drv (exec (perf_count accel_reschedules) s) /\
  _accel_reports (drv (exec measure s)) = _accel_reports (drv s) /\
  _mag_reports (drv (exec measure s)) = _mag_reports (drv s) /\
  _accel_read (drv (exec measure s)) = _accel_read (drv s) /\
  _mag_read (drv (exec measure s)) = _mag_read (drv s) /\
  accel_samples_produced (drv (exec measure s)) = accel_samples_produced (drv s) /\
  config_of (drv (exec measure s)) = config_of (drv s) /\
  _accel_range_scale (drv (exec measure s)) = _accel_range_scale (drv s) /\
  _reg1_expected (drv (exec measure s)) = _reg1_expected (drv s) /\
  _accel_scale (drv (exec measure s)) = _accel_scale (drv s) /\
  _mag_scale (drv (exec measure s)) = _mag_scale (drv s) /\
  _perf (drv (exec measure s)) accel_reschedules = _perf (drv s) accel_reschedules + 1 /\
  events (exec measure s) = events s ++ [hrt_call_delay accel_call 100] /\
  hw (exec measure s) = snd (stm32_gpioread GPIO_EXTI_ACCEL_DRDY (hw s)).
Proof.
  intros H. unfold exec.
  rewrite (measure_not_ready s H). repeat apply conj; reflexivity.
Qed.

(** *** The manual read of the magnetometer node *)

Lemma mag_reports_get_empty s :
  rb_items (_mag_reports (drv s)) = [] ->
  eval mag_reports_get s = None /\
  rb_items (_mag_reports (drv (exec mag_reports_get s))) = [].
Proof.
  intros H. unfold eval, exec, mag_reports_get. cbn. unfold rb_get. rewrite H.
  split; [reflexivity | exact H].
Qed.

(** C1, what the code does.  With automatic polling of the
    magnetometer off and room for one report in the caller's buffer,
    [mag_read] empties the magnetometer buffer and then runs [measure],
    the accelerometer routine: it returns 0 bytes and no report, the
    magnetometer buffer is empty afterwards and no magnetometer sample was
    taken. *)
Theorem mag_read_manual_returns_no_sample s (buflen : Z) :
  _call_mag_interval (drv s) = 0 ->
  1 <= to_unsigned (buflen / sizeof_mag_report) ->
  eval (mag_read buflen) s = (0, []) /\
  rb_items (_mag_reports (drv (exec (mag_read buflen) s))) = [] /\
  mag_samples_produced (drv (exec (mag_read buflen) s)) = mag_samples_produced (drv s).
Proof.
  intros Hmanual Hcount. unfold eval, exec, mag_read. cbv zeta.
  destruct (Z.ltb_spec (to_unsigned (buflen / sizeof_mag_report)) 1) as [Hlt | _]; [lia |].
  rewrite bind_run. cbv beta.
  change (eval (member _call_mag_interval) s) with (_call_mag_interval (drv s)).
  rewrite Hmanual. change (0 <? 0) with false. cbv iota.
  rewrite !bind_run. cbv beta.
  set (s1 := exec (assign (fun d => set_mag_reports (rb_flush (_mag_reports d)) d))
               (exec (member _call_mag_interval) s)).
  set (s2 := exec measure s1).
  assert (Hempty : rb_items (_mag_reports (drv s2)) = []).
  { unfold s2. rewrite (measure_keeps_mag_reports s1). reflexivity. }
  destruct (mag_reports_get_empty s2 Hempty) as [Hnone Hstill].
  rewrite Hnone. repeat apply conj.
  - reflexivity.
  - exact Hstill.
  - change (mag_samples_produced (drv s2) = mag_samples_produced (drv s1)).
    apply measure_takes_no_mag_sample.
Qed.

(** *** Measurement counters *)

Lemma run_counts_accel_samples e :
  respects (W := W) (no_sample_since (@_accel_read F) accel_sample_perf) (run e).
Proof. destruct e as [cmd | cmd | buflen | buflen | |]; try destruct cmd; respects_method. Qed.

Lemma run_counts_mag_samples e :
  respects (W := W) (no_sample_since (@_mag_read F) mag_sample_perf) (run e).
Proof. destruct e as [cmd | cmd | buflen | buflen | |]; try destruct cmd; respects_method. Qed.

Lemma run_all_respects (R : LSM303D F -> LSM303D F -> Prop) {RP : PreOrder R} :
  (forall e, respects (W := W) R (run e)) -> forall l, respects (W := W) R (run_all l).
Proof.
  intros H l. induction l as [| e l IH]; cbn [run_all].
  - apply respects_ret; exact _.
  - apply respects_bind; [exact _ | apply H | intro; exact IH].
Qed.

Lemma measure_completes s :
  accel_data_ready s = true -> accel_registers_healthy s = true ->
  _accel_read (drv (exec measure s)) = to_unsigned (_accel_read (drv s) + 1) /\
  accel_samples_produced (drv (exec measure s)) = accel_samples_produced (drv s) + 1 /\
  exists report,
    _accel_reports (drv (exec measure s)) = rb_force report (_accel_reports (drv s)).
Proof.
  intros Hr Hh. unfold exec, measure. rewrite bind_run. cbv beta.
  unfold accel_data_ready in Hr. rewrite Hr. cbn [negb].
  rewrite bind_run. cbv beta. rewrite bind_run. cbv beta.
  change (eval (read_reg ADDR_CTRL_REG1) (exec (call (stm32_gpioread GPIO_EXTI_ACCEL_DRDY)) s)
          =? eval (member _reg1_expected)
               (exec (read_reg ADDR_CTRL_REG1)
                  (exec (call (stm32_gpioread GPIO_EXTI_ACCEL_DRDY)) s)))
    with (accel_registers_healthy s).
  rewrite Hh. cbn [negb]. cbv zeta. rewrite !bind_run. cbv beta.
  match goal with
  | |- context [if ?c then emit _ else ret _] => destruct c
  end; (split; [reflexivity | split; [reflexivity | eexists; reflexivity]]).
Qed.

Lemma rb_force_then_get T (x : T) (b : RingBuffer T) :
  (0 < rb_capacity b)%nat -> exists y, fst (rb_get (rb_force x b)) = Some y.
Proof.
  intros Hcap. unfold rb_get.
  destruct (rb_items (rb_force x b)) as [| y l] eqn:Hitems.
  - apply (f_equal (@length T)) in Hitems. unfold rb_force in Hitems.
    cbn [rb_items rb_capacity] in Hitems.
    rewrite length_skipn, length_app in Hitems. cbn [length] in Hitems. lia.
  - exists y. reflexivity.
Qed.

(** The manual read of the accelerometer node, for comparison with the
    magnetometer's: when the measurement goes through, the caller gets one
    report. *)
Lemma read_manual_returns_one_sample s (buflen : Z) :
  _call_accel_interval (drv s) = 0 ->
  1 <= to_unsigned (buflen / sizeof_accel_report) ->
  (0 < rb_capacity (_accel_reports (drv s)))%nat ->
  accel_data_ready s = true -> accel_registers_healthy s = true ->
  exists arb, eval (read buflen) s = (sizeof_accel_report, [arb]).
Proof.
  intros Hmanual Hcount Hcap Hr Hh. unfold eval, read. cbv zeta.
  destruct (Z.ltb_spec (to_unsigned (buflen / sizeof_accel_report)) 1) as [Hlt | _]; [lia |].
  rewrite bind_run. cbv beta.
  change (eval (member _call_accel_interval) s) with (_call_accel_interval (drv s)).
  rewrite Hmanual. change (0 <? 0) with false. cbv iota.
  rewrite !bind_run. cbv beta.
  set (s1 := exec (member _call_accel_interval) s).
  destruct (measure_completes s1 Hr Hh) as (_ & _ & report & Hforce).
  change (eval accel_reports_get (exec measure s1))
    with (fst (rb_get (_accel_reports (drv (exec measure s1))))).
  rewrite Hforce.
  destruct (rb_force_then_get _ report (_accel_reports (drv s1)) Hcap) as [arb Harb].
  rewrite Harb. exists arb. reflexivity.
Qed.

Lemma mag_measure_mismatch s :
  mag_registers_healthy s = false ->
  mag_measure s = (perf_count reg7_resets ;; reset) (exec (read_reg ADDR_CTRL_REG7) s).
Proof.
  intros Hh. unfold mag_measure. rewrite bind_run. cbv beta. rewrite bind_run. cbv beta.
  change (eval (read_reg ADDR_CTRL_REG7) s
          =? eval (member _reg7_expected) (exec (read_reg ADDR_CTRL_REG7) s))
    with (mag_registers_healthy s).
  rewrite Hh. reflexivity.
Qed.

Lemma mag_measure_completes s :
  mag_registers_healthy s = true ->
  _mag_read (drv (exec mag_measure s)) = to_unsigned (_mag_read (drv s) + 1) /\
  mag_samples_produced (drv (exec mag_measure s)) = mag_samples_produced (drv s) + 1.
Proof.
  intros Hh. unfold exec, mag_measure. rewrite bind_run. cbv beta. rewrite bind_run. cbv beta.
  change (eval (read_reg ADDR_CTRL_REG7) s
          =? eval (member _reg7_expected) (exec (read_reg ADDR_CTRL_REG7) s))
    with (mag_registers_healthy s).
  rewrite Hh. cbn [negb]. cbv zeta. rewrite !bind_run. cbv beta.
  match goal with
  | |- context [if ?c then emit _ else ret _] => destruct c
  end; split; reflexivity.
Qed.

(** C9.  Every call of [reset] leaves both measurement counters at
    zero, so both self tests report 1 right after it.  The same holds when
    the watchdog of [measure] or of [mag_measure] finds its control
    register changed and resets.  After a reset a self test keeps
    reporting 1 over any sequence of calls into the driver during which
    the channel completes no measurement; the first measurement that
    completes sets the channel's counter to 1. *)
Theorem reset_zeroes_measurement_counters s :
  (_accel_read (drv (exec reset s)) = 0 /\ _mag_read (drv (exec reset s)) = 0) /\
  (accel_self_test (drv (exec reset s)) = 1 /\ mag_self_test (drv (exec reset s)) = 1) /\
  (accel_data_ready s = true -> accel_registers_healthy s = false ->
     (_accel_read (drv (exec measure s)) = 0 /\ _mag_read (drv (exec measure s)) = 0) /\
     (accel_self_test (drv (exec measure s)) = 1 /\
      mag_self_test (drv (exec measure s)) = 1)) /\
  (mag_registers_healthy s = false ->
     (_accel_read (drv (exec mag_measure s)) = 0 /\
      _mag_read (drv (exec mag_measure s)) = 0) /\
     (accel_self_test (drv (exec mag_measure s)) = 1 /\
      mag_self_test (drv (exec mag_measure s)) = 1)) /\
  (forall l,
     accel_samples_produced (drv (exec (run_all l) (exec reset s)))
     = accel_samples_produced (drv (exec reset s)) ->
     accel_self_test (drv (exec (run_all l) (exec reset s))) = 1) /\
  (forall l,
     mag_samples_produced (drv (exec (run_all l) (exec reset s)))
     = mag_samples_produced (drv (exec reset s)) ->
     mag_self_test (drv (exec (run_all l) (exec reset s))) = 1) /\
  (accel_data_ready (exec reset s) = true ->
   accel_registers_healthy (exec reset s) = true ->
     _accel_read (drv (exec measure (exec reset s))) = 1) /\
  (mag_registers_healthy (exec reset s) = true ->
     _mag_read (drv (exec mag_measure (exec reset s))) = 1).
Proof.
  repeat apply conj; try reflexivity.
  - intros Hr Hh. unfold exec. rewrite (measure_mismatch s Hr Hh).
    repeat apply conj; reflexivity.
  - intros Hh. unfold exec. rewrite (mag_measure_mismatch s Hh).
    repeat apply conj; reflexivity.
  - intros l Hsame. apply accel_self_test_without_samples.
    destruct (run_all_respects _ run_counts_accel_samples l (exec reset s)) as [_ Hzero].
    apply Hzero; [exact Hsame | reflexivity].
  - intros l Hsame. apply mag_self_test_without_samples.
    destruct (run_all_respects _ run_counts_mag_samples l (exec reset s)) as [_ Hzero].
    apply Hzero; [exact Hsame | reflexivity].
  - intros Hr Hh. destruct (measure_completes _ Hr Hh) as (-> & _). reflexivity.
  - intros Hh. destruct (mag_measure_completes _ Hh) as [-> _]. reflexivity.
Qed.

(** C2, as the code has it.  Whatever was configured before, after
    [reset] the active accelerometer range, sample rate, on-chip filter
    bandwidth, driver filter cutoff, magnetometer range and magnetometer
    rate are the driver defaults (8 g, 800 Hz, 50 Hz, 30 Hz, 2 Ga,
    100 Hz).  This holds for the reset command of either node and for a
    reset by the watchdog of either measurement routine; the range and the
    cutoff read back through the control interface are 8 g and 30 Hz. *)
Theorem reset_applies_default_configuration s :
  config_of (drv (exec reset s)) = default_config /\
  config_of (drv (exec (ioctl SENSORIOCRESET) s)) = default_config /\
  config_of (drv (exec (mag_ioctl SENSORIOCRESET) s)) = default_config /\
  (accel_data_ready s = true -> accel_registers_healthy s = false ->
     config_of (drv (exec measure s)) = default_config) /\
  (mag_registers_healthy s = false ->
     config_of (drv (exec mag_measure s)) = default_config) /\
  eval (ioctl ACCELIOCGRANGE) (exec reset s) = LSM303D_ACCEL_DEFAULT_RANGE_G /\
  eval (ioctl ACCELIOCGLOWPASS) (exec reset s) = LSM303D_ACCEL_DEFAULT_DRIVER_FILTER_FREQ.
Proof.
  repeat apply conj.
  - lazy; reflexivity.
  - lazy; reflexivity.
  - lazy; reflexivity.
  - intros Hr Hh. unfold exec. rewrite (measure_mismatch s Hr Hh). lazy; reflexivity.
  - intros Hh. unfold exec. rewrite (mag_measure_mismatch s Hh). lazy; reflexivity.
  - lazy; reflexivity.
  - lazy; reflexivity.
Qed.

End Properties.

(** C2, counterexample.  On the bench configured away from every
    default, [reset] does not bring back the configured values: none of
    the six settings survives. *)
Lemma reset_discards_configured_values :
  ~ reset_reapplies_configuration bench_configured.
Proof.
  unfold reset_reapplies_configuration. vm_compute. discriminate.
Qed.

(** C6, counterexample.  The bench that was calibrated and sampled once
    on each channel passes both self tests.  After a reset both channels
    have still produced that sample and the calibration is the same, yet
    both self tests report 1: failing is not equivalent to no sample ever
    having been produced or the calibration being off. *)
Lemma self_test_fails_after_reset_despite_samples :
  let before := drv bench_sampled in
  let d := drv bench_sampled_then_reset in
  (accel_self_test before = 0 /\ mag_self_test before = 0) /\
  (accel_samples_produced d = 1 /\ mag_samples_produced d = 1) /\
  ~ (accel_self_test d = 1 <->
       accel_samples_produced d = 0 \/ accel_calibration_fails (_accel_scale d)) /\
  ~ (mag_self_test d = 1 <->
       mag_samples_produced d = 0 \/ mag_calibration_fails (_mag_scale d)).
Proof.
  intros before d.
  assert (Hpass_a : accel_self_test before = 0) by (vm_compute; reflexivity).
  assert (Hpass_m : mag_self_test before = 0) by (vm_compute; reflexivity).
  assert (Hone_a : accel_samples_produced d = 1) by (vm_compute; reflexivity).
  assert (Hone_m : mag_samples_produced d = 1) by (vm_compute; reflexivity).
  assert (Hfail_a : accel_self_test d = 1) by (vm_compute; reflexivity).
  assert (Hfail_m : mag_self_test d = 1) by (vm_compute; reflexivity).
  assert (Hsame_a : _accel_scale d = _accel_scale before)
    by exact (reset_keeps_accel_scale bench_sampled).
  assert (Hsame_m : _mag_scale d = _mag_scale before)
    by exact (reset_keeps_mag_scale bench_sampled).
  split; [split; assumption |]. split; [split; assumption |]. split.
  - intros [H _]. destruct (H Hfail_a) as [Hz | Hc].
    + rewrite Hone_a in Hz. discriminate.
    + rewrite Hsame_a in Hc. exact (accel_self_test_pass_calibration before Hpass_a Hc).
  - intros [H _]. destruct (H Hfail_m) as [Hz | Hc].
    + rewrite Hone_m in Hz. discriminate.
    + rewrite Hsame_m in Hc. exact (mag_self_test_pass_calibration before Hpass_m Hc).
Qed.

(** ** Runs on the bench *)

(** C2 on the configured bench after a brownout: the watchdog of either
    routine resets, and the configuration is the default one, not the one
    that was configured. *)
Lemma reset_applies_default_configuration_witness :
  config_of (drv bench_configured_brownout) <> default_config /\
  config_of (drv (exec measure bench_configured_brownout)) = default_config /\
  config_of (drv (exec mag_measure bench_configured_brownout)) = default_config.
Proof.
  assert (Hready : accel_data_ready bench_configured_brownout = true)
    by (vm_compute; reflexivity).
  assert (Hlost1 : accel_registers_healthy bench_configured_brownout = false)
    by (vm_compute; reflexivity).
  assert (Hlost7 : mag_registers_healthy bench_configured_brownout = false)
    by (vm_compute; reflexivity).
  pose proof (reset_applies_default_configuration bench_configured_brownout)
    as (_ & _ & _ & Haccel & Hmag & _).
  split; [vm_compute; discriminate |].
  split; [exact (Haccel Hready Hlost1) | exact (Hmag Hlost7)].
Defined.

(** C1 on the bench: a manual read of one report's size returns nothing. *)
Lemma mag_read_manual_returns_no_sample_witness :
  _call_mag_interval (drv bench_sampled) = 0 /\
  1 <= to_unsigned (48 / sizeof_mag_report) /\
  eval (mag_read 48) bench_sampled = (0, []) /\
  rb_items (_mag_reports (drv (exec (mag_read 48) bench_sampled))) = [] /\
  mag_samples_produced (drv (exec (mag_read 48) bench_sampled))
  = mag_samples_produced (drv bench_sampled).
Proof.
  assert (Hmanual : _call_mag_interval (drv bench_sampled) = 0)
    by (vm_compute; reflexivity).
  assert (Hroom : 1 <= to_unsigned (48 / sizeof_mag_report))
    by (vm_compute; discriminate).
  split; [exact Hmanual |]. split; [exact Hroom |].
  exact (mag_read_manual_returns_no_sample bench_sampled 48 Hmanual Hroom).
Defined.

(** C3 on the bench: 300 Hz requested, 400 Hz active. *)
Lemma samplerate_setters_select_smallest_covering_rate_witness :
  0 <= 300 /\
  _accel_samplerate (drv (exec (accel_set_samplerate 300) bench_ready)) = 400.
Proof.
  assert (Hpos : 0 <= 300) by (vm_compute; discriminate).
  split; [exact Hpos |].
  pose proof (samplerate_setters_select_smallest_covering_rate bench_ready 300 Hpos)
    as (_ & _ & _ & _ & _ & H).
  exact (H eq_refl).
Defined.

(** C4 on the bench: 5 g requested, 6 g active. *)
Lemma range_setters_select_smallest_covering_range_witness :
  0 <= 5 /\
  _accel_range_m_s2 (drv (exec (accel_set_range 5) bench_ready)) = g_to_m_s2 6 /\
  eval (ioctl ACCELIOCGRANGE) (exec (accel_set_range 5) bench_ready) = 6.
Proof.
  assert (Hpos : 0 <= 5) by (vm_compute; discriminate).
  split; [exact Hpos |].
  pose proof (range_setters_select_smallest_covering_range bench_ready 5 Hpos)
    as (_ & _ & _ & _ & _ & H).
  exact (H eq_refl).
Defined.

(** C7 on the bench with the data-ready line low. *)
Lemma measure_not_ready_reschedules_once_witness :
  accel_data_ready bench_not_ready = false /\
  _accel_reports (drv (exec measure bench_not_ready)) = _accel_reports (drv bench_not_ready) /\
  events (exec measure bench_not_ready)
  = events bench_not_ready ++ [hrt_call_delay accel_call 100].
Proof.
  assert (Hlow : accel_data_ready bench_not_ready = false) by (vm_compute; reflexivity).
  split; [exact Hlow |].
  pose proof (measure_not_ready_reschedules_once bench_not_ready Hlow)
    as (_ & Hbuf & _ & _ & _ & _ & _ & _ & _ & _ & _ & _ & Hev & _).
  split; [exact Hbuf | exact Hev].
Defined.

(** C9 on the bench after a brownout: the watchdog of either routine
    resets and both counters, which stood at 1, are zero again. *)
Lemma reset_zeroes_measurement_counters_witness :
  (_accel_read (drv bench_brownout) = 1 /\ _mag_read (drv bench_brownout) = 1) /\
  (accel_data_ready bench_brownout = true /\
   accel_registers_healthy bench_brownout = false /\
   mag_registers_healthy bench_brownout = false) /\
  (_accel_read (drv (exec measure bench_brownout)) = 0 /\
   _mag_read (drv (exec measure bench_brownout)) = 0) /\
  (_accel_read (drv (exec mag_measure bench_brownout)) = 0 /\
   _mag_read (drv (exec mag_measure bench_brownout)) = 0).
Proof.
  assert (Hready : accel_data_ready bench_brownout = true) by (vm_compute; reflexivity).
  assert (Hlost1 : accel_registers_healthy bench_brownout = false)
    by (vm_compute; reflexivity).
  assert (Hlost7 : mag_registers_healthy bench_brownout = false)
    by (vm_compute; reflexivity).
  pose proof (reset_zeroes_measurement_counters bench_brownout)
    as (_ & _ & Haccel & Hmag & _).
  split; [split; vm_compute; reflexivity |].
  split; [repeat apply conj; assumption |].
  split.
  - exact (proj1 (Haccel Hready Hlost1)).
  - exact (proj1 (Hmag Hlost7)).
Defined.

(** * Further properties of the driver *)

Section ReadPaths.

Context {W F : Type} {PW : Platform W} {FC : FilterCore F} {BW : Build W}.

Implicit Types (s : Sys W F) (d : LSM303D F).

Lemma set_accel_reports_same d : set_accel_reports (_accel_reports d) d = d.
Proof. destruct d; reflexivity. Qed.

Lemma set_mag_reports_same d : set_mag_reports (_mag_reports d) d = d.
Proof. destruct d; reflexivity. Qed.

Lemma eval_bind A B (m : M W F A) (k : A -> M W F B) s :
  eval (bind m k) s = eval (k (eval m s)) (exec m s).
Proof. reflexivity. Qed.

Lemma exec_bind A B (m : M W F A) (k : A -> M W F B) s :
  exec (bind m k) s = exec (k (eval m s)) (exec m s).
Proof. reflexivity. Qed.

Lemma eval_ret A (a : A) s : eval (ret a) s = a.
Proof. reflexivity. Qed.

Lemma exec_ret A (a : A) s : exec (ret a) s = s.
Proof. reflexivity. Qed.

Lemma eval_member A (f : LSM303D F -> A) s : eval (member f) s = f (drv s).
Proof. reflexivity. Qed.

Lemma exec_member A (f : LSM303D F -> A) s : exec (member f) s = s.
Proof. reflexivity. Qed.

Lemma exec_assign upd s :
  exec (assign upd) s = {| drv := upd (drv s); hw := hw s; events := events s |}.
Proof. reflexivity. Qed.

Lemma exec_emit e s :
  exec (emit e) s = {| drv := drv s; hw := hw s; events := events s ++ [e] |}.
Proof. reflexivity. Qed.

Lemma accel_reports_get_takes_oldest s :
  eval accel_reports_get s = hd_error (rb_items (_accel_reports (drv s))) /\
  drv (exec accel_reports_get s)
  = set_accel_reports
      {| rb_capacity := rb_capacity (_accel_reports (drv s));
         rb_items := tl (rb_items (_accel_reports (drv s))) |} (drv s) /\
  hw (exec accel_reports_get s) = hw s /\
  events (exec accel_reports_get s) = events s.
Proof.
  unfold eval, exec, accel_reports_get. cbn. unfold rb_get.
  destruct (_accel_reports (drv s)) as [cap items]. cbn.
  destruct items; repeat apply conj; reflexivity.
Qed.

(** The copy loop of [read]: [count] rounds take the [count] oldest
    reports, or all of them if there are fewer, and change nothing but the
    buffer. *)
Lemma read_loop_takes_oldest count : forall ret_ out s,
  eval (read_loop count ret_ out) s
  = (ret_ + Z.of_nat (Nat.min count (length (rb_items (_accel_reports (drv s)))))
            * sizeof_accel_report,
     out ++ firstn count (rb_items (_accel_reports (drv s)))) /\
  drv (exec (read_loop count ret_ out) s)
  = set_accel_reports
      {| rb_capacity := rb_capacity (_accel_reports (drv s));
         rb_items := skipn count (rb_items (_accel_reports (drv s))) |} (drv s) /\
  hw (exec (read_loop count ret_ out) s) = hw s /\
  events (exec (read_loop count ret_ out) s) = events s.
Proof.
  induction count as [| count IH]; intros ret_ out s.
  - cbn [read_loop firstn skipn Nat.min]. unfold eval, exec, ret. cbn [fst snd].
    repeat apply conj; try reflexivity.
    + f_equal; [cbn; lia | symmetry; apply app_nil_r].
    + destruct (drv s) as []. cbn. destruct _accel_reports0. reflexivity.
  - cbn [read_loop]. rewrite eval_bind, exec_bind.
    destruct (accel_reports_get_takes_oldest s) as (Hget & Hd1 & Hh1 & Hev1).
    rewrite Hget.
    destruct (rb_items (_accel_reports (drv s))) as [| x l] eqn:Hitems; cbn [hd_error].
    + destruct (IH ret_ out (exec accel_reports_get s)) as (He & Hd & Hh & Hev).
      rewrite Hd1 in He, Hd.
      cbn [_accel_reports set_accel_reports rb_items rb_capacity tl] in He, Hd.
      rewrite firstn_nil in He. rewrite skipn_nil in Hd. rewrite firstn_nil, skipn_nil.
      cbn [length] in He. cbn [length]. rewrite Nat.min_0_r in He. rewrite Nat.min_0_r.
      repeat apply conj.
      * exact He.
      * rewrite Hd. reflexivity.
      * rewrite Hh. exact Hh1.
      * rewrite Hev. exact Hev1.
    + destruct (IH (ret_ + sizeof_accel_report) (out ++ [x]) (exec accel_reports_get s))
        as (He & Hd & Hh & Hev).
      rewrite Hd1 in He, Hd.
      cbn [_accel_reports set_accel_reports rb_items rb_capacity tl] in He, Hd.
      repeat apply conj.
      * rewrite He. cbn [firstn length]. rewrite <- app_assoc. cbn [app]. f_equal.
        rewrite <- Nat.succ_min_distr. lia.
      * rewrite Hd. reflexivity.
      * rewrite Hh. exact Hh1.
      * rewrite Hev. exact Hev1.
Qed.

Lemma mag_reports_get_takes_oldest s :
  eval mag_reports_get s = hd_error (rb_items (_mag_reports (drv s))) /\
  drv (exec mag_reports_get s)
  = set_mag_reports
      {| rb_capacity := rb_capacity (_mag_reports (drv s));
         rb_items := tl (rb_items (_mag_reports (drv s))) |} (drv s) /\
  hw (exec mag_reports_get s) = hw s /\
  events (exec mag_reports_get s) = events s.
Proof.
  unfold eval, exec, mag_reports_get. cbn. unfold rb_get.
  destruct (_mag_reports (drv s)) as [cap items]. cbn.
  destruct items; repeat apply conj; reflexivity.
Qed.

(** The same for the copy loop of [mag_read]. *)
Lemma mag_read_loop_takes_oldest count : forall ret_ out s,
  eval (mag_read_loop count ret_ out) s
  = (ret_ + Z.of_nat (Nat.min count (length (rb_items (_mag_reports (drv s)))))
            * sizeof_mag_report,
     out ++ firstn count (rb_items (_mag_reports (drv s)))) /\
  drv (exec (mag_read_loop count ret_ out) s)
  = set_mag_reports
      {| rb_capacity := rb_capacity (_mag_reports (drv s));
         rb_items := skipn count (rb_items (_mag_reports (drv s))) |} (drv s) /\
  hw (exec (mag_read_loop count ret_ out) s) = hw s /\
  events (exec (mag_read_loop count ret_ out) s) = events s.
Proof.
  induction count as [| count IH]; intros ret_ out s.
  - cbn [mag_read_loop firstn skipn Nat.min]. unfold eval, exec, ret. cbn [fst snd].
    repeat apply conj; try reflexivity.
    + f_equal; [cbn; lia | symmetry; apply app_nil_r].
    + destruct (drv s) as []. cbn. destruct _mag_reports0. reflexivity.
  - cbn [mag_read_loop]. rewrite eval_bind, exec_bind.
    destruct (mag_reports_get_takes_oldest s) as (Hget & Hd1 & Hh1 & Hev1).
    rewrite Hget.
    destruct (rb_items (_mag_reports (drv s))) as [| x l] eqn:Hitems; cbn [hd_error].
    + destruct (IH ret_ out (exec mag_reports_get s)) as (He & Hd & Hh & Hev).
      rewrite Hd1 in He, Hd.
      cbn [_mag_reports set_mag_reports rb_items rb_capacity tl] in He, Hd.
      rewrite firstn_nil in He. rewrite skipn_nil in Hd. rewrite firstn_nil, skipn_nil.
      cbn [length] in He. cbn [length]. rewrite Nat.min_0_r in He. rewrite Nat.min_0_r.
      repeat apply conj.
      * exact He.
      * rewrite Hd. reflexivity.
      * rewrite Hh. exact Hh1.
      * rewrite Hev. exact Hev1.
    + destruct (IH (ret_ + sizeof_mag_report) (out ++ [x]) (exec mag_reports_get s))
        as (He & Hd & Hh & Hev).
      rewrite Hd1 in He, Hd.
      cbn [_mag_reports set_mag_reports rb_items rb_capacity tl] in He, Hd.
      repeat apply conj.
      * rewrite He. cbn [firstn length]. rewrite <- app_assoc. cbn [app]. f_equal.
        rewrite <- Nat.succ_min_distr. lia.
      * rewrite Hd. reflexivity.
      * rewrite Hh. exact Hh1.
      * rewrite Hev. exact Hev1.
Qed.

(** *** Too small a buffer *)

(** X1.  A read with room for less than one report returns [-ENOSPC] on
    either node and leaves the whole state as it was: nothing is measured,
    nothing is taken from the buffer. *)
Theorem read_rejects_short_buffer s (buflen : Z) :
  (0 <= buflen < sizeof_accel_report -> read buflen s = ((- ENOSPC, []), s)) /\
  (0 <= buflen < sizeof_mag_report -> mag_read buflen s = ((- ENOSPC, []), s)).
Proof.
  split; intros Hsmall.
  - unfold read. cbv zeta. rewrite (Z.div_small _ _ Hsmall). reflexivity.
  - unfold mag_read. cbv zeta. rewrite (Z.div_small _ _ Hsmall). reflexivity.
Qed.

(** *** Automatic mode *)

Lemma count_needs_sizeof (buflen size : Z) : 1 <= to_unsigned (buflen / size) -> size <> 0.
Proof.
  intros H Hz. subst size. rewrite Z.div_0_r in H. unfold to_unsigned in H.
  rewrite Z.mod_0_l in H by (cbv; discriminate). lia.
Qed.

(** X2.  With automatic polling on, a read of the accelerometer node
    with room for [count] reports returns the [count] oldest buffered
    reports, oldest first (all of them if fewer are buffered), and their
    size in bytes; the remaining reports stay buffered in order.  It takes
    no measurement, makes no bus access and no call to the scheduler:
    nothing but the buffer changes. *)
Theorem read_automatic_is_fifo s (buflen : Z) :
  0 < _call_accel_interval (drv s) ->
  1 <= to_unsigned (buflen / sizeof_accel_report) ->
  rb_items (_accel_reports (drv s)) <> [] ->
  let count := Z.to_nat (to_unsigned (buflen / sizeof_accel_report)) in
  let buffered := rb_items (_accel_reports (drv s)) in
  eval (read buflen) s
  = (Z.of_nat (Nat.min count (length buffered)) * sizeof_accel_report,
     firstn count buffered) /\
  drv (exec (read buflen) s)
  = set_accel_reports
      {| rb_capacity := rb_capacity (_accel_reports (drv s));
         rb_items := skipn count buffered |} (drv s) /\
  hw (exec (read buflen) s) = hw s /\
  events (exec (read buflen) s) = events s.
Proof.
  intros Hauto Hcount Hsome count buffered.
  pose proof (count_needs_sizeof _ _ Hcount) as Hsize.
  unfold read. cbv zeta.
  destruct (Z.ltb_spec (to_unsigned (buflen / sizeof_accel_report)) 1) as [Hlt | _]; [lia |].
  rewrite eval_bind, exec_bind.
  change (eval (member _call_accel_interval) s) with (_call_accel_interval (drv s)).
  destruct (Z.ltb_spec 0 (_call_accel_interval (drv s))) as [_ | Hle]; [| lia].
  rewrite eval_bind, exec_bind.
  destruct (read_loop_takes_oldest count 0 [] (exec (member _call_accel_interval) s))
    as (He & Hd & Hh & Hev).
  fold count. rewrite He.
  change (drv (exec (member _call_accel_interval) s)) with (drv s) in He, Hd.
  change (drv (exec (member _call_accel_interval) s)) with (drv s).
  fold buffered in Hd. fold buffered.
  assert (Hn : (1 <= Nat.min count (length buffered))%nat).
  { assert (1 <= count)%nat by (unfold count; lia).
    assert (1 <= length buffered)%nat.
    { unfold buffered. destruct (rb_items (_accel_reports (drv s)));
        [congruence | cbn [length]; lia]. }
    lia. }
  cbn [fst snd app].
  destruct (Z.eqb_spec (0 + Z.of_nat (Nat.min count (length buffered)) * sizeof_accel_report) 0)
    as [Hz | _]; [nia |].
  repeat apply conj.
  - reflexivity.
  - exact Hd.
  - exact Hh.
  - exact Hev.
Qed.

(** X3.  With automatic polling on, a read of the magnetometer node
    with room for [count] reports returns the [count] oldest buffered
    reports, oldest first (all of them if fewer are buffered), and their
    size in bytes; the remaining reports stay buffered in order.  It takes
    no measurement, makes no bus access and no call to the scheduler:
    nothing but the buffer changes. *)
Theorem mag_read_automatic_is_fifo s (buflen : Z) :
  0 < _call_mag_interval (drv s) ->
  1 <= to_unsigned (buflen / sizeof_mag_report) ->
  rb_items (_mag_reports (drv s)) <> [] ->
  let count := Z.to_nat (to_unsigned (buflen / sizeof_mag_report)) in
  let buffered := rb_items (_mag_reports (drv s)) in
  eval (mag_read buflen) s
  = (Z.of_nat (Nat.min count (length buffered)) * sizeof_mag_report,
     firstn count buffered) /\
  drv (exec (mag_read buflen) s)
  = set_mag_reports
      {| rb_capacity := rb_capacity (_mag_reports (drv s));
         rb_items := skipn count buffered |} (drv s) /\
  hw (exec (mag_read buflen) s) = hw s /\
  events (exec (mag_read buflen) s) = events s.
Proof.
  intros Hauto Hcount Hsome count buffered.
  pose proof (count_needs_sizeof _ _ Hcount) as Hsize.
  unfold mag_read. cbv zeta.
  destruct (Z.ltb_spec (to_unsigned (buflen / sizeof_mag_report)) 1) as [Hlt | _]; [lia |].
  rewrite eval_bind, exec_bind.
  change (eval (member _call_mag_interval) s) with (_call_mag_interval (drv s)).
  destruct (Z.ltb_spec 0 (_call_mag_interval (drv s))) as [_ | Hle]; [| lia].
  rewrite eval_bind, exec_bind.
  destruct (mag_read_loop_takes_oldest count 0 [] (exec (member _call_mag_interval) s))
    as (He & Hd & Hh & Hev).
  fold count. rewrite He.
  change (drv (exec (member _call_mag_interval) s)) with (drv s) in He, Hd.
  change (drv (exec (member _call_mag_interval) s)) with (drv s).
  fold buffered in Hd. fold buffered.
  assert (Hn : (1 <= Nat.min count (length buffered))%nat).
  { assert (1 <= count)%nat by (unfold count; lia).
    assert (1 <= length buffered)%nat.
    { unfold buffered. destruct (rb_items (_mag_reports (drv s)));
        [congruence | cbn [length]; lia]. }
    lia. }
  cbn [fst snd app].
  destruct (Z.eqb_spec (0 + Z.of_nat (Nat.min count (length buffered)) * sizeof_mag_report) 0)
    as [Hz | _]; [nia |].
  repeat apply conj.
  - reflexivity.
  - exact Hd.
  - exact Hh.
  - exact Hev.
Qed.

(** X4.  With automatic polling on and nothing buffered, a read of
    either node returns [-EAGAIN] and no report, and changes nothing: the
    driver does not measure on behalf of the reader. *)
Theorem read_automatic_empty_is_eagain s (buflen : Z) :
  (0 < _call_accel_interval (drv s) ->
   1 <= to_unsigned (buflen / sizeof_accel_report) ->
   rb_items (_accel_reports (drv s)) = [] ->
   eval (read buflen) s = (- EAGAIN, []) /\
   drv (exec (read buflen) s) = drv s /\
   hw (exec (read buflen) s) = hw s /\
   events (exec (read buflen) s) = events s) /\
  (0 < _call_mag_interval (drv s) ->
   1 <= to_unsigned (buflen / sizeof_mag_report) ->
   rb_items (_mag_reports (drv s)) = [] ->
   eval (mag_read buflen) s = (- EAGAIN, []) /\
   drv (exec (mag_read buflen) s) = drv s /\
   hw (exec (mag_read buflen) s) = hw s /\
   events (exec (mag_read buflen) s) = events s).
Proof.
  split; intros Hauto Hcount Hnone.
  - unfold read. cbv zeta.
    destruct (Z.ltb_spec (to_unsigned (buflen / sizeof_accel_report)) 1) as [Hlt | _]; [lia |].
    rewrite eval_bind, exec_bind.
    change (eval (member _call_accel_interval) s) with (_call_accel_interval (drv s)).
    destruct (Z.ltb_spec 0 (_call_accel_interval (drv s))) as [_ | Hle]; [| lia].
    rewrite eval_bind, exec_bind.
    destruct (read_loop_takes_oldest (Z.to_nat (to_unsigned (buflen / sizeof_accel_report)))
                0 [] (exec (member _call_accel_interval) s)) as (He & Hd & Hh & Hev).
    change (drv (exec (member _call_accel_interval) s)) with (drv s) in He, Hd.
    rewrite Hnone in He, Hd. rewrite firstn_nil in He. rewrite skipn_nil in Hd.
    cbn [length] in He. rewrite Nat.min_0_r in He.
    rewrite He. cbn [fst snd app Z.of_nat Z.mul Z.add Z.eqb].
    repeat apply conj.
    + reflexivity.
    + change (drv (exec (read_loop (Z.to_nat (to_unsigned (buflen / sizeof_accel_report))) 0 [])
                     (exec (member _call_accel_interval) s)) = drv s).
      rewrite Hd. rewrite <- Hnone.
      destruct (drv s) as []. cbn. destruct _accel_reports0. reflexivity.
    + exact Hh.
    + exact Hev.
  - unfold mag_read. cbv zeta.
    destruct (Z.ltb_spec (to_unsigned (buflen / sizeof_mag_report)) 1) as [Hlt | _]; [lia |].
    rewrite eval_bind, exec_bind.
    change (eval (member _call_mag_interval) s) with (_call_mag_interval (drv s)).
    destruct (Z.ltb_spec 0 (_call_mag_interval (drv s))) as [_ | Hle]; [| lia].
    rewrite eval_bind, exec_bind.
    destruct (mag_read_loop_takes_oldest (Z.to_nat (to_unsigned (buflen / sizeof_mag_report)))
                0 [] (exec (member _call_mag_interval) s)) as (He & Hd & Hh & Hev).
    change (drv (exec (member _call_mag_interval) s)) with (drv s) in He, Hd.
    rewrite Hnone in He, Hd. rewrite firstn_nil in He. rewrite skipn_nil in Hd.
    cbn [length] in He. rewrite Nat.min_0_r in He.
    rewrite He. cbn [fst snd app Z.of_nat Z.mul Z.add Z.eqb].
    repeat apply conj.
    + reflexivity.
    + change (drv (exec (mag_read_loop (Z.to_nat (to_unsigned (buflen / sizeof_mag_report))) 0 [])
                     (exec (member _call_mag_interval) s)) = drv s).
      rewrite Hd. rewrite <- Hnone.
      destruct (drv s) as []. cbn. destruct _mag_reports0. reflexivity.
    + exact Hh.
    + exact Hev.
Qed.

(** *** Manual mode of the accelerometer node *)

Lemma rb_force_into_room T (x : T) (b : RingBuffer T) :
  (length (rb_items b) < rb_capacity b)%nat ->
  rb_items (rb_force x b) = rb_items b ++ [x].
Proof.
  intros Hroom. unfold rb_force. cbn [rb_items rb_capacity].
  rewrite length_app. cbn [length].
  replace (length (rb_items b) + 1 - rb_capacity b)%nat with 0%nat by lia.
  reflexivity.
Qed.

(** X5.  With automatic polling off, a read of the accelerometer node
    measures once and, when the measurement goes through, returns exactly
    one report: the oldest one in the buffer after the fresh report was
    pushed.  On an empty buffer that is the fresh report; if an older
    report was still buffered (and the buffer had room) the caller gets
    that older report and the fresh one stays behind. *)
Theorem read_manual_returns_oldest s (buflen : Z) :
  _call_accel_interval (drv s) = 0 ->
  1 <= to_unsigned (buflen / sizeof_accel_report) ->
  (0 < rb_capacity (_accel_reports (drv s)))%nat ->
  accel_data_ready s = true -> accel_registers_healthy s = true ->
  exists fresh arb rest,
    rb_items (rb_force fresh (_accel_reports (drv s))) = arb :: rest /\
    eval (read buflen) s = (sizeof_accel_report, [arb]) /\
    rb_items (_accel_reports (drv (exec (read buflen) s))) = rest /\
    _accel_read (drv (exec (read buflen) s)) = to_unsigned (_accel_read (drv s) + 1) /\
    (rb_items (_accel_reports (drv s)) = [] -> arb = fresh /\ rest = []) /\
    (forall old l,
       rb_items (_accel_reports (drv s)) = old :: l ->
       (length (old :: l) < rb_capacity (_accel_reports (drv s)))%nat ->
       arb = old /\ rest = l ++ [fresh]).
Proof.
  intros Hmanual Hcount Hcap Hr Hh. unfold read. cbv zeta.
  destruct (Z.ltb_spec (to_unsigned (buflen / sizeof_accel_report)) 1) as [Hlt | _]; [lia |].
  rewrite eval_bind, exec_bind.
  change (eval (member _call_accel_interval) s) with (_call_accel_interval (drv s)).
  rewrite Hmanual. change (0 <? 0) with false. cbv iota.
  rewrite eval_bind, exec_bind, eval_bind, exec_bind.
  set (s1 := exec (member _call_accel_interval) s).
  destruct (measure_completes s1 Hr Hh) as (Hread & _ & fresh & Hforce).
  destruct (accel_reports_get_takes_oldest (exec measure s1)) as (Hget & Hd & _ & _).
  change (drv s1) with (drv s) in Hforce, Hread.
  rewrite Hforce in Hget, Hd. rewrite Hget.
  destruct (rb_force_then_get _ fresh (_accel_reports (drv s)) Hcap) as [arb Harb].
  unfold rb_get in Harb.
  destruct (rb_items (rb_force fresh (_accel_reports (drv s)))) as [| x rest] eqn:Hitems;
    [discriminate |].
  cbn [fst] in Harb. injection Harb as ->. cbn [hd_error tl] in Hd. cbn [hd_error].
  exists fresh, arb, rest.
  change (exec (ret (sizeof_accel_report, [arb])) (exec accel_reports_get (exec measure s1)))
    with (exec accel_reports_get (exec measure s1)).
  rewrite Hd. repeat apply conj.
  - exact Hitems.
  - reflexivity.
  - reflexivity.
  - exact Hread.
  - intros Hempty. unfold rb_force in Hitems. rewrite Hempty in Hitems.
    cbn [rb_items app length] in Hitems.
    replace (1 - rb_capacity (_accel_reports (drv s)))%nat with 0%nat in Hitems by lia.
    cbn [skipn] in Hitems. injection Hitems as -> ->. split; reflexivity.
  - intros old l Hold Hroom. rewrite rb_force_into_room in Hitems by (rewrite Hold; exact Hroom).
    rewrite Hold in Hitems. cbn [app] in Hitems. injection Hitems as -> ->.
    split; reflexivity.
Qed.

(** X6.  With automatic polling off and the data-ready line low, a read
    of the accelerometer node takes no measurement: it re-arms the timer
    with the 100 microsecond delay and returns the oldest buffered report
    if there is one, and 0 bytes if the buffer is empty. *)
Theorem read_manual_not_ready s (buflen : Z) :
  _call_accel_interval (drv s) = 0 ->
  1 <= to_unsigned (buflen / sizeof_accel_report) ->
  accel_data_ready s = false ->
  eval (read buflen) s
  = match rb_items (_accel_reports (drv s)) with
    | [] => (0, [])
    | arb :: _ => (sizeof_accel_report, [arb])
    end /\
  events (exec (read buflen) s) = events s ++ [hrt_call_delay accel_call 100] /\
  _accel_read (drv (exec (read buflen) s)) = _accel_read (drv s) /\
  accel_samples_produced (drv (exec (read buflen) s)) = accel_samples_produced (drv s).
Proof.
  intros Hmanual Hcount Hlow. unfold read. cbv zeta.
  destruct (Z.ltb_spec (to_unsigned (buflen / sizeof_accel_report)) 1) as [Hlt | _]; [lia |].
  rewrite eval_bind, exec_bind.
  change (eval (member _call_accel_interval) s) with (_call_accel_interval (drv s)).
  rewrite Hmanual. change (0 <? 0) with false. cbv iota.
  rewrite eval_bind, exec_bind, eval_bind, exec_bind.
  set (s1 := exec (member _call_accel_interval) s).
  assert (Hm : exec measure s1
               = exec (perf_count accel_reschedules ;; emit (hrt_call_delay accel_call 100))
                   (exec (call (stm32_gpioread GPIO_EXTI_ACCEL_DRDY)) s1)).
  { unfold exec at 1. rewrite (measure_not_ready s1 Hlow). reflexivity. }
  destruct (accel_reports_get_takes_oldest (exec measure s1)) as (Hget & Hd & _ & Hev).
  rewrite Hm in Hget, Hd, Hev.
  change (_accel_reports
            (drv (exec (perf_count accel_reschedules ;; emit (hrt_call_delay accel_call 100))
                    (exec (call (stm32_gpioread GPIO_EXTI_ACCEL_DRDY)) s1))))
    with (_accel_reports (drv s)) in Hget, Hd.
  rewrite Hm, Hget.
  destruct (rb_items (_accel_reports (drv s))) as [| arb l]; cbn [hd_error tl] in Hd;
    cbn [hd_error].
  - change (exec (ret (0, @nil accel_report)) ?x) with x.
    repeat apply conj; [reflexivity | exact Hev | rewrite Hd; reflexivity
                       | rewrite Hd; reflexivity].
  - change (exec (ret (sizeof_accel_report, [arb])) ?x) with x.
    repeat apply conj; [reflexivity | exact Hev | rewrite Hd; reflexivity
                       | rewrite Hd; reflexivity].
Qed.

End ReadPaths.

Section Measurements.

Context {W F : Type} {PW : Platform W} {FC : FilterCore F} {BW : Build W}.

Implicit Types (s : Sys W F) (d : LSM303D F).

Lemma to_int16_range lo hi : -32768 <= to_int16 lo hi <= 32767.
Proof.
  unfold to_int16, to_uint8. cbv zeta.
  pose proof (Z.mod_pos_bound lo 256 eq_refl).
  pose proof (Z.mod_pos_bound hi 256 eq_refl).
  destruct (Z.ltb_spec (lo mod 256 + 256 * (hi mod 256)) 32768); lia.
Qed.

(** X7.  When data is ready and the rate register reads as expected,
    [measure] commits exactly one report: it is pushed into the
    accelerometer buffer, readers are notified once, and the same report is
    published if and only if the topic is advertised and publishing is not
    blocked.  The report carries the scale and range in force, raw axes
    within 16 bits, and for each axis the output of that axis's filter on
    (raw * range scale - offset) * scale; each filter advances by that one
    sample.  The measurement counter goes up by one (modulo 2^32); the
    magnetometer channel, the configuration and the calibration are not
    touched, and the scheduler is not called. *)
Theorem measure_commits_one_report s :
  accel_data_ready s = true -> accel_registers_healthy s = true ->
  exists r : accel_report,
    _accel_reports (drv (exec measure s)) = rb_force r (_accel_reports (drv s)) /\
    events (exec measure s)
    = (if (0 <? _accel_topic (drv s)) && negb (_pub_blocked (drv s))
       then (events s ++ [poll_notify]) ++ [orb_publish_accel r]
       else events s ++ [poll_notify]) /\
    (a_scaling r = _accel_range_scale (drv s) /\
     a_range_m_s2 r = Float32.of_int (_accel_range_m_s2 (drv s)) /\
     a_error_count r = 0) /\
    (-32768 <= a_x_raw r <= 32767 /\ -32768 <= a_y_raw r <= 32767 /\
     -32768 <= a_z_raw r <= 32767) /\
    (let sc := _accel_scale (drv s) in
     let in_x := ((Float32.of_int (a_x_raw r) *. _accel_range_scale (drv s))
                  -. ax_offset sc) *. ax_scale sc in
     let in_y := ((Float32.of_int (a_y_raw r) *. _accel_range_scale (drv s))
                  -. ay_offset sc) *. ay_scale sc in
     let in_z := ((Float32.of_int (a_z_raw r) *. _accel_range_scale (drv s))
                  -. az_offset sc) *. az_scale sc in
     (a_x r, _accel_filter_x (drv (exec measure s))) = apply in_x (_accel_filter_x (drv s)) /\
     (a_y r, _accel_filter_y (drv (exec measure s))) = apply in_y (_accel_filter_y (drv s)) /\
     (a_z r, _accel_filter_z (drv (exec measure s))) = apply in_z (_accel_filter_z (drv s))) /\
    _accel_read (drv (exec measure s)) = to_unsigned (_accel_read (drv s) + 1) /\
    (_mag_reports (drv (exec measure s)) = _mag_reports (drv s) /\
     _mag_read (drv (exec measure s)) = _mag_read (drv s)) /\
    (config_of (drv (exec measure s)) = config_of (drv s) /\
     _accel_scale (drv (exec measure s)) = _accel_scale (drv s) /\
     _mag_scale (drv (exec measure s)) = _mag_scale (drv s)).
Proof.
  intros Hr Hh. unfold exec, measure. rewrite bind_run. cbv beta.
  unfold accel_data_ready in Hr. rewrite Hr. cbn [negb].
  rewrite bind_run. cbv beta. rewrite bind_run. cbv beta.
  change (eval (read_reg ADDR_CTRL_REG1) (exec (call (stm32_gpioread GPIO_EXTI_ACCEL_DRDY)) s)
          =? eval (member _reg1_expected)
               (exec (read_reg ADDR_CTRL_REG1)
                  (exec (call (stm32_gpioread GPIO_EXTI_ACCEL_DRDY)) s)))
    with (accel_registers_healthy s).
  rewrite Hh. cbn [negb]. cbv zeta. rewrite !bind_run. cbv beta.
  match goal with
  | |- context [if ?c then emit _ else ret _] =>
      change c with ((0 <? _accel_topic (drv s)) && negb (_pub_blocked (drv s)))
  end.
  destruct ((0 <? _accel_topic (drv s)) && negb (_pub_blocked (drv s)));
    (eexists; split; [reflexivity |]; split; [reflexivity |];
     split; [repeat apply conj; reflexivity |];
     split; [repeat apply conj; apply to_int16_range |];
     split; [repeat apply conj; reflexivity |];
     split; [reflexivity |]; split; [split; reflexivity |];
     repeat apply conj; reflexivity).
Qed.

(** X8.  When the mode register reads as expected, [mag_measure]
    commits exactly one report: pushed into the magnetometer buffer, readers
    notified once, the same report published if and only if the topic is
    advertised and publishing is not blocked.  Each physical axis is
    (raw * range scale - offset) * scale, unfiltered, with the raw axes
    within 16 bits.  The counter goes up by one (modulo 2^32); the
    accelerometer channel and its filters, the configuration and the
    calibration are not touched, and the scheduler is never called. *)
Theorem mag_measure_commits_one_report s :
  mag_registers_healthy s = true ->
  exists r : mag_report,
    _mag_reports (drv (exec mag_measure s)) = rb_force r (_mag_reports (drv s)) /\
    events (exec mag_measure s)
    = (if (0 <? _mag_topic (drv s)) && negb (_pub_blocked (drv s))
       then (events s ++ [poll_notify]) ++ [orb_publish_mag r]
       else events s ++ [poll_notify]) /\
    (m_scaling r = _mag_range_scale (drv s) /\
     m_range_ga r = Float32.of_int (_mag_range_ga (drv s))) /\
    (-32768 <= m_x_raw r <= 32767 /\ -32768 <= m_y_raw r <= 32767 /\
     -32768 <= m_z_raw r <= 32767) /\
    (let sc := _mag_scale (drv s) in
     m_x r = ((Float32.of_int (m_x_raw r) *. _mag_range_scale (drv s))
              -. mx_offset sc) *. mx_scale sc /\
     m_y r = ((Float32.of_int (m_y_raw r) *. _mag_range_scale (drv s))
              -. my_offset sc) *. my_scale sc /\
     m_z r = ((Float32.of_int (m_z_raw r) *. _mag_range_scale (drv s))
              -. mz_offset sc) *. mz_scale sc) /\
    _mag_read (drv (exec mag_measure s)) = to_unsigned (_mag_read (drv s) + 1) /\
    (_accel_reports (drv (exec mag_measure s)) = _accel_reports (drv s) /\
     _accel_read (drv (exec mag_measure s)) = _accel_read (drv s) /\
     _accel_filter_x (drv (exec mag_measure s)) = _accel_filter_x (drv s) /\
     _accel_filter_y (drv (exec mag_measure s)) = _accel_filter_y (drv s) /\
     _accel_filter_z (drv (exec mag_measure s)) = _accel_filter_z (drv s)) /\
    (config_of (drv (exec mag_measure s)) = config_of (drv s) /\
     _accel_scale (drv (exec mag_measure s)) = _accel_scale (drv s) /\
     _mag_scale (drv (exec mag_measure s)) = _mag_scale (drv s)).
Proof.
  intros Hh. unfold exec, mag_measure. rewrite bind_run. cbv beta. rewrite bind_run. cbv beta.
  change (eval (read_reg ADDR_CTRL_REG7) s
          =? eval (member _reg7_expected) (exec (read_reg ADDR_CTRL_REG7) s))
    with (mag_registers_healthy s).
  rewrite Hh. cbn [negb]. cbv zeta. rewrite !bind_run. cbv beta.
  match goal with
  | |- context [if ?c then emit _ else ret _] =>
      change c with ((0 <? _mag_topic (drv s)) && negb (_pub_blocked (drv s)))
  end.
  destruct ((0 <? _mag_topic (drv s)) && negb (_pub_blocked (drv s)));
    (eexists; split; [reflexivity |]; split; [reflexivity |];
     split; [split; reflexivity |];
     split; [repeat apply conj; apply to_int16_range |];
     split; [repeat apply conj; reflexivity |];
     split; [reflexivity |]; split; [repeat apply conj; reflexivity |];
     repeat apply conj; reflexivity).
Qed.

(** X9.  The measurement counters are 32 bits wide: when a counter
    stands at 2^32 - 1 the next completed measurement takes it back to
    zero, and the channel's self test then reports failure whatever the
    calibration. *)
Theorem counter_wraps_and_fails_self_test s :
  (accel_data_ready s = true -> accel_registers_healthy s = true ->
   _accel_read (drv s) = 2 ^ 32 - 1 ->
   _accel_read (drv (exec measure s)) = 0 /\
   accel_self_test (drv (exec measure s)) = 1) /\
  (mag_registers_healthy s = true ->
   _mag_read (drv s) = 2 ^ 32 - 1 ->
   _mag_read (drv (exec mag_measure s)) = 0 /\
   mag_self_test (drv (exec mag_measure s)) = 1).
Proof.
  split.
  - intros Hr Hh Hmax.
    destruct (measure_completes s Hr Hh) as (Hcount & _).
    rewrite Hmax in Hcount.
    assert (Hzero : _accel_read (drv (exec measure s)) = 0) by (rewrite Hcount; reflexivity).
    split; [exact Hzero | apply accel_self_test_without_samples, Hzero].
  - intros Hh Hmax.
    destruct (mag_measure_completes s Hh) as (Hcount & _).
    rewrite Hmax in Hcount.
    assert (Hzero : _mag_read (drv (exec mag_measure s)) = 0) by (rewrite Hcount; reflexivity).
    split; [exact Hzero | apply mag_self_test_without_samples, Hzero].
Qed.

End Measurements.

Section Setters.

Context {W F : Type} {PW : Platform W} {FC : FilterCore F} {BW : Build W}.

Implicit Types (s : Sys W F) (d : LSM303D F).

Lemma all_bytes_spec (P : Z -> bool) :
  all_bytes P = true -> forall b, 0 <= b < 256 -> P b = true.
Proof.
  unfold all_bytes. intros H b Hb. rewrite forallb_forall in H. apply H.
  apply in_map_iff. exists (Z.to_nat b). split; [lia |].
  apply in_seq. lia.
Qed.

Lemma to_uint8_range z : 0 <= to_uint8 z < 256.
Proof. unfold to_uint8. apply Z.mod_pos_bound. reflexivity. Qed.

(** X10.  The on-chip filter setter stores the smallest bandwidth it
    supports that is not below the request (50, 194, 362, 773 Hz); a
    request of 0 selects the widest, 773 Hz; a request above 773 Hz is
    rejected with the error code and changes nothing. *)
Theorem onchip_filter_setter_selects_smallest_covering_bandwidth s (bandwidth : Z) :
  0 <= bandwidth ->
  (bandwidth = 0 ->
     eval (accel_set_onchip_lowpass_filter_bandwidth bandwidth) s = OK /\
     _accel_onchip_filter_bandwith
       (drv (exec (accel_set_onchip_lowpass_filter_bandwidth bandwidth) s)) = 773 /\
     maximum_of accel_bandwidths 773) /\
  (0 < bandwidth <= 773 ->
     eval (accel_set_onchip_lowpass_filter_bandwidth bandwidth) s = OK /\
     smallest_covering accel_bandwidths bandwidth
       (_accel_onchip_filter_bandwith
          (drv (exec (accel_set_onchip_lowpass_filter_bandwidth bandwidth) s)))) /\
  (773 < bandwidth ->
     accel_set_onchip_lowpass_filter_bandwidth bandwidth s = (- EINVAL, s)).
Proof.
  intros Hpos. repeat apply conj.
  - intros ->. repeat apply conj; try reflexivity; unfold accel_bandwidths; covering.
  - intros [Hlo Hhi]. unfold eval, exec, accel_set_onchip_lowpass_filter_bandwidth. cbv zeta.
    branch_cases; cbn; (split; [reflexivity | unfold accel_bandwidths; covering]).
  - intros H. unfold accel_set_onchip_lowpass_filter_bandwidth. cbv zeta.
    branch_cases. reflexivity.
Qed.

(** X11.  When the rate setter accepts a request, it moves the rate
    field of the value the watchdog expects in [CTRL_REG1] to the pattern of
    the selected rate and keeps the four low bits (the axis enables and the
    block-data-update bit) as they were. *)
Theorem samplerate_setter_tracks_expected_register s (frequency : Z) :
  0 <= _reg1_expected (drv s) < 256 ->
  0 <= frequency <= 1600 ->
  let d' := drv (exec (accel_set_samplerate frequency) s) in
  Z.land (_reg1_expected d') REG1_RATE_BITS_A = REG1_RATE_A (_accel_samplerate d') /\
  Z.land (_reg1_expected d') 0x0F = Z.land (_reg1_expected (drv s)) 0x0F /\
  0 <= _reg1_expected d' < 256.
Proof.
  intros Hbyte Hreq d'. unfold d', exec, accel_set_samplerate. cbv zeta.
  remember (_reg1_expected (drv s)) as e eqn:He0.
  assert (Hall : forall pattern,
    In pattern [REG1_RATE_100HZ_A; REG1_RATE_200HZ_A; REG1_RATE_400HZ_A;
                REG1_RATE_800HZ_A; REG1_RATE_1600HZ_A] ->
    let e' := to_uint8 (Z.lor (Z.land e (Z.lnot REG1_RATE_BITS_A)) (Z.lor 0 pattern)) in
    Z.land e' REG1_RATE_BITS_A = pattern /\ Z.land e' 0x0F = Z.land e 0x0F /\ 0 <= e' < 256).
  { intros pattern Hin e'. unfold e'.
    assert (Hcheck : forall pat, all_bytes (fun b =>
              let b' := to_uint8 (Z.lor (Z.land b (Z.lnot REG1_RATE_BITS_A)) (Z.lor 0 pat)) in
              (Z.land b' REG1_RATE_BITS_A =? pat) && (Z.land b' 0x0F =? Z.land b 0x0F)) = true ->
            Z.land (to_uint8 (Z.lor (Z.land e (Z.lnot REG1_RATE_BITS_A)) (Z.lor 0 pat)))
              REG1_RATE_BITS_A = pat /\
            Z.land (to_uint8 (Z.lor (Z.land e (Z.lnot REG1_RATE_BITS_A)) (Z.lor 0 pat))) 0x0F
            = Z.land e 0x0F).
    { intros pat Hc. pose proof (all_bytes_spec _ Hc e Hbyte) as He. cbv zeta in He.
      apply andb_true_iff in He. destruct He as [H1 H2].
      apply Z.eqb_eq in H1, H2. split; assumption. }
    split; [| split]; [| | apply to_uint8_range];
      cbn [In] in Hin;
      destruct Hin as [<- | [<- | [<- | [<- | [<- | []]]]]];
      apply Hcheck; vm_compute; reflexivity. }
  branch_cases; cbn -[to_uint8 Z.land Z.lor Z.lnot];
    rewrite <- He0;
    first [ apply (Hall REG1_RATE_100HZ_A) | apply (Hall REG1_RATE_200HZ_A)
          | apply (Hall REG1_RATE_400HZ_A) | apply (Hall REG1_RATE_800HZ_A)
          | apply (Hall REG1_RATE_1600HZ_A) ]; cbn [In]; tauto.
Qed.

End Setters.

(** ** The driver on a sensor that behaves as a register file *)

Section OnTheBench.

Implicit Types (s : Bench).

Lemma to_uint8_land z : to_uint8 z = Z.land z 255.
Proof. unfold to_uint8. change 255 with (Z.ones 8). rewrite Z.land_ones by lia. reflexivity. Qed.

Lemma to_uint8_idem z : to_uint8 (to_uint8 z) = to_uint8 z.
Proof. unfold to_uint8. apply Z.mod_mod. lia. Qed.

Lemma to_uint8_lor_l a b : to_uint8 (Z.lor (to_uint8 a) b) = to_uint8 (Z.lor a b).
Proof.
  rewrite !to_uint8_land, !Z.land_lor_distr_l, <- Z.land_assoc, Z.land_diag. reflexivity.
Qed.

Lemma to_uint8_land_l a m : to_uint8 (Z.land (to_uint8 a) m) = to_uint8 (Z.land a m).
Proof.
  rewrite !to_uint8_land.
  rewrite <- !Z.land_assoc. f_equal.
  rewrite (Z.land_comm m 255), Z.land_assoc, Z.land_diag. reflexivity.
Qed.

Lemma read_command reg :
  0 <= reg < 64 ->
  Z.testbit (to_uint8 (Z.lor reg DIR_READ)) 7 = true /\
  Z.testbit (to_uint8 (Z.lor reg DIR_READ)) 6 = false /\
  Z.land (to_uint8 (Z.lor reg DIR_READ)) 0x3F = reg.
Proof.
  intros Hreg.
  assert (Hc : all_bytes (fun r =>
            if r <? 64 then
              Z.testbit (to_uint8 (Z.lor r DIR_READ)) 7
              && negb (Z.testbit (to_uint8 (Z.lor r DIR_READ)) 6)
              && (Z.land (to_uint8 (Z.lor r DIR_READ)) 0x3F =? r)
            else true) = true) by (vm_compute; reflexivity).
  pose proof (all_bytes_spec _ Hc reg ltac:(lia)) as H. cbv beta in H.
  destruct (Z.ltb_spec reg 64); [| lia].
  apply andb_true_iff in H. destruct H as [H H3]. apply andb_true_iff in H.
  destruct H as [H1 H2]. apply negb_true_iff in H2. apply Z.eqb_eq in H3. auto.
Qed.

Lemma write_command reg :
  0 <= reg < 64 ->
  Z.testbit (to_uint8 (Z.lor reg DIR_WRITE)) 7 = false /\
  Z.land (to_uint8 (Z.lor reg DIR_WRITE)) 0x3F = reg.
Proof.
  intros Hreg.
  assert (Hc : all_bytes (fun r =>
            if r <? 64 then
              negb (Z.testbit (to_uint8 (Z.lor r DIR_WRITE)) 7)
              && (Z.land (to_uint8 (Z.lor r DIR_WRITE)) 0x3F =? r)
            else true) = true) by (vm_compute; reflexivity).
  pose proof (all_bytes_spec _ Hc reg ltac:(lia)) as H. cbv beta in H.
  destruct (Z.ltb_spec reg 64); [| lia].
  apply andb_true_iff in H. destruct H as [H1 H2].
  apply negb_true_iff in H1. apply Z.eqb_eq in H2. auto.
Qed.

Lemma sim_read_reg s reg :
  0 <= reg < 64 -> read_reg reg s = (to_uint8 (sim_regs (hw s) reg), s).
Proof.
  intros Hreg. destruct (read_command reg Hreg) as (H7 & H6 & Haddr).
  destruct s as [d w l]. unfold read_reg, bind, call, ret. cbn [fst snd hw drv events].
  cbn [transfer SimPlatform]. unfold sim_transfer. rewrite H7, H6, Haddr.
  cbn [length seq map nth fst snd]. reflexivity.
Qed.

Lemma sim_write_reg s reg v :
  0 <= reg < 64 -> write_reg reg v s = (tt, poke reg (to_uint8 v) s).
Proof.
  intros Hreg. destruct (write_command reg Hreg) as (H7 & Haddr).
  destruct s as [d w l]. unfold write_reg, bind, call, ret, poke. cbn [fst snd hw drv events].
  cbn [transfer SimPlatform]. unfold sim_transfer. rewrite H7, Haddr.
  cbn [fst snd]. reflexivity.
Qed.

Lemma sim_modify_reg s reg clearbits setbits :
  0 <= reg < 64 ->
  modify_reg reg clearbits setbits s
  = (tt, poke reg (to_uint8 (Z.lor (Z.land (sim_regs (hw s) reg) (Z.lnot clearbits)) setbits)) s).
Proof.
  intros Hreg. unfold modify_reg. rewrite bind_run. cbv beta zeta.
  unfold eval, exec. rewrite (sim_read_reg s reg Hreg). cbn [fst snd].
  rewrite (sim_write_reg s reg _ Hreg).
  rewrite to_uint8_idem, to_uint8_land_l, to_uint8_lor_l. reflexivity.
Qed.

(** X12.  On a sensor that stores what is written, [modify_reg] leaves
    in the register the old byte with the clear mask removed and the set
    mask added: bits are cleared before bits are set, so a bit named in
    both masks ends up set.  No other register, nothing in the driver
    object and nothing in the log changes. *)
Theorem modify_reg_clears_then_sets s (reg clearbits setbits : Z) :
  0 <= reg < 64 ->
  let s' := exec (modify_reg reg clearbits setbits) s in
  sim_regs (hw s') reg
  = to_uint8 (Z.lor (Z.land (sim_regs (hw s) reg) (Z.lnot clearbits)) setbits) /\
  (forall i, 0 <= i < 8 ->
     Z.testbit (sim_regs (hw s') reg) i
     = Z.testbit setbits i
       || (Z.testbit (sim_regs (hw s) reg) i && negb (Z.testbit clearbits i))) /\
  (forall other, other <> reg -> sim_regs (hw s') other = sim_regs (hw s) other) /\
  drv s' = drv s /\ events s' = events s.
Proof.
  intros Hreg s'. unfold s', exec. rewrite (sim_modify_reg s reg _ _ Hreg). cbn [snd].
  unfold poke. cbn [hw drv events sim_regs]. rewrite Z.eqb_refl.
  repeat apply conj; try reflexivity.
  - intros i Hi. rewrite to_uint8_land, Z.land_spec, Z.lor_spec, Z.land_spec.
    rewrite Z.lnot_spec by lia.
    change 255 with (Z.ones 8). rewrite Z.ones_spec_low by lia.
    rewrite andb_true_r. apply orb_comm.
  - intros other Hother. destruct (Z.eqb_spec other reg); [contradiction | reflexivity].
Qed.

Lemma sim_eval_read_reg s reg :
  0 <= reg < 64 -> eval (read_reg reg) s = to_uint8 (sim_regs (hw s) reg).
Proof. intros H. unfold eval. rewrite sim_read_reg by exact H. reflexivity. Qed.

Lemma sim_exec_read_reg s reg : 0 <= reg < 64 -> exec (read_reg reg) s = s.
Proof. intros H. unfold exec. rewrite sim_read_reg by exact H. reflexivity. Qed.

Lemma sim_exec_write_reg s reg v :
  0 <= reg < 64 -> exec (write_reg reg v) s = poke reg (to_uint8 v) s.
Proof. intros H. unfold exec. rewrite sim_write_reg by exact H. reflexivity. Qed.

Lemma sim_exec_modify_reg s reg clearbits setbits :
  0 <= reg < 64 ->
  exec (modify_reg reg clearbits setbits) s
  = poke reg (to_uint8 (Z.lor (Z.land (sim_regs (hw s) reg) (Z.lnot clearbits)) setbits)) s.
Proof. intros H. unfold exec. rewrite sim_modify_reg by exact H. reflexivity. Qed.

Ltac register_address := cbv; split; congruence.

(** Run a method on the bench, step by step. *)
Ltac sim_run :=
  repeat first
    [ rewrite exec_bind | rewrite eval_bind | rewrite exec_ret | rewrite eval_ret
    | rewrite exec_assign | rewrite exec_member | rewrite eval_member | rewrite exec_emit
    | rewrite sim_exec_modify_reg by register_address
    | rewrite sim_exec_write_reg by register_address
    | rewrite sim_eval_read_reg by register_address
    | rewrite sim_exec_read_reg by register_address
    | progress cbv beta iota
    | progress cbn [drv hw events fst snd poke sim_regs sim_drdy sim_clock] ].

(** X13.  The range setter and the on-chip filter setter share
    [CTRL_REG2] on the sensor and do not disturb each other: on a sensor
    that stores what is written, an accepted range request leaves the
    full-scale field at the pattern of the active range and the anti-alias
    field as it was, an accepted bandwidth request does the converse, and
    neither touches any other register. *)
Theorem ctrl_reg2_setters_keep_each_others_field s (request : Z) :
  0 <= request ->
  (request <= 16 ->
     let s' := exec (accel_set_range request) s in
     Z.land (sim_regs (hw s') ADDR_CTRL_REG2) REG2_FULL_SCALE_BITS_A
     = REG2_FULL_SCALE_A (eval (ioctl ACCELIOCGRANGE) s') /\
     Z.land (sim_regs (hw s') ADDR_CTRL_REG2) REG2_ANTIALIAS_FILTER_BW_BITS_A
     = Z.land (to_uint8 (sim_regs (hw s) ADDR_CTRL_REG2)) REG2_ANTIALIAS_FILTER_BW_BITS_A /\
     forall other, other <> ADDR_CTRL_REG2 ->
       sim_regs (hw s') other = sim_regs (hw s) other) /\
  (request <= 773 ->
     let s' := exec (accel_set_onchip_lowpass_filter_bandwidth request) s in
     Z.land (sim_regs (hw s') ADDR_CTRL_REG2) REG2_ANTIALIAS_FILTER_BW_BITS_A
     = REG2_AA_FILTER_BW_A (_accel_onchip_filter_bandwith (drv s')) /\
     Z.land (sim_regs (hw s') ADDR_CTRL_REG2) REG2_FULL_SCALE_BITS_A
     = Z.land (to_uint8 (sim_regs (hw s) ADDR_CTRL_REG2)) REG2_FULL_SCALE_BITS_A /\
     forall other, other <> ADDR_CTRL_REG2 ->
       sim_regs (hw s') other = sim_regs (hw s) other).
Proof.
  intros Hpos.
  assert (Hfield : forall clear set keep pattern,
    all_bytes (fun b =>
      let b' := to_uint8 (Z.lor (Z.land b (Z.lnot clear)) set) in
      (Z.land b' clear =? pattern) && (Z.land b' keep =? Z.land b keep)) = true ->
    forall r,
      Z.land (to_uint8 (Z.lor (Z.land r (Z.lnot clear)) set)) clear = pattern /\
      Z.land (to_uint8 (Z.lor (Z.land r (Z.lnot clear)) set)) keep
      = Z.land (to_uint8 r) keep).
  { intros clear set keep pattern Hc r.
    pose proof (all_bytes_spec _ Hc (to_uint8 r) (to_uint8_range r)) as H. cbv beta zeta in H.
    rewrite <- to_uint8_lor_l, to_uint8_land_l, to_uint8_lor_l in H.
    apply andb_true_iff in H. destruct H as [H1 H2]. apply Z.eqb_eq in H1, H2.
    split; assumption. }
  split; intros Hmax s'; unfold s'.
  - unfold accel_set_range. cbv zeta.
    branch_cases; sim_run;
      match goal with
      | |- context [REG2_FULL_SCALE_A ?x] =>
          let v := eval lazy in (REG2_FULL_SCALE_A x) in
          change (REG2_FULL_SCALE_A x) with v
      end;
      change (ADDR_CTRL_REG2 =? ADDR_CTRL_REG2) with true; cbv iota;
      lazymatch goal with
      | |- context [to_uint8 (Z.lor (Z.land ?r (Z.lnot ?c)) ?set)] =>
          destruct (Hfield c set REG2_ANTIALIAS_FILTER_BW_BITS_A set
                      ltac:(vm_compute; reflexivity) r) as [H1' H2']
      end;
      (split; [exact H1' | split; [exact H2' |]]);
      (intros other Hother; destruct (Z.eqb_spec other ADDR_CTRL_REG2);
        [contradiction | reflexivity]).
  - unfold accel_set_onchip_lowpass_filter_bandwidth. cbv zeta.
    branch_cases; sim_run;
      match goal with
      | |- context [REG2_AA_FILTER_BW_A ?x] =>
          let v := eval lazy in (REG2_AA_FILTER_BW_A x) in
          change (REG2_AA_FILTER_BW_A x) with v
      end;
      change (ADDR_CTRL_REG2 =? ADDR_CTRL_REG2) with true; cbv iota;
      lazymatch goal with
      | |- context [to_uint8 (Z.lor (Z.land ?r (Z.lnot ?c)) ?set)] =>
          destruct (Hfield c set REG2_FULL_SCALE_BITS_A set
                      ltac:(vm_compute; reflexivity) r) as [H1' H2']
      end;
      (split; [exact H1' | split; [exact H2' |]]);
      (intros other Hother; destruct (Z.eqb_spec other ADDR_CTRL_REG2);
        [contradiction | reflexivity]).
Qed.

(** *** The watchdog on the bench *)

Lemma steady_ret A (a : A) : steady (ret a).
Proof. intros n s Hs. exact Hs. Qed.

Lemma steady_bind A B (m : M SimBoard unit A) (k : A -> M SimBoard unit B) :
  steady m -> (forall a, steady (k a)) -> steady (bind m k).
Proof. intros Hm Hk n s Hs. rewrite exec_bind. apply Hk, Hm, Hs. Qed.

Lemma steady_member A (f : LSM303D unit -> A) : steady (member f).
Proof. intros n s Hs. exact Hs. Qed.

Lemma steady_emit e : steady (emit e).
Proof. intros n s Hs. exact Hs. Qed.

Lemma steady_assign upd :
  (forall d, _reg1_expected (upd d) = _reg1_expected d /\
             _reg7_expected (upd d) = _reg7_expected d /\
             watchdog_resets (upd d) = watchdog_resets d) ->
  steady (assign upd).
Proof.
  intros H n s [[H1 H7] Hn]. destruct (H (drv s)) as (E1 & E7 & En).
  rewrite exec_assign. unfold synced, in_sync. cbn [drv hw].
  rewrite E1, E7, En. auto.
Qed.

Lemma steady_call A (f : SimBoard -> A * SimBoard) :
  (forall w, sim_regs (snd (f w)) = sim_regs w /\ sim_drdy (snd (f w)) = sim_drdy w) ->
  steady (call f).
Proof.
  intros H n s [[H1 H7] Hn]. destruct (H (hw s)) as [Hregs Hdrdy].
  unfold synced, in_sync, exec, call. cbn [snd drv hw].
  rewrite Hregs, Hdrdy. auto.
Qed.

Lemma steady_read_reg reg : 0 <= reg < 64 -> steady (read_reg reg).
Proof. intros Hreg n s Hs. rewrite sim_exec_read_reg by exact Hreg. exact Hs. Qed.

Lemma steady_modify_other reg clearbits setbits :
  0 <= reg < 64 -> reg <> ADDR_CTRL_REG1 -> reg <> ADDR_CTRL_REG7 ->
  steady (modify_reg reg clearbits setbits).
Proof.
  intros Hreg Hn1 Hn7 n s [[H1 H7] Hn]. rewrite sim_exec_modify_reg by exact Hreg.
  unfold synced, in_sync, poke. cbn [drv hw sim_regs sim_drdy].
  destruct (Z.eqb_spec ADDR_CTRL_REG1 reg); [congruence |].
  destruct (Z.eqb_spec ADDR_CTRL_REG7 reg); [congruence |]. auto.
Qed.

Lemma steady_accel_set_samplerate frequency : steady (accel_set_samplerate frequency).
Proof.
  unfold accel_set_samplerate. cbv zeta.
  branch_cases;
    try (intros cnt st Hs; sim_run; exact Hs);
    (intros cnt st [[Hr1 Hr7] Hcnt]; sim_run; unfold synced, in_sync; cbn [drv hw sim_regs poke];
     cbn [_reg1_expected _reg7_expected set_accel_samplerate set_reg1_expected];
     change (ADDR_CTRL_REG1 =? ADDR_CTRL_REG1) with true;
     change (ADDR_CTRL_REG7 =? ADDR_CTRL_REG1) with false; cbv iota;
     repeat apply conj; [| exact Hr7 | exact Hcnt];
     rewrite <- Hr1, to_uint8_idem;
     rewrite <- (to_uint8_lor_l (Z.land (to_uint8 _) _)), to_uint8_land_l, to_uint8_lor_l;
     reflexivity).
Qed.

Lemma steady_write_other reg value :
  0 <= reg < 64 -> reg <> ADDR_CTRL_REG1 -> reg <> ADDR_CTRL_REG7 ->
  steady (write_reg reg value).
Proof.
  intros Hreg Hn1 Hn7 cnt st [[Hr1 Hr7] Hcnt]. rewrite sim_exec_write_reg by exact Hreg.
  unfold synced, in_sync, poke. cbn [drv hw sim_regs sim_drdy].
  destruct (Z.eqb_spec ADDR_CTRL_REG1 reg); [congruence |].
  destruct (Z.eqb_spec ADDR_CTRL_REG7 reg); [congruence |]. auto.
Qed.

Ltac steady_step :=
  lazymatch goal with
  | |- steady (bind _ _) => apply steady_bind; [| intros ?]
  | |- steady (ret _) => apply steady_ret
  | |- steady (member _) => apply steady_member
  | |- steady (emit _) => apply steady_emit
  | |- steady (assign _) =>
      apply steady_assign; intros ?; repeat apply conj; reflexivity
  | |- steady (call _) => apply steady_call; intros ?; split; reflexivity
  | |- steady (read_reg _) => apply steady_read_reg; register_address
  | |- steady (write_reg _ _) =>
      apply steady_write_other; [register_address | discriminate | discriminate]
  | |- steady (modify_reg _ _ _) =>
      apply steady_modify_other; [register_address | discriminate | discriminate]
  | |- steady (accel_set_samplerate _) => apply steady_accel_set_samplerate
  | |- steady (if ?c then _ else _) => destruct c
  | |- steady (match ?c with _ => _ end) => destruct c
  | |- steady ?m => let h := head_of m in unfold h; cbv zeta
  end.

Lemma reset_brings_in_sync s :
  in_sync (exec reset s) /\
  watchdog_resets (drv (exec reset s)) = watchdog_resets (drv s) /\
  sim_drdy (hw (exec reset s)) = sim_drdy (hw s).
Proof.
  unfold reset. do 7 rewrite exec_bind.
  match goal with
  | |- in_sync (exec ?t ?s7) /\ _ =>
      assert (Ht : steady t) by (repeat steady_step);
      assert (H7 : synced (watchdog_resets (drv s), sim_drdy (hw s)) s7)
  end.
  - assert (Hi : (watchdog_resets (drv (exec disable_i2c s)), sim_drdy (hw (exec disable_i2c s)))
                 = (watchdog_resets (drv s), sim_drdy (hw s))).
    { unfold disable_i2c. sim_run. reflexivity. }
    sim_run. unfold synced, in_sync. cbn [drv hw sim_regs sim_drdy poke].
    repeat apply conj; [reflexivity | reflexivity | exact Hi].
  - destruct (Ht _ _ H7) as [Hi Hw].
    split; [exact Hi | split].
    + exact (f_equal fst Hw).
    + exact (f_equal snd Hw).
Qed.

Lemma steady_reset : steady reset.
Proof.
  intros cnt st [_ Hcnt]. destruct (reset_brings_in_sync st) as (Hi & Hw & Hd).
  split; [exact Hi | congruence].
Qed.

Lemma steady_measure : steady measure.
Proof.
  intros cnt st Hs. unfold measure. rewrite exec_bind.
  assert (Hg : synced cnt (exec (call (stm32_gpioread GPIO_EXTI_ACCEL_DRDY)) st)).
  { revert cnt st Hs. change (steady (call (stm32_gpioread GPIO_EXTI_ACCEL_DRDY))).
    steady_step. }
  destruct (eval (call (stm32_gpioread GPIO_EXTI_ACCEL_DRDY)) st); cbn [negb]; cbv iota.
  - rewrite exec_bind, sim_eval_read_reg by register_address.
    rewrite sim_exec_read_reg by register_address.
    rewrite exec_bind, eval_member, exec_member.
    destruct Hg as [[Hr1 Hr7] Hcnt] eqn:Hkeep. rewrite Hr1, Z.eqb_refl. cbn [negb]; cbv iota.
    match goal with
    | |- synced _ (exec ?t _) =>
        assert (Ht : steady t) by (repeat steady_step); apply Ht
    end.
    repeat apply conj; assumption.
  - match goal with
    | |- synced _ (exec ?t _) =>
        assert (Ht : steady t) by (repeat steady_step); apply Ht
    end.
    exact Hg.
Qed.

Lemma steady_mag_measure : steady mag_measure.
Proof.
  intros cnt st Hs. unfold mag_measure.
  rewrite exec_bind, sim_eval_read_reg by register_address.
  rewrite sim_exec_read_reg by register_address.
  rewrite exec_bind, eval_member, exec_member.
  destruct Hs as [[Hr1 Hr7] Hcnt] eqn:Hkeep. rewrite Hr7, Z.eqb_refl. cbn [negb]; cbv iota.
  match goal with
  | |- synced _ (exec ?t _) =>
      assert (Ht : steady t) by (repeat steady_step); apply Ht
  end.
  repeat apply conj; assumption.
Qed.

Lemma steady_read_loop count : forall ret_ out, steady (read_loop count ret_ out).
Proof.
  induction count as [| count IH]; intros ret_ out; cbn [read_loop].
  - apply steady_ret.
  - apply steady_bind; [repeat steady_step | intros [arb |]; apply IH].
Qed.

Lemma steady_mag_read_loop count : forall ret_ out, steady (mag_read_loop count ret_ out).
Proof.
  induction count as [| count IH]; intros ret_ out; cbn [mag_read_loop].
  - apply steady_ret.
  - apply steady_bind; [repeat steady_step | intros [mrb |]; apply IH].
Qed.

Ltac steady_method :=
  repeat first
    [ apply steady_reset | apply steady_measure | apply steady_mag_measure
    | apply steady_read_loop | apply steady_mag_read_loop | steady_step ].

Lemma steady_run e : steady (run e).
Proof.
  destruct e as [cmd | cmd | buflen | buflen | |]; cbn [run].
  - destruct cmd; cbn [ioctl]; steady_method.
  - destruct cmd; cbn [mag_ioctl]; steady_method.
  - steady_method.
  - steady_method.
  - apply steady_measure.
  - apply steady_mag_measure.
Qed.

(** X14.  On a sensor that stores what is written to it, the register
    watchdog never fires: once the sensor's CTRL_REG1 and CTRL_REG7 agree
    with the values the driver expects, they still agree after any
    sequence of commands of the control interface, reads and timer
    callbacks, and neither bad-register counter has advanced. *)
Theorem watchdog_never_fires_on_a_faithful_sensor (l : list entry_point) s :
  in_sync s ->
  in_sync (exec (run_all l) s) /\
  _perf (drv (exec (run_all l) s)) reg1_resets = _perf (drv s) reg1_resets /\
  _perf (drv (exec (run_all l) s)) reg7_resets = _perf (drv s) reg7_resets.
Proof.
  revert s. induction l as [| e l IH]; intros s Hs; cbn [run_all].
  - split; [exact Hs | split; reflexivity].
  - rewrite exec_bind.
    destruct (steady_run e _ s (conj Hs eq_refl)) as [Hi Hw].
    destruct (IH _ Hi) as (Hi' & H1 & H7).
    pose proof (f_equal (fun n => fst (fst n)) Hw) as Hw1.
    pose proof (f_equal (fun n => snd (fst n)) Hw) as Hw7.
    cbn [fst snd watchdog_resets] in Hw1, Hw7.
    split; [exact Hi' | split; congruence].
Qed.

Lemma in_sync_healthy s :
  in_sync s -> accel_registers_healthy s = true /\ mag_registers_healthy s = true.
Proof.
  intros [Hr1 Hr7]. unfold accel_registers_healthy, mag_registers_healthy.
  rewrite !sim_eval_read_reg by register_address.
  change (hw (exec (call (stm32_gpioread GPIO_EXTI_ACCEL_DRDY)) s)) with (hw s).
  rewrite Hr1, Hr7. split; apply Z.eqb_refl.
Qed.

(** X15.  When [measure] finds CTRL_REG1 changed on a sensor that stores
    what is written to it, the reset it performs brings the sensor back
    in line with the driver: the bad-register counter goes up by one, no
    report is stored, what was buffered stays buffered, and the register
    check of the next [measure] passes. *)
Theorem measure_watchdog_resynchronises s :
  accel_data_ready s = true -> accel_registers_healthy s = false ->
  in_sync (exec measure s) /\
  accel_registers_healthy (exec measure s) = true /\
  _perf (drv (exec measure s)) reg1_resets = _perf (drv s) reg1_resets + 1 /\
  accel_samples_produced (drv (exec measure s)) = accel_samples_produced (drv s) /\
  _accel_reports (drv (exec measure s)) = _accel_reports (drv s).
Proof.
  intros Hr Hh. unfold exec at 1 2 3 4 5. rewrite (measure_mismatch s Hr Hh).
  fold (exec (perf_count reg1_resets ;; reset)
          (exec (read_reg ADDR_CTRL_REG1) (exec (call (stm32_gpioread GPIO_EXTI_ACCEL_DRDY)) s))).
  rewrite sim_exec_read_reg by register_address. rewrite exec_bind.
  remember (exec (perf_count reg1_resets) (exec (call (stm32_gpioread GPIO_EXTI_ACCEL_DRDY)) s))
    as s1 eqn:Hs1.
  destruct (reset_brings_in_sync s1) as (Hi & Hw & _).
  assert (Hkeep : respects (W := SimBoard) (F := unit)
                    (keeps (fun d => (accel_samples_produced d, _accel_reports d))) reset)
    by (unfold accel_samples_produced; respects_method).
  pose proof (Hkeep s1) as Hk. unfold keeps in Hk.
  pose proof (f_equal fst Hk) as Hk1. pose proof (f_equal snd Hk) as Hk2.
  cbn [fst snd] in Hk1, Hk2.
  pose proof (f_equal fst Hw) as Hw1. cbn [fst watchdog_resets] in Hw1.
  repeat apply conj.
  - apply Hi.
  - apply Hi.
  - apply (in_sync_healthy _ Hi).
  - rewrite Hw1, Hs1. cbn. reflexivity.
  - rewrite Hk1, Hs1. reflexivity.
  - rewrite Hk2, Hs1. reflexivity.
Qed.

(** X16.  The same for the magnetometer: when [mag_measure] finds
    CTRL_REG7 changed, its reset brings the sensor back in line, counts one
    bad register, stores no report and keeps what was buffered; the
    register check of the next [mag_measure] passes. *)
Theorem mag_measure_watchdog_resynchronises s :
  mag_registers_healthy s = false ->
  in_sync (exec mag_measure s) /\
  mag_registers_healthy (exec mag_measure s) = true /\
  _perf (drv (exec mag_measure s)) reg7_resets = _perf (drv s) reg7_resets + 1 /\
  mag_samples_produced (drv (exec mag_measure s)) = mag_samples_produced (drv s) /\
  _mag_reports (drv (exec mag_measure s)) = _mag_reports (drv s).
Proof.
  intros Hh. unfold exec at 1 2 3 4 5. rewrite (mag_measure_mismatch s Hh).
  fold (exec (perf_count reg7_resets ;; reset) (exec (read_reg ADDR_CTRL_REG7) s)).
  rewrite sim_exec_read_reg by register_address. rewrite exec_bind.
  remember (exec (perf_count reg7_resets) s) as s1 eqn:Hs1.
  destruct (reset_brings_in_sync s1) as (Hi & Hw & _).
  assert (Hkeep : respects (W := SimBoard) (F := unit)
                    (keeps (fun d => (mag_samples_produced d, _mag_reports d))) reset)
    by (unfold mag_samples_produced; respects_method).
  pose proof (Hkeep s1) as Hk. unfold keeps in Hk.
  pose proof (f_equal fst Hk) as Hk1. pose proof (f_equal snd Hk) as Hk2.
  cbn [fst snd] in Hk1, Hk2.
  pose proof (f_equal snd Hw) as Hw7. cbn [snd watchdog_resets] in Hw7.
  repeat apply conj.
  - apply Hi.
  - apply Hi.
  - apply (in_sync_healthy _ Hi).
  - rewrite Hw7, Hs1. cbn. reflexivity.
  - rewrite Hk1, Hs1. reflexivity.
  - rewrite Hk2, Hs1. reflexivity.
Qed.

(** X17.  On a sensor that stores what is written to it and holds its
    data-ready line high, every timer callback completes a measurement of
    its own channel and of no other: after any sequence of callbacks each
    channel has produced exactly as many further samples as it had
    callbacks. *)
Theorem every_timer_callback_produces_one_sample (l : list channel) s :
  in_sync s -> sim_drdy (hw s) = true ->
  accel_samples_produced (drv (exec (run_all (map tick l)) s))
  = accel_samples_produced (drv s) + ticks_of accel_channel l /\
  mag_samples_produced (drv (exec (run_all (map tick l)) s))
  = mag_samples_produced (drv s) + ticks_of mag_channel l.
Proof.
  revert s. induction l as [| c l IH]; intros s Hs Hd.
  - unfold ticks_of. cbn. split; lia.
  - cbn [map run_all]. rewrite exec_bind.
    destruct (steady_run (tick c) _ s (conj Hs eq_refl)) as [Hi Hw].
    pose proof (f_equal snd Hw) as Hd'. cbn [snd] in Hd'. rewrite Hd in Hd'.
    destruct (IH _ Hi Hd') as [IHa IHm]. rewrite IHa, IHm.
    destruct (in_sync_healthy s Hs) as [Hha Hhm].
    unfold ticks_of. destruct c; cbn [tick run filter channel_eqb length].
    + assert (Hr : accel_data_ready s = true) by exact Hd.
      destruct (measure_completes s Hr Hha) as (_ & Ha & _).
      rewrite Ha, (measure_takes_no_mag_sample s). split; lia.
    + destruct (mag_measure_completes s Hhm) as (_ & Hm).
      assert (Hkeep : respects (W := SimBoard) (F := unit)
                        (keeps (@accel_samples_produced unit)) mag_measure)
        by (unfold accel_samples_produced; respects_method).
      rewrite Hm, (Hkeep s). split; lia.
Qed.

End OnTheBench.

Section Frames.

Context {W F : Type} {PW : Platform W} {FC : FilterCore F} {BW : Build W}.

Implicit Types (s : Sys W F) (d : LSM303D F).

(** X18.  A reset reconfigures the sensor and nothing else: the reports
    buffered on both channels, the two poll intervals, the topic handles
    and the performance counters are as before, and no call is made to
    the scheduler, the poll layer or the publisher. *)
Theorem reset_keeps_buffers_polling_and_counters s :
  _accel_reports (drv (exec reset s)) = _accel_reports (drv s) /\
  _mag_reports (drv (exec reset s)) = _mag_reports (drv s) /\
  _call_accel_interval (drv (exec reset s)) = _call_accel_interval (drv s) /\
  _call_mag_interval (drv (exec reset s)) = _call_mag_interval (drv s) /\
  _accel_topic (drv (exec reset s)) = _accel_topic (drv s) /\
  _mag_topic (drv (exec reset s)) = _mag_topic (drv s) /\
  _perf (drv (exec reset s)) = _perf (drv s) /\
  events (exec reset s) = events s.
Proof.
  assert (Hkeep : respects (W := W)
            (keeps (fun d => (_accel_reports d, _mag_reports d, _call_accel_interval d,
                              _call_mag_interval d, _accel_topic d, _mag_topic d, _perf d)))
            reset) by respects_method.
  pose proof (Hkeep s) as Hk. unfold keeps in Hk.
  repeat (apply pair_equal_spec in Hk; let H := fresh "Hk" in destruct Hk as [Hk H]).
  repeat apply conj; try assumption.
  reflexivity.
Qed.

(** X19.  Only the scale commands change the calibration: every other
    command of the control interface, every read and every timer callback
    leaves the accelerometer calibration as it was, and likewise the
    magnetometer calibration. *)
Theorem calibration_changes_only_by_scale_commands (e : entry_point) s :
  ((forall sc, e <> call_ioctl (ACCELIOCSSCALE sc)) ->
   _accel_scale (drv (exec (run e) s)) = _accel_scale (drv s)) /\
  ((forall sc, e <> call_mag_ioctl (MAGIOCSSCALE sc)) ->
   _mag_scale (drv (exec (run e) s)) = _mag_scale (drv s)).
Proof.
  split; intros Hne.
  - assert (Hkeep : respects (W := W) (keeps (@_accel_scale F)) (run e)).
    { destruct e as [cmd | cmd | buflen | buflen | |]; cbn [run];
        try destruct cmd; cbn [ioctl mag_ioctl];
        try (exfalso; eapply Hne; reflexivity); respects_method. }
    apply (Hkeep s).
  - assert (Hkeep : respects (W := W) (keeps (@_mag_scale F)) (run e)).
    { destruct e as [cmd | cmd | buflen | buflen | |]; cbn [run];
        try destruct cmd; cbn [ioctl mag_ioctl];
        try (exfalso; eapply Hne; reflexivity); respects_method. }
    apply (Hkeep s).
Qed.

End Frames.

(** * Further runs on the bench *)

(** X1 on the bench: 47 bytes do not hold a report of 48. *)
Lemma read_rejects_short_buffer_witness :
  read 47 bench_ready = ((- ENOSPC, []), bench_ready) /\
  mag_read 47 bench_ready = ((- ENOSPC, []), bench_ready).
Proof.
  assert (Ha : 0 <= 47 < sizeof_accel_report)
    by (vm_compute; split; [discriminate | reflexivity]).
  assert (Hm : 0 <= 47 < sizeof_mag_report)
    by (vm_compute; split; [discriminate | reflexivity]).
  pose proof (read_rejects_short_buffer bench_ready 47) as [Hra Hrm].
  split; [exact (Hra Ha) | exact (Hrm Hm)].
Defined.

(** X2 on the polling bench: room for two reports, one buffered. *)
Lemma read_automatic_is_fifo_witness :
  0 < _call_accel_interval (drv bench_polling) /\
  1 <= to_unsigned (96 / sizeof_accel_report) /\
  rb_items (_accel_reports (drv bench_polling)) <> [] /\
  eval (read 96) bench_polling = (48, rb_items (_accel_reports (drv bench_polling))) /\
  hw (exec (read 96) bench_polling) = hw bench_polling.
Proof.
  assert (H1 : 0 < _call_accel_interval (drv bench_polling)) by (vm_compute; reflexivity).
  assert (H2 : 1 <= to_unsigned (96 / sizeof_accel_report)) by (vm_compute; discriminate).
  assert (H3 : rb_items (_accel_reports (drv bench_polling)) <> [])
    by (vm_compute; discriminate).
  pose proof (read_automatic_is_fifo bench_polling 96 H1 H2 H3) as H. cbv zeta in H.
  destruct H as (He & _ & Hh & _).
  split; [exact H1 | split; [exact H2 | split; [exact H3 | split; [| exact Hh]]]].
  rewrite He. vm_compute. reflexivity.
Defined.

(** X3 on the polling bench: room for two reports, one buffered. *)
Lemma mag_read_automatic_is_fifo_witness :
  0 < _call_mag_interval (drv bench_polling) /\
  1 <= to_unsigned (96 / sizeof_mag_report) /\
  rb_items (_mag_reports (drv bench_polling)) <> [] /\
  eval (mag_read 96) bench_polling = (48, rb_items (_mag_reports (drv bench_polling))) /\
  hw (exec (mag_read 96) bench_polling) = hw bench_polling.
Proof.
  assert (H1 : 0 < _call_mag_interval (drv bench_polling)) by (vm_compute; reflexivity).
  assert (H2 : 1 <= to_unsigned (96 / sizeof_mag_report)) by (vm_compute; discriminate).
  assert (H3 : rb_items (_mag_reports (drv bench_polling)) <> [])
    by (vm_compute; discriminate).
  pose proof (mag_read_automatic_is_fifo bench_polling 96 H1 H2 H3) as H. cbv zeta in H.
  destruct H as (He & _ & Hh & _).
  split; [exact H1 | split; [exact H2 | split; [exact H3 | split; [| exact Hh]]]].
  rewrite He. vm_compute. reflexivity.
Defined.

(** X4 on the drained bench. *)
Lemma read_automatic_empty_is_eagain_witness :
  eval (read 96) bench_drained = (- EAGAIN, []) /\
  eval (mag_read 96) bench_drained = (- EAGAIN, []).
Proof.
  assert (Ha1 : 0 < _call_accel_interval (drv bench_drained)) by (vm_compute; reflexivity).
  assert (Ha2 : 1 <= to_unsigned (96 / sizeof_accel_report)) by (vm_compute; discriminate).
  assert (Ha3 : rb_items (_accel_reports (drv bench_drained)) = [])
    by (vm_compute; reflexivity).
  assert (Hm1 : 0 < _call_mag_interval (drv bench_drained)) by (vm_compute; reflexivity).
  assert (Hm2 : 1 <= to_unsigned (96 / sizeof_mag_report)) by (vm_compute; discriminate).
  assert (Hm3 : rb_items (_mag_reports (drv bench_drained)) = [])
    by (vm_compute; reflexivity).
  pose proof (read_automatic_empty_is_eagain bench_drained 96) as [Ha Hm].
  split; [exact (proj1 (Ha Ha1 Ha2 Ha3)) | exact (proj1 (Hm Hm1 Hm2 Hm3))].
Defined.

(** X5 on the sampled bench, where polling is off. *)
Lemma read_manual_returns_oldest_witness :
  _call_accel_interval (drv bench_sampled) = 0 /\
  accel_data_ready bench_sampled = true /\
  accel_registers_healthy bench_sampled = true /\
  exists arb, eval (read 48) bench_sampled = (sizeof_accel_report, [arb]).
Proof.
  assert (H1 : _call_accel_interval (drv bench_sampled) = 0) by (vm_compute; reflexivity).
  assert (H2 : 1 <= to_unsigned (48 / sizeof_accel_report)) by (vm_compute; discriminate).
  assert (H3 : (0 < rb_capacity (_accel_reports (drv bench_sampled)))%nat)
    by (vm_compute; repeat constructor).
  assert (H4 : accel_data_ready bench_sampled = true) by (vm_compute; reflexivity).
  assert (H5 : accel_registers_healthy bench_sampled = true) by (vm_compute; reflexivity).
  destruct (read_manual_returns_oldest bench_sampled 48 H1 H2 H3 H4 H5)
    as (fresh & arb & rest & _ & He & _).
  split; [exact H1 | split; [exact H4 | split; [exact H5 |]]].
  exists arb. exact He.
Defined.

(** X6 on the bench with the data-ready line low. *)
Lemma read_manual_not_ready_witness :
  _call_accel_interval (drv bench_not_ready) = 0 /\
  accel_data_ready bench_not_ready = false /\
  events (exec (read 48) bench_not_ready)
  = events bench_not_ready ++ [hrt_call_delay accel_call 100].
Proof.
  assert (H1 : _call_accel_interval (drv bench_not_ready) = 0) by (vm_compute; reflexivity).
  assert (H2 : 1 <= to_unsigned (48 / sizeof_accel_report)) by (vm_compute; discriminate).
  assert (H3 : accel_data_ready bench_not_ready = false) by (vm_compute; reflexivity).
  pose proof (read_manual_not_ready bench_not_ready 48 H1 H2 H3) as (_ & Hev & _).
  split; [exact H1 | split; [exact H3 | exact Hev]].
Defined.

(** X7 on the bench after reset. *)
Lemma measure_commits_one_report_witness :
  accel_data_ready bench_ready = true /\
  accel_registers_healthy bench_ready = true /\
  exists r,
    _accel_reports (drv (exec measure bench_ready))
    = rb_force r (_accel_reports (drv bench_ready)).
Proof.
  assert (H1 : accel_data_ready bench_ready = true) by (vm_compute; reflexivity).
  assert (H2 : accel_registers_healthy bench_ready = true) by (vm_compute; reflexivity).
  destruct (measure_commits_one_report bench_ready H1 H2) as (r & Hr & _).
  split; [exact H1 | split; [exact H2 |]].
  exists r. exact Hr.
Defined.

(** X8 on the bench after reset. *)
Lemma mag_measure_commits_one_report_witness :
  mag_registers_healthy bench_ready = true /\
  exists r,
    _mag_reports (drv (exec mag_measure bench_ready))
    = rb_force r (_mag_reports (drv bench_ready)).
Proof.
  assert (H1 : mag_registers_healthy bench_ready = true) by (vm_compute; reflexivity).
  destruct (mag_measure_commits_one_report bench_ready H1) as (r & Hr & _).
  split; [exact H1 |].
  exists r. exact Hr.
Defined.

(** X9 on the bench with both counters at 2^32 - 1. *)
Lemma counter_wraps_and_fails_self_test_witness :
  (_accel_read (drv bench_counters_at_max) = 2 ^ 32 - 1 /\
   _mag_read (drv bench_counters_at_max) = 2 ^ 32 - 1) /\
  (_accel_read (drv (exec measure bench_counters_at_max)) = 0 /\
   accel_self_test (drv (exec measure bench_counters_at_max)) = 1) /\
  (_mag_read (drv (exec mag_measure bench_counters_at_max)) = 0 /\
   mag_self_test (drv (exec mag_measure bench_counters_at_max)) = 1).
Proof.
  assert (H1 : accel_data_ready bench_counters_at_max = true) by (vm_compute; reflexivity).
  assert (H2 : accel_registers_healthy bench_counters_at_max = true)
    by (vm_compute; reflexivity).
  assert (H3 : _accel_read (drv bench_counters_at_max) = 2 ^ 32 - 1)
    by (vm_compute; reflexivity).
  assert (H4 : mag_registers_healthy bench_counters_at_max = true)
    by (vm_compute; reflexivity).
  assert (H5 : _mag_read (drv bench_counters_at_max) = 2 ^ 32 - 1)
    by (vm_compute; reflexivity).
  pose proof (counter_wraps_and_fails_self_test bench_counters_at_max) as [Ha Hm].
  split; [split; [exact H3 | exact H5] | split; [exact (Ha H1 H2 H3) | exact (Hm H4 H5)]].
Defined.

(** X10 on the bench: 100 Hz requested, 194 Hz selected. *)
Lemma onchip_filter_setter_selects_smallest_covering_bandwidth_witness :
  0 <= 100 /\
  smallest_covering accel_bandwidths 100
    (_accel_onchip_filter_bandwith
       (drv (exec (accel_set_onchip_lowpass_filter_bandwidth 100) bench_ready))) /\
  _accel_onchip_filter_bandwith
    (drv (exec (accel_set_onchip_lowpass_filter_bandwidth 100) bench_ready)) = 194.
Proof.
  assert (Hpos : 0 <= 100) by (vm_compute; discriminate).
  assert (Hin : 0 < 100 <= 773) by (vm_compute; split; [reflexivity | discriminate]).
  pose proof (onchip_filter_setter_selects_smallest_covering_bandwidth bench_ready 100 Hpos)
    as (_ & H & _).
  split; [exact Hpos | split; [exact (proj2 (H Hin)) |]].
  vm_compute. reflexivity.
Defined.

(** X11 on the bench: 300 Hz requested. *)
Lemma samplerate_setter_tracks_expected_register_witness :
  0 <= _reg1_expected (drv bench_ready) < 256 /\
  0 <= 300 <= 1600 /\
  Z.land (_reg1_expected (drv (exec (accel_set_samplerate 300) bench_ready))) 0x0F
  = Z.land (_reg1_expected (drv bench_ready)) 0x0F.
Proof.
  assert (H1 : 0 <= _reg1_expected (drv bench_ready) < 256)
    by (vm_compute; split; [discriminate | reflexivity]).
  assert (H2 : 0 <= 300 <= 1600) by (vm_compute; split; discriminate).
  pose proof (samplerate_setter_tracks_expected_register bench_ready 300 H1 H2) as H.
  cbv zeta in H. destruct H as (_ & Hlow & _).
  split; [exact H1 | split; [exact H2 | exact Hlow]].
Defined.

(** X12 on the bench: the rate field of CTRL_REG1 rewritten. *)
Lemma modify_reg_clears_then_sets_witness :
  0 <= ADDR_CTRL_REG1 < 64 /\
  sim_regs (hw (exec (modify_reg ADDR_CTRL_REG1 REG1_RATE_BITS_A REG1_RATE_100HZ_A)
                  bench_ready)) ADDR_CTRL_REG1
  = to_uint8 (Z.lor (Z.land (sim_regs (hw bench_ready) ADDR_CTRL_REG1)
                       (Z.lnot REG1_RATE_BITS_A)) REG1_RATE_100HZ_A).
Proof.
  assert (H1 : 0 <= ADDR_CTRL_REG1 < 64)
    by (vm_compute; split; [discriminate | reflexivity]).
  pose proof (modify_reg_clears_then_sets bench_ready ADDR_CTRL_REG1
                REG1_RATE_BITS_A REG1_RATE_100HZ_A H1) as H.
  cbv zeta in H. destruct H as (Hreg & _).
  split; [exact H1 | exact Hreg].
Defined.

(** X13 on the bench: 5 g requested. *)
Lemma ctrl_reg2_setters_keep_each_others_field_witness :
  0 <= 5 /\
  Z.land (sim_regs (hw (exec (accel_set_range 5) bench_ready)) ADDR_CTRL_REG2)
    REG2_ANTIALIAS_FILTER_BW_BITS_A
  = Z.land (to_uint8 (sim_regs (hw bench_ready) ADDR_CTRL_REG2))
      REG2_ANTIALIAS_FILTER_BW_BITS_A /\
  Z.land (sim_regs (hw (exec (accel_set_onchip_lowpass_filter_bandwidth 5) bench_ready))
            ADDR_CTRL_REG2) REG2_FULL_SCALE_BITS_A
  = Z.land (to_uint8 (sim_regs (hw bench_ready) ADDR_CTRL_REG2)) REG2_FULL_SCALE_BITS_A.
Proof.
  assert (Hpos : 0 <= 5) by (vm_compute; discriminate).
  assert (Hr : 5 <= 16) by (vm_compute; discriminate).
  assert (Hb : 5 <= 773) by (vm_compute; discriminate).
  pose proof (ctrl_reg2_setters_keep_each_others_field bench_ready 5 Hpos) as [Hrange Hbw].
  pose proof (Hrange Hr) as H1. cbv zeta in H1. destruct H1 as (_ & H1 & _).
  pose proof (Hbw Hb) as H2. cbv zeta in H2. destruct H2 as (_ & H2 & _).
  split; [exact Hpos | split; [exact H1 | exact H2]].
Defined.

(** X14 on the bench: a range change, a sample, a read and a
    magnetometer sample. *)
Lemma watchdog_never_fires_on_a_faithful_sensor_witness :
  in_sync bench_ready /\
  in_sync (exec (run_all [call_ioctl (ACCELIOCSRANGE 4); timer_measure; call_read 48;
                          timer_mag_measure]) bench_ready).
Proof.
  assert (H1 : in_sync bench_ready) by (split; vm_compute; reflexivity).
  pose proof (watchdog_never_fires_on_a_faithful_sensor
                [call_ioctl (ACCELIOCSRANGE 4); timer_measure; call_read 48;
                 timer_mag_measure] bench_ready H1) as (H & _).
  split; [exact H1 | exact H].
Defined.

(** X15 on the bench after a brownout. *)
Lemma measure_watchdog_resynchronises_witness :
  accel_data_ready bench_brownout = true /\
  accel_registers_healthy bench_brownout = false /\
  in_sync (exec measure bench_brownout) /\
  accel_registers_healthy (exec measure bench_brownout) = true.
Proof.
  assert (H1 : accel_data_ready bench_brownout = true) by (vm_compute; reflexivity).
  assert (H2 : accel_registers_healthy bench_brownout = false) by (vm_compute; reflexivity).
  pose proof (measure_watchdog_resynchronises bench_brownout H1 H2) as (Hi & Hh & _).
  split; [exact H1 | split; [exact H2 | split; [exact Hi | exact Hh]]].
Defined.

(** X16 on the bench after a brownout. *)
Lemma mag_measure_watchdog_resynchronises_witness :
  mag_registers_healthy bench_brownout = false /\
  in_sync (exec mag_measure bench_brownout) /\
  mag_registers_healthy (exec mag_measure bench_brownout) = true.
Proof.
  assert (H1 : mag_registers_healthy bench_brownout = false) by (vm_compute; reflexivity).
  pose proof (mag_measure_watchdog_resynchronises bench_brownout H1) as (Hi & Hh & _).
  split; [exact H1 | split; [exact Hi | exact Hh]].
Defined.

(** X17 on the bench: two accelerometer callbacks around one of the
    magnetometer. *)
Lemma every_timer_callback_produces_one_sample_witness :
  in_sync bench_ready /\
  sim_drdy (hw bench_ready) = true /\
  accel_samples_produced
    (drv (exec (run_all (map tick [accel_channel; mag_channel; accel_channel])) bench_ready))
  = accel_samples_produced (drv bench_ready)
    + ticks_of accel_channel [accel_channel; mag_channel; accel_channel].
Proof.
  assert (H1 : in_sync bench_ready) by (split; vm_compute; reflexivity).
  assert (H2 : sim_drdy (hw bench_ready) = true) by (vm_compute; reflexivity).
  pose proof (every_timer_callback_produces_one_sample
                [accel_channel; mag_channel; accel_channel] bench_ready H1 H2) as (Ha & _).
  split; [exact H1 | split; [exact H2 | exact Ha]].
Defined.

(** X19 on the calibrated bench: a timer callback is no scale command. *)
Lemma calibration_changes_only_by_scale_commands_witness :
  _accel_scale (drv (exec (run timer_measure) bench_calibrated))
  = _accel_scale (drv bench_calibrated) /\
  _mag_scale (drv (exec (run timer_measure) bench_calibrated))
  = _mag_scale (drv bench_calibrated).
Proof.
  assert (Ha : forall sc, timer_measure <> call_ioctl (ACCELIOCSSCALE sc))
    by (intros sc; discriminate).
  assert (Hm : forall sc, timer_measure <> call_mag_ioctl (MAGIOCSSCALE sc))
    by (intros sc; discriminate).
  pose proof (calibration_changes_only_by_scale_commands timer_measure bench_calibrated)
    as [Hka Hkm].
  split; [exact (Hka Ha) | exact (Hkm Hm)].
Defined.
